(** * postman-sync: the collection merger, embedded and verified

    A shallow embedding of [postman_sync/models.py],
    [postman_sync/utils/validators.py], [postman_sync/postman/test_generator.py],
    [postman_sync/postman/merger.py] and of [SyncEngine.run_sync] of
    [postman_sync/sync/engine.py].

    - Python [str] values are [string]s (ASCII text; the literals of
      [SyncResult.summary] hold the bytes of the source file); the [str]
      methods the code calls are in [PyStr].
    - A JSON object is a record whose optional keys are [option] fields; the
      collection tree is the nested inductive [item].
    - The collection is a mutable object shared by reference: it lives in the
      [world] next to the clock ([datetime.utcnow]) and the logger, and the
      methods of [CollectionMerger] are computations in the monad [M], which
      keeps the world reached when an exception is raised.
    - A reference to a request item (a value of the [existing_requests]
      dict) is the path of that item in the tree. *)

From Stdlib Require Import ZArith String Ascii Bool Lia DecimalString.
From stdpp Require Import base option list.

Local Open Scope string_scope.
Local Open Scope Z_scope.

(** ** Python [str] methods *)

Module PyStr.

Definition chr (n : nat) : ascii := ascii_of_nat n.
Definition code (c : ascii) : nat := nat_of_ascii c.

(** [str.isspace] on the ASCII range. *)
Definition is_space (c : ascii) : bool :=
  let n := code c in
  ((9 <=? n)%nat && (n <=? 13)%nat) || ((28 <=? n)%nat && (n <=? 32)%nat).

Definition is_digit (c : ascii) : bool :=
  let n := code c in (48 <=? n)%nat && (n <=? 57)%nat.

Definition lower_char (c : ascii) : ascii :=
  let n := code c in
  if (65 <=? n)%nat && (n <=? 90)%nat then chr (n + 32) else c.

Definition upper_char (c : ascii) : ascii :=
  let n := code c in
  if (97 <=? n)%nat && (n <=? 122)%nat then chr (n - 32) else c.

(** [s.lower()] *)
Fixpoint lower (s : string) : string :=
  match s with
  | EmptyString => EmptyString
  | String c r => String (lower_char c) (lower r)
  end.

(** [s.capitalize()] *)
Definition capitalize (s : string) : string :=
  match s with
  | EmptyString => EmptyString
  | String c r => String (upper_char c) (lower r)
  end.

(** [s.startswith(p)] *)
Definition startswith (p s : string) : bool := String.prefix p s.

(** [sub in s] *)
Fixpoint contains (sub s : string) : bool :=
  String.prefix sub s ||
  match s with
  | EmptyString => false
  | String _ r => contains sub r
  end.

(** [s[n:]] *)
Fixpoint drop (n : nat) (s : string) : string :=
  match n, s with
  | O, _ => s
  | S _, EmptyString => EmptyString
  | S k, String _ r => drop k r
  end.

Fixpoint replace_from (old new : string) (skip : nat) (s : string) : string :=
  match s with
  | EmptyString => EmptyString
  | String c r =>
      match skip with
      | S k => replace_from old new k r
      | O =>
          if String.prefix old s
          then new ++ replace_from old new (String.length old - 1) r
          else String c (replace_from old new O r)
      end
  end.

Fixpoint intersperse (new s : string) : string :=
  match s with
  | EmptyString => new
  | String c r => new ++ String c (intersperse new r)
  end.

(** [s.replace(old, new)]: occurrences are replaced left to right and do
    not overlap; an empty [old] matches between all characters. *)
Definition replace (old new s : string) : string :=
  match old with
  | EmptyString => intersperse new s
  | String _ _ => replace_from old new O s
  end.

(** [s.split(sep)] for a one-character separator. *)
Fixpoint split (sep : ascii) (s : string) : list string :=
  match s with
  | EmptyString => [EmptyString]
  | String c r =>
      if Ascii.eqb c sep then EmptyString :: split sep r
      else match split sep r with
           | h :: t => String c h :: t
           | [] => [String c EmptyString]
           end
  end.

(** [s.split()]: the maximal runs of non-blank characters. *)
Fixpoint split_ws (s : string) : list string :=
  match s with
  | EmptyString => []
  | String c r =>
      if is_space c then split_ws r
      else match r with
           | EmptyString => [String c EmptyString]
           | String c' _ =>
               if is_space c' then String c EmptyString :: split_ws r
               else match split_ws r with
                    | h :: t => String c h :: t
                    | [] => [String c EmptyString]
                    end
           end
  end.

(** [s.split(sep)[0]] for a non-empty [sep]: the text before the first
    occurrence of [sep], all of [s] when there is none. *)
Fixpoint split_head (sep s : string) : string :=
  if String.prefix sep s then EmptyString
  else match s with
       | EmptyString => EmptyString
       | String c r => String c (split_head sep r)
       end.

(** [sep.join(l)] *)
Definition join (sep : string) (l : list string) : string := String.concat sep l.

Definition is_empty (s : string) : bool :=
  match s with EmptyString => true | String _ _ => false end.

(** [s.rstrip()] *)
Fixpoint rstrip (s : string) : string :=
  match s with
  | EmptyString => EmptyString
  | String c r =>
      let r' := rstrip r in
      if is_space c && is_empty r' then EmptyString else String c r'
  end.

(** [s.lstrip()] *)
Fixpoint lstrip (s : string) : string :=
  match s with
  | EmptyString => EmptyString
  | String c r => if is_space c then lstrip r else s
  end.

(** [s.strip()] *)
Definition strip (s : string) : string := rstrip (lstrip s).

(** The maximal prefix of [s] whose characters satisfy [p], and the rest. *)
Fixpoint span (p : ascii -> bool) (s : string) : string * string :=
  match s with
  | EmptyString => (EmptyString, EmptyString)
  | String c r =>
      if p c then let '(a, b) := span p r in (String c a, b)
      else (EmptyString, s)
  end.

(** The double quote, for the JavaScript lines that contain one. *)
Definition dq : string := String (chr 34) EmptyString.
Definition quoted (s : string) : string := dq ++ s ++ dq.

(** Line feed. *)
Definition nl : string := String (chr 10) EmptyString.

End PyStr.

(** Truth value of an [Optional[str]]: [None] and the empty string are falsy. *)
Definition str_truthy (o : option string) : bool :=
  match o with
  | Some s => negb (PyStr.is_empty s)
  | None => false
  end.

(** An opaque JSON object (a schema, a header, an example response): its
    keys with their rendered values. It is falsy when it has no key. *)
Definition json_object : Type := list (string * string).

(** ** models.py *)

Inductive HttpMethod : Set := GET | POST | PUT | PATCH | DELETE | OPTIONS | HEAD.

(** [HttpMethod.value] *)
Definition method_value (m : HttpMethod) : string :=
  match m with
  | GET => "GET" | POST => "POST" | PUT => "PUT" | PATCH => "PATCH"
  | DELETE => "DELETE" | OPTIONS => "OPTIONS" | HEAD => "HEAD"
  end.

Definition HttpMethod_eqb (a b : HttpMethod) : bool :=
  match a, b with
  | GET, GET | POST, POST | PUT, PUT | PATCH, PATCH
  | DELETE, DELETE | OPTIONS, OPTIONS | HEAD, HEAD => true
  | _, _ => false
  end.

Record RouteSchema : Type := {
  body : option json_object;
  querystring : option json_object;
  params : option json_object;
  headers : option json_object;
  response : option (list (Z * json_object))   (* by status code *)
}.

Record RateLimitConfig : Type := {
  max : Z;
  time_window : string
}.

Record RouteMetadata : Type := {
  file_path : string;
  file_name : string;
  line_number : Z;
  is_protected : bool;
  rate_limit : option RateLimitConfig;
  extracted_at : Z
}.

Record Route : Type := {
  method : HttpMethod;
  path : string;
  full_path : string;
  handler_name : string;
  description : option string;
  schema : option RouteSchema;
  metadata : option RouteMetadata
}.

(** [Route.unique_id] *)
Definition unique_id (r : Route) : string :=
  method_value (method r) ++ ":" ++ full_path r.

(** [" ".join(word.capitalize() for word in words)] over
    [name.replace("-", " ").replace("_", " ").split()] *)
Definition title_words (name : string) : string :=
  let words := PyStr.split_ws (PyStr.replace "_" " " (PyStr.replace "-" " " name)) in
  PyStr.join " " (map PyStr.capitalize words).

(** [Route.folder_name] *)
Definition folder_name (r : Route) : string :=
  match metadata r with
  | None => "Routes"
  | Some md =>
      let name := PyStr.replace ".js" "" (PyStr.replace ".ts" "" (file_name md)) in
      title_words name
  end.

(** One step of the loop of [request_name] over [path_parts]. *)
Definition readable_part (part : string) : string :=
  let part :=
    if PyStr.startswith ":" part then "{" ++ PyStr.drop 1 part ++ "}" else part in
  title_words part.

(** [Route.request_name] *)
Definition request_name (r : Route) : string :=
  let path_parts :=
    List.filter (fun p => negb (PyStr.is_empty p) && negb (String.eqb p "api"))
           (PyStr.split "/" (full_path r)) in
  match path_parts with
  | [] => method_value (method r) ++ " Root"
  | _ :: _ =>
      let method_prefix :=
        match method r with
        | GET => "Get"
        | POST => if (length path_parts =? 1)%nat then "Create" else "Generate"
        | PUT => "Update"
        | PATCH => "Update"
        | DELETE => "Delete"
        | m => method_value m
        end in
      let name := PyStr.join " " (map readable_part path_parts) in
      if PyStr.contains "health" (PyStr.lower name) then "Health Check"
      else if PyStr.contains "verify" (PyStr.lower name)
      then "Verify " ++ PyStr.strip (PyStr.replace "Verify" "" name)
      else method_prefix ++ " " ++ name
  end.

Record SyncResult : Type := {
  routes_added : list Route;
  routes_updated : list Route;
  routes_deprecated : list string;
  routes_removed : list string;
  errors : list string;
  synced_at : Z
}.

Definition nonempty {A : Type} (l : list A) : bool :=
  match l with [] => false | _ :: _ => true end.

(** [SyncResult.has_errors] *)
Definition has_errors (r : SyncResult) : bool := nonempty (errors r).

(** [SyncResult.has_changes] *)
Definition has_changes (r : SyncResult) : bool :=
  nonempty (routes_added r) || nonempty (routes_updated r)
  || nonempty (routes_deprecated r) || nonempty (routes_removed r).

(** ** postman/test_generator.py *)

Module TestScriptGenerator.

Import PyStr.

Definition _generate_structure_tests : list string :=
  [ "pm.test(" ++ quoted "Response has correct structure" ++ ", function () {";
    "    var jsonData = pm.response.json();";
    "    pm.expect(jsonData).to.be.an(" ++ quoted "object" ++ ");";
    "});";
    EmptyString ].

Definition _generate_post_tests (route : Route) : list string :=
  if contains "token" (lower (path route)) then
    [ "pm.test(" ++ quoted "Response contains token" ++ ", function () {";
      "    var jsonData = pm.response.json();";
      "    pm.expect(jsonData).to.have.property(" ++ quoted "token" ++ ");";
      "});";
      EmptyString;
      "// Save token to collection variable";
      "if (pm.response.code === 200) {";
      "    var jsonData = pm.response.json();";
      "    pm.collectionVariables.set(" ++ quoted "jwtToken" ++ ", jsonData.token);";
      "}";
      EmptyString ]
  else
    [ "pm.test(" ++ quoted "Resource created successfully" ++ ", function () {";
      "    pm.expect(pm.response.code).to.be.oneOf([200, 201]);";
      "});";
      EmptyString ].

Definition _generate_get_tests (route : Route) : list string :=
  if contains "health" (lower (path route)) then
    [ "pm.test(" ++ quoted "Service is healthy" ++ ", function () {";
      "    var jsonData = pm.response.json();";
      "    pm.expect(jsonData.status).to.eql(" ++ quoted "ok" ++ ");";
      "});";
      EmptyString ]
  else [].

(** [dict.get(200)] on the response schemas. *)
Fixpoint response_get (code : Z) (l : list (Z * json_object)) : option json_object :=
  match l with
  | [] => None
  | (k, v) :: l' => if Z.eqb k code then Some v else response_get code l'
  end.

(** [route.schema and route.schema.response] followed by
    [success_schema = route.schema.response.get(200)], both tested for
    truth. *)
Definition has_success_schema (route : Route) : bool :=
  match schema route with
  | None => false
  | Some sc =>
      match response sc with
      | None => false
      | Some resp =>
          nonempty resp &&
          match response_get 200 resp with
          | Some success_schema => nonempty success_schema
          | None => false
          end
      end
  end.

Definition generate_test_script (route : Route) : list string :=
  let tests :=
    [ "pm.test(" ++ quoted "Status code is 200" ++ ", function () {";
      "    pm.response.to.have.status(200);";
      "});";
      EmptyString ] in
  let tests :=
    if has_success_schema route then (tests ++ _generate_structure_tests)%list
    else tests in
  match method route with
  | POST => (tests ++ _generate_post_tests route)%list
  | GET => (tests ++ _generate_get_tests route)%list
  | _ => tests
  end.

Definition generate_prerequest_auth_script : list string :=
  [ "// Auto-generated: Add JWT authorization header";
    "const token = pm.collectionVariables.get(" ++ quoted "jwtToken" ++ ");";
    EmptyString;
    "if (token) {";
    "    pm.request.headers.add({";
    "        key: " ++ quoted "Authorization" ++ ",";
    "        value: `Bearer ${token}`";
    "    });";
    "} else {";
    "    console.warn(" ++ quoted "JWT token not found. Generate token first." ++ ");";
    "}" ].

End TestScriptGenerator.

(** ** The collection document *)

(** The [path] member of a URL object: a list of segments, or any other
    JSON value, kept as the text [str()] gives for it. *)
Inductive url_path : Type :=
| PathList (segments : list string)
| PathOther (str : string).

(** The [url] member of a request: a plain string, a URL object, or a JSON
    value that is neither. *)
Inductive url : Type :=
| UrlString (s : string)
| UrlObject (raw : option string) (host : list string) (upath : option url_path)
| UrlOther.

Record script : Type := {
  exec : list string;
  script_type : string
}.

Record event : Type := {
  listen : option string;
  ev_script : option script
}.

Record request : Type := {
  req_method : option string;
  req_header : list json_object;
  req_url : option url;
  req_description : option string
}.

(** An element of an [item] array. A folder has the key [item], a request
    item the key [request]; the code tests the two keys independently. *)
#[local] Unset Elimination Schemes.
Inductive item : Type :=
| Item (it_name : option string)
       (it_request : option request)
       (it_event : option (list event))
       (it_response : option (list json_object))
       (it_item : option (list item)).
#[local] Set Elimination Schemes.

Definition it_name (it : item) : option string :=
  match it with Item n _ _ _ _ => n end.
Definition it_request (it : item) : option request :=
  match it with Item _ r _ _ _ => r end.
Definition it_event (it : item) : option (list event) :=
  match it with Item _ _ e _ _ => e end.
Definition it_response (it : item) : option (list json_object) :=
  match it with Item _ _ _ r _ => r end.
Definition it_item (it : item) : option (list item) :=
  match it with Item _ _ _ _ c => c end.

Definition set_request (rq : option request) (it : item) : item :=
  match it with Item n _ e r c => Item n rq e r c end.
Definition set_event (ev : option (list event)) (it : item) : item :=
  match it with Item n rq _ r c => Item n rq ev r c end.
Definition set_item (c : option (list item)) (it : item) : item :=
  match it with Item n rq e r _ => Item n rq e r c end.

Record info_object : Type := {
  info_name : option string;
  info_description : option string
}.

(** The collection: the keys [info] and [item] are typed (an object, an
    array), so of the checks of [validate_postman_collection] the two
    [isinstance] ones cannot fail here. *)
Record collection : Type := {
  c_info : option info_object;
  c_item : option (list item)
}.

(** A reference to an item of the tree: the indices leading to it from the
    top-level array. *)
Definition path_ref : Type := list nat.

Fixpoint lookup_path (p : path_ref) (items : list item) : option item :=
  match p with
  | [] => None
  | i :: q =>
      match q with
      | [] => items !! i
      | _ :: _ =>
          match items !! i with
          | Some it =>
              match it_item it with
              | Some ch => lookup_path q ch
              | None => None
              end
          | None => None
          end
      end
  end.

(** In-place mutation of the item a reference points to. *)
Fixpoint alter_path (f : item -> item) (p : path_ref) (items : list item) : list item :=
  match p with
  | [] => items
  | i :: q =>
      match q with
      | [] => alter f i items
      | _ :: _ => alter (fun it => set_item (alter_path f q <$> it_item it) it) i items
      end
  end.

(** ** The world: the collection object, the clock, the logger *)

(** One call of [logger.debug] or [logger.info], with the values its
    message is formatted from. *)
Inductive log_record : Type :=
| DebugSkippingDuplicate (uid name : string)
| DebugIndexed (n : nat)
| DebugCreatedFolder (name : string)
| DebugUpdatedRequest (uid : string)
| DebugAddedRequest (uid : string)
| DebugMarkedDeprecated (uid : string)
| DebugRemovedOldDeprecated (uid : string)
| InfoMergeComplete (result : SyncResult).

(** [w_clock w k] is what the [k]-th call of [datetime.utcnow()] returns, in
    microseconds since 0001-01-01T00:00:00; [w_ticks] counts the calls. *)
Record world : Type := {
  w_doc : collection;
  w_clock : nat -> Z;
  w_ticks : nat;
  w_log : list log_record
}.

Definition with_doc (d : collection) (w : world) : world :=
  {| w_doc := d; w_clock := w_clock w; w_ticks := w_ticks w; w_log := w_log w |}.

Inductive exn : Type :=
| ValidationError (msg : string)
| KeyError (key : string)
| TypeError (msg : string)
| OverflowError (msg : string)
| MergerError (cause : exn).

(** A computation ends by returning or by raising; either way the world it
    reached stays. *)
Inductive outcome (A : Type) : Type :=
| Return (a : A) (w : world)
| Raise (e : exn) (w : world).
Arguments Return {A} a w.
Arguments Raise {A} e w.

Definition M (A : Type) : Type := world -> outcome A.

Definition ret {A : Type} (a : A) : M A := fun w => Return a w.

Definition bind {A B : Type} (m : M A) (k : A -> M B) : M B :=
  fun w =>
    match m w with
    | Return a w' => k a w'
    | Raise e w' => Raise e w'
    end.

Definition raise {A : Type} (e : exn) : M A := fun w => Raise e w.

Notation "x <- m ;; k" := (bind m (fun x => k))
  (at level 100, m at next level, right associativity).
Notation "m ;;; k" := (bind m (fun _ => k))
  (at level 100, right associativity).

(** [collection.get("item", [])] *)
Definition get_items : M (list item) :=
  fun w => Return (default [] (c_item (w_doc w))) w.

(** [collection["item"] = items], and every mutation reached through it. *)
Definition set_items (items : list item) : M unit :=
  fun w => Return tt (with_doc {| c_info := c_info (w_doc w); c_item := Some items |} w).

(** A mutation of an object reached from [collection["item"]]; with no
    such key there is no object to reach. *)
Definition modify_items (f : list item -> list item) : M unit :=
  fun w =>
    match c_item (w_doc w) with
    | Some items => set_items (f items) w
    | None => Return tt w
    end.

(** [datetime.utcnow()] *)
Definition utcnow : M Z :=
  fun w => Return (w_clock w (w_ticks w))
                  {| w_doc := w_doc w; w_clock := w_clock w;
                     w_ticks := S (w_ticks w); w_log := w_log w |}.

Definition logger (r : log_record) : M unit :=
  fun w => Return tt {| w_doc := w_doc w; w_clock := w_clock w;
                        w_ticks := w_ticks w; w_log := (w_log w ++ [r])%list |}.

(** [d[key]] on a key that may be absent. *)
Definition subscript {A : Type} (key : string) (o : option A) : M A :=
  match o with
  | Some a => ret a
  | None => raise (KeyError key)
  end.

(** [for x in l: acc = body(acc, x)] *)
Fixpoint for_each {A S : Type} (l : list A) (body : S -> A -> M S) (acc : S) : M S :=
  match l with
  | [] => ret acc
  | x :: l' => acc' <- body acc x ;; for_each l' body acc'
  end.

(** ** utils/validators.py *)

Definition validate_postman_collection (data : collection) : M unit :=
  match c_info data with
  | None => raise (ValidationError "Collection missing 'info' field")
  | Some info =>
      match c_item data with
      | None => raise (ValidationError "Collection missing 'item' field")
      | Some _ =>
          match info_name info with
          | None => raise (ValidationError "Collection info missing 'name' field")
          | Some _ => ret tt
          end
      end
  end.

(** ** The standard library's [datetime] and [re] *)

(** What [datetime.fromisoformat] makes of a string: a naive datetime, an
    aware one (the text carried a UTC offset), or [ValueError]. *)
Inductive iso_parse : Type :=
| IsoNaive (t : Z)
| IsoAware (t : Z) (utcoffset : Z)
| IsoValueError.

Definition us_per_day : Z := 86400000000.

(** [datetime.max], exclusive: 3652059 days from 0001-01-01. *)
Definition datetime_end : Z := 3652059 * us_per_day.

(** [now - timedelta(days=days)] *)
Definition minus_days (now days : Z) : M Z :=
  if 999999999 <? Z.abs days
  then raise (OverflowError "days; must have magnitude <= 999999999")
  else
    let t := now - days * us_per_day in
    if (0 <=? t) && (t <? datetime_end) then ret t
    else raise (OverflowError "date value out of range").

(** The character class [[\d\-T:\.]]. *)
Definition stamp_char (c : ascii) : bool :=
  PyStr.is_digit c
  || Ascii.eqb c "-" || Ascii.eqb c "T" || Ascii.eqb c ":" || Ascii.eqb c ".".

(** [re.match(r'\(as of ([\d\-T:\.]+)\)', s)], group 1. The class does not
    hold the closing parenthesis, so the greedy run is the only candidate. *)
Definition match_as_of (s : string) : option string :=
  if String.prefix "(as of " s then
    let '(run, rest) := PyStr.span stamp_char (PyStr.drop 7 s) in
    if negb (PyStr.is_empty run) && String.prefix ")" rest then Some run else None
  else None.

(** [re.search(r'\(as of ([\d\-T:\.]+)\)', s)], group 1 of the leftmost
    match. *)
Fixpoint search_as_of (s : string) : option string :=
  match match_as_of s with
  | Some g => Some g
  | None =>
      match s with
      | EmptyString => None
      | String _ r => search_as_of r
      end
  end.

(** ** postman/merger.py *)

(** [existing_requests]: a dict in insertion order, from unique_id to a
    reference to the request item. *)
Definition index_t : Type := list (string * path_ref).

Fixpoint index_get (uid : string) (index : index_t) : option path_ref :=
  match index with
  | [] => None
  | (k, v) :: rest => if String.eqb k uid then Some v else index_get uid rest
  end.

Definition index_mem (uid : string) (index : index_t) : bool :=
  match index_get uid index with Some _ => true | None => false end.

(** [x in names] for a set or a dict's keys. *)
Definition str_mem (x : string) (names : list string) : bool :=
  existsb (String.eqb x) names.

(** [{}] where a URL is expected. *)
Definition empty_url : url := UrlObject None [] None.

Definition _extract_path (u : url) : string :=
  match u with
  | UrlString s => s
  | UrlObject _ _ p =>
      match default (PathList []) p with
      | PathList path_parts => "/" ++ PyStr.join "/" path_parts
      | PathOther str => str
      end
  | UrlOther => EmptyString
  end.

Definition _build_url (path : string) : url :=
  let parts := List.filter (fun p => negb (PyStr.is_empty p)) (PyStr.split "/" path) in
  UrlObject (Some ("{{baseUrl}}" ++ path)) ["{{baseUrl}}"] (Some (PathList parts)).

(** [method = request["method"]; path = self._extract_path(request.get("url", {}));
    unique_id = f"{method}:{path}"] *)
Definition request_unique_id (rq : request) : M string :=
  method <- subscript "method" (req_method rq) ;;
  ret (method ++ ":" ++ _extract_path (default empty_url (req_url rq))).

(** The body of the loop of [index_items] before it recurses. *)
Definition index_one (ref : path_ref) (it : item) (index : index_t) : M index_t :=
  match it_request it with
  | Some rq =>
      unique_id <- request_unique_id rq ;;
      if index_mem unique_id index
      then logger (DebugSkippingDuplicate unique_id (default "?" (it_name it))) ;;; ret index
      else ret (index ++ [(unique_id, ref)])%list
  | None => ret index
  end.

Fixpoint index_item (ref : path_ref) (it : item) (index : index_t) {struct it} : M index_t :=
  index <- index_one ref it index ;;
  match it with
  | Item _ _ _ _ (Some children) =>
      (fix index_children (i : nat) (l : list item) (index : index_t) : M index_t :=
         match l with
         | [] => ret index
         | x :: l' =>
             index <- index_item (ref ++ [i])%list x index ;;
             index_children (S i) l' index
         end) O children index
  | Item _ _ _ _ None => ret index
  end.

(** [index_items(items)] for the array under [parent], from position [i]. *)
Fixpoint index_items (parent : path_ref) (i : nat) (items : list item)
    (index : index_t) : M index_t :=
  match items with
  | [] => ret index
  | x :: l' =>
      index <- index_item (parent ++ [i])%list x index ;;
      index_items parent (S i) l' index
  end.

Definition _index_requests : M index_t :=
  items <- get_items ;;
  index <- index_items [] O items [] ;;
  logger (DebugIndexed (length index)) ;;;
  ret index.

(** The dict of [_organize_by_folder], in insertion order. *)
Fixpoint folders_append (folder : string) (route : Route)
    (folders : list (string * list Route)) : list (string * list Route) :=
  match folders with
  | [] => [(folder, [route])]
  | (k, v) :: rest =>
      if String.eqb k folder then (k, (v ++ [route])%list) :: rest
      else (k, v) :: folders_append folder route rest
  end.

Definition _organize_by_folder (routes : list Route) : list (string * list Route) :=
  fold_left (fun folders route => folders_append (folder_name route) route folders)
            routes [].

Definition new_folder (name : string) : item :=
  Item (Some name) None None None (Some []).

(** [collection["item"]] *)
Definition items_subscript : M (list item) :=
  fun w => subscript "item" (c_item (w_doc w)) w.

(** [collection["item"].append(x)] *)
Definition items_append (x : item) : M unit :=
  items <- items_subscript ;; set_items (items ++ [x])%list.

Definition _ensure_folders (folder_names : list string) : M unit :=
  (fun w => match c_item (w_doc w) with
            | None => set_items [] w
            | Some _ => ret tt w
            end) ;;;
  items <- items_subscript ;;
  (* the keys of existing_folders *)
  existing_folders <-
    for_each items
      (fun names it =>
         match it_item it with
         | Some _ => name <- subscript "name" (it_name it) ;; ret (names ++ [name])%list
         | None => ret names
         end) [] ;;
  for_each folder_names
    (fun _ folder_name =>
       if str_mem folder_name existing_folders then ret tt
       else items_append (new_folder folder_name) ;;;
            logger (DebugCreatedFolder folder_name)) tt.

Definition auth_event : event :=
  {| listen := Some "prerequest";
     ev_script := Some {| exec := TestScriptGenerator.generate_prerequest_auth_script;
                          script_type := "text/javascript" |} |}.

Definition is_prerequest (e : event) : bool :=
  match listen e with
  | Some l => String.eqb l "prerequest"
  | None => false
  end.

(** [_ensure_auth_prerequest], as the mutation of the item dict it is given. *)
Definition _ensure_auth_prerequest (request_item : item) : item :=
  let events := default [] (it_event request_item) in
  if existsb is_prerequest events
  then set_event (Some events) request_item
  else set_event (Some (events ++ [auth_event])%list) request_item.

(** [route.metadata and route.metadata.is_protected] *)
Definition route_protected (route : Route) : bool :=
  match metadata route with
  | Some md => is_protected md
  | None => false
  end.

Definition deprecated_tag : string := "**DEPRECATED**".
Definition synced_tag : string := "_Last synced:".

(** [request.get("description", "")] of [request_item.get("request", {})] *)
Definition item_description (it : item) : string :=
  default EmptyString (it_request it ≫= req_description).

Section CollectionMerger.

(** [datetime.isoformat] and [datetime.fromisoformat] are the
    interpreter's; [deprecation_days] is the merger's attribute. *)
Variable isoformat : Z -> string.
Variable fromisoformat : string -> iso_parse.
Variable deprecation_days : Z.

Definition sync_note (now : Z) : string :=
  PyStr.nl ++ PyStr.nl ++ "_Last synced: " ++ isoformat now ++ "_".

(** The assignments of [_update_request] to the [request] dict. *)
Definition update_request_dict (now : Z) (route : Route) (rq : request) : request :=
  let current_desc := default EmptyString (req_description rq) in
  let base_desc :=
    if PyStr.contains synced_tag current_desc
    then PyStr.rstrip (PyStr.split_head synced_tag current_desc)
    else current_desc in
  let base_desc :=
    if PyStr.is_empty base_desc && str_truthy (description route)
    then default EmptyString (description route)
    else base_desc in
  {| req_method := Some (method_value (method route));
     req_header := req_header rq;
     req_url := Some (_build_url (full_path route));
     req_description := Some (base_desc ++ sync_note now) |}.

(** What [_update_request] does to the item dict; with no [request] key
    the assignments go to a dict that is dropped. *)
Definition update_item (now : Z) (route : Route) (it : item) : item :=
  let it := set_request (update_request_dict now route <$> it_request it) it in
  if route_protected route then _ensure_auth_prerequest it else it.

Definition _update_request (request_item : path_ref) (route : Route) : M unit :=
  now <- utcnow ;;
  modify_items (alter_path (update_item now route) request_item) ;;;
  logger (DebugUpdatedRequest (unique_id route)).

(** The first top-level item named [name] that has the key [item]. *)
Fixpoint find_folder (name : string) (i : nat) (items : list item) : option nat :=
  match items with
  | [] => None
  | it :: rest =>
      if match it_name it with Some n => String.eqb n name | None => false end
         && bool_decide (is_Some (it_item it))
      then Some i
      else find_folder name (S i) rest
  end.

Definition test_event (test_script : list string) : event :=
  {| listen := Some "test";
     ev_script := Some {| exec := test_script; script_type := "text/javascript" |} |}.

(** The request item [_add_request] builds, given the description. *)
Definition build_request_item (route : Route) (desc : string) : item :=
  let request_item :=
    Item (Some (request_name route))
         (Some {| req_method := Some (method_value (method route));
                  req_header := [];
                  req_url := Some (_build_url (full_path route));
                  req_description := Some desc |})
         (Some []) (Some []) None in
  let test_script := TestScriptGenerator.generate_test_script route in
  let request_item :=
    if nonempty test_script
    then set_event (Some (default [] (it_event request_item) ++ [test_event test_script])%list)
                   request_item
    else request_item in
  if route_protected route then _ensure_auth_prerequest request_item else request_item.

(** [folder["item"].append(request_item)] *)
Definition folder_append (request_item : item) (folder : item) : item :=
  set_item (Some (default [] (it_item folder) ++ [request_item])%list) folder.

Definition _add_request (route : Route) : M unit :=
  items <- get_items ;;
  folder <-
    match find_folder (folder_name route) O items with
    | Some i => ret i
    | None =>
        items <- items_subscript ;;
        set_items (items ++ [new_folder (folder_name route)])%list ;;;
        ret (length items)
    end ;;
  desc <-
    (if str_truthy (description route)
     then ret (default EmptyString (description route))
     else now <- utcnow ;;
          ret (method_value (method route) ++ " " ++ full_path route ++ sync_note now)) ;;
  modify_items (alter (folder_append (build_request_item route desc)) folder) ;;;
  logger (DebugAddedRequest (unique_id route)).

(** [request["description"] = new_desc] in [_mark_deprecated]. *)
Definition mark_item (now : Z) (it : item) : item :=
  let desc := item_description it in
  let new_desc :=
    deprecated_tag ++ " (as of " ++ isoformat now ++ ")" ++ PyStr.nl ++ PyStr.nl ++ desc in
  set_request
    ((fun rq => {| req_method := req_method rq; req_header := req_header rq;
                   req_url := req_url rq; req_description := Some new_desc |})
       <$> it_request it) it.

Definition _mark_deprecated (existing_requests : index_t)
    (current_route_ids : list string) : M (list string) :=
  for_each existing_requests
    (fun deprecated '(unique_id, request_item) =>
       if str_mem unique_id current_route_ids then ret deprecated
       else
         items <- get_items ;;
         let desc := from_option item_description EmptyString
                                 (lookup_path request_item items) in
         if PyStr.contains deprecated_tag desc then ret deprecated
         else
           now <- utcnow ;;
           modify_items (alter_path (mark_item now) request_item) ;;;
           logger (DebugMarkedDeprecated unique_id) ;;;
           ret (deprecated ++ [unique_id])%list)
    [].

(** Whether [process_items] takes the branch that ends in [continue]:
    the item is a request whose description has the tag and a stamp that
    parses to a date before the cutoff. A stamp that does not parse
    ([ValueError]) is passed over; an aware date cannot be compared with
    the naive cutoff. *)
Definition is_stale (cutoff_date : Z) (it : item) : M bool :=
  match it_request it with
  | None => ret false
  | Some _ =>
      let desc := item_description it in
      if PyStr.contains deprecated_tag desc then
        match search_as_of desc with
        | Some stamp =>
            match fromisoformat stamp with
            | IsoNaive dep_date => ret (dep_date <? cutoff_date)
            | IsoAware _ _ =>
                raise (TypeError "can't compare offset-naive and offset-aware datetimes")
            | IsoValueError => ret false
            end
        | None => ret false
        end
      else ret false
  end.

(** One turn of the loop of [process_items]: [None] when the item is
    dropped, the item as it is appended to [filtered] otherwise. The list
    [removed] of the enclosing function is threaded through. *)
Fixpoint process_item (cutoff_date : Z) (ref : path_ref) (it : item)
    (removed : list string) {struct it} : M (list string * option item) :=
  stale <- is_stale cutoff_date it ;;
  if stale : bool then
    rq <- subscript "request" (it_request it) ;;
    unique_id <- request_unique_id rq ;;
    logger (DebugRemovedOldDeprecated unique_id) ;;;
    ret ((removed ++ [unique_id])%list, None)
  else
    match it with
    | Item _ _ _ _ (Some children) =>
        swept <-
          (fix process_children (i : nat) (l : list item) (removed : list string)
               (filtered : list item) : M (list string * list item) :=
             match l with
             | [] => ret (removed, filtered)
             | x :: l' =>
                 turn <- process_item cutoff_date (ref ++ [i])%list x removed ;;
                 let '(removed, kept) := turn in
                 process_children (S i) l' removed
                   (match kept with
                    | Some x' => (filtered ++ [x'])%list
                    | None => filtered
                    end)
             end) O children removed [] ;;
        let '(removed, filtered) := swept in
        (* item["item"] = process_items(item["item"]) *)
        modify_items (alter_path (set_item (Some filtered)) ref) ;;;
        ret (removed, Some (set_item (Some filtered) it))
    | Item _ _ _ _ None => ret (removed, Some it)
    end.

(** [process_items(items)] for the array under [parent], from position [i]. *)
Fixpoint process_items (cutoff_date : Z) (parent : path_ref) (i : nat)
    (items : list item) (removed : list string) (filtered : list item)
    : M (list string * list item) :=
  match items with
  | [] => ret (removed, filtered)
  | x :: l' =>
      turn <- process_item cutoff_date (parent ++ [i])%list x removed ;;
      let '(removed, kept) := turn in
      process_items cutoff_date parent (S i) l' removed
        (match kept with
         | Some x' => (filtered ++ [x'])%list
         | None => filtered
         end)
  end.

Definition _remove_old_deprecated : M (list string) :=
  now <- utcnow ;;
  cutoff_date <- minus_days now deprecation_days ;;
  items <- get_items ;;
  swept <- process_items cutoff_date [] O items [] [] ;;
  let '(removed, filtered) := swept in
  set_items filtered ;;;
  ret removed.

(** [SyncResult()] *)
Definition new_SyncResult : M SyncResult :=
  now <- utcnow ;;
  ret {| routes_added := []; routes_updated := []; routes_deprecated := [];
         routes_removed := []; errors := []; synced_at := now |}.

Definition add_updated (route : Route) (r : SyncResult) : SyncResult :=
  {| routes_added := routes_added r;
     routes_updated := (routes_updated r ++ [route])%list;
     routes_deprecated := routes_deprecated r;
     routes_removed := routes_removed r;
     errors := errors r; synced_at := synced_at r |}.

Definition add_added (route : Route) (r : SyncResult) : SyncResult :=
  {| routes_added := (routes_added r ++ [route])%list;
     routes_updated := routes_updated r;
     routes_deprecated := routes_deprecated r;
     routes_removed := routes_removed r;
     errors := errors r; synced_at := synced_at r |}.

Definition extend_deprecated (l : list string) (r : SyncResult) : SyncResult :=
  {| routes_added := routes_added r;
     routes_updated := routes_updated r;
     routes_deprecated := (routes_deprecated r ++ l)%list;
     routes_removed := routes_removed r;
     errors := errors r; synced_at := synced_at r |}.

Definition extend_removed (l : list string) (r : SyncResult) : SyncResult :=
  {| routes_added := routes_added r;
     routes_updated := routes_updated r;
     routes_deprecated := routes_deprecated r;
     routes_removed := (routes_removed r ++ l)%list;
     errors := errors r; synced_at := synced_at r |}.

(** [try: body except Exception as e: raise MergerError(...) from e] *)
Definition try_merger {A : Type} (body : M A) : M A :=
  fun w =>
    match body w with
    | Return a w' => Return a w'
    | Raise e w' => Raise (MergerError e) w'
    end.

(** The loop of [merge] over the routes. *)
Definition process_route (existing_requests : index_t) (result : SyncResult)
    (route : Route) : M SyncResult :=
  match index_get (unique_id route) existing_requests with
  | Some request_item =>
      _update_request request_item route ;;;
      ret (add_updated route result)
  | None =>
      _add_request route ;;;
      ret (add_added route result)
  end.

(** [merge(collection, routes)]: the collection is the world's; the
    returned collection is the same object, [w_doc] of the final world. *)
Definition merge (routes : list Route) : M SyncResult :=
  try_merger (
    (fun w => validate_postman_collection (w_doc w) w) ;;;
    existing_requests <- _index_requests ;;
    let route_ids := map unique_id routes in
    result <- new_SyncResult ;;
    let new_routes :=
      List.filter (fun r => negb (index_mem (unique_id r) existing_requests)) routes in
    let new_routes_by_folder := _organize_by_folder new_routes in
    _ensure_folders (map fst new_routes_by_folder) ;;;
    result <- for_each routes (process_route existing_requests) result ;;
    deprecated <- _mark_deprecated existing_requests route_ids ;;
    let result := extend_deprecated deprecated result in
    removed <- _remove_old_deprecated ;;
    let result := extend_removed removed result in
    logger (InfoMergeComplete result) ;;;
    ret result).

End CollectionMerger.

(** ** A reference instance of [isoformat] and [fromisoformat]

    The merger above is parametric in the two functions. This instance
    follows CPython's [datetime] module on naive datetimes, counted in
    microseconds since 0001-01-01T00:00:00: [isoformat] prints
    [YYYY-MM-DDTHH:MM:SS[.ffffff]], and [fromisoformat] reads
    [YYYY-MM-DD[*HH[:MM[:SS[.fff[fff]]]][(+|-)HH:MM[:SS[.ffffff]]]]]. *)

Module PyDatetime.

Definition is_leap (y : Z) : bool :=
  (y mod 4 =? 0) && (negb (y mod 100 =? 0) || (y mod 400 =? 0)).

Definition days_before_year (y : Z) : Z :=
  let y := y - 1 in y * 365 + y / 4 - y / 100 + y / 400.

Definition days_in_month (y m : Z) : Z :=
  if m =? 2 then (if is_leap y then 29 else 28)
  else if (m =? 4) || (m =? 6) || (m =? 9) || (m =? 11) then 30 else 31.

Definition days_before_month_table (m : Z) : Z :=
  nth (Z.to_nat m) [0; 0; 31; 59; 90; 120; 151; 181; 212; 243; 273; 304; 334] 0.

Definition days_before_month (y m : Z) : Z :=
  days_before_month_table m + (if (2 <? m) && is_leap y then 1 else 0).

(** [_ymd2ord(y, m, d) - 1] *)
Definition ymd2days (y m d : Z) : Z :=
  days_before_year y + days_before_month y m + (d - 1).

(** [_ord2ymd(n + 1)] *)
Definition days2ymd (n : Z) : Z * Z * Z :=
  let n400 := n / 146097 in let n := n mod 146097 in
  let year := n400 * 400 + 1 in
  let n100 := n / 36524 in let n := n mod 36524 in
  let n4 := n / 1461 in let n := n mod 1461 in
  let n1 := n / 365 in let n := n mod 365 in
  let year := year + n100 * 100 + n4 * 4 + n1 in
  if (n1 =? 4) || (n100 =? 4) then (year - 1, 12, 31)
  else
    let leapyear := (n1 =? 3) && (negb (n4 =? 24) || (n100 =? 3)) in
    let month := Z.shiftr (n + 50) 5 in
    let preceding :=
      days_before_month_table month + (if (2 <? month) && leapyear then 1 else 0) in
    if n <? preceding then
      let month := month - 1 in
      let dim :=
        if (month =? 2) && leapyear then 29
        else if month =? 2 then 28
        else if (month =? 4) || (month =? 6) || (month =? 9) || (month =? 11) then 30
        else 31 in
      (year, month, n - (preceding - dim) + 1)
    else (year, month, n - preceding + 1).

Definition digit_char (d : Z) : ascii := PyStr.chr (48 + Z.to_nat d).

(** [n] in decimal on [width] digits, zero-padded. *)
Fixpoint zfill (width : nat) (n : Z) : string :=
  match width with
  | O => EmptyString
  | S w => String (digit_char ((n / 10 ^ Z.of_nat w) mod 10)) (zfill w n)
  end.

Definition isoformat (t : Z) : string :=
  let '(y, m, d) := days2ymd (t / us_per_day) in
  let r := t mod us_per_day in
  let us := r mod 1000000 in
  let s := r / 1000000 in
  zfill 4 y ++ "-" ++ zfill 2 m ++ "-" ++ zfill 2 d ++ "T"
  ++ zfill 2 (s / 3600) ++ ":" ++ zfill 2 ((s / 60) mod 60) ++ ":" ++ zfill 2 (s mod 60)
  ++ (if us =? 0 then EmptyString else "." ++ zfill 6 us).

Definition digit_val (c : ascii) : option Z :=
  if PyStr.is_digit c then Some (Z.of_nat (PyStr.code c) - 48) else None.

(** The decimal value of a string of digits. *)
Fixpoint digits_val (acc : Z) (s : string) : option Z :=
  match s with
  | EmptyString => Some acc
  | String c r =>
      match digit_val c with
      | Some d => digits_val (acc * 10 + d) r
      | None => None
      end
  end.

(** Two digits and what follows them. *)
Definition num2 (s : string) : option (Z * string) :=
  match s with
  | String a (String b r) =>
      match digit_val a, digit_val b with
      | Some x, Some y => Some (10 * x + y, r)
      | _, _ => None
      end
  | _ => None
  end.

Definition fraction (f : string) : option Z :=
  match String.length f with
  | 3%nat => Z.mul 1000 <$> digits_val 0 f
  | 6%nat => digits_val 0 f
  | _ => None
  end.

(** [HH[:MM[:SS[.fff[fff]]]]], in microseconds, with the four fields. *)
Definition parse_hh_mm_ss_ff (s : string) : option (Z * Z * Z * Z) :=
  match num2 s with
  | None => None
  | Some (hh, r) =>
      match r with
      | EmptyString => Some (hh, 0, 0, 0)
      | String c r1 =>
          if negb (Ascii.eqb c ":") then None else
          match num2 r1 with
          | None => None
          | Some (mm, r2) =>
              match r2 with
              | EmptyString => Some (hh, mm, 0, 0)
              | String c r3 =>
                  if negb (Ascii.eqb c ":") then None else
                  match num2 r3 with
                  | None => None
                  | Some (ss, r4) =>
                      match r4 with
                      | EmptyString => Some (hh, mm, ss, 0)
                      | String c f =>
                          if Ascii.eqb c "."
                          then (fun us => (hh, mm, ss, us)) <$> fraction f
                          else None
                      end
                  end
              end
          end
      end
  end.

Definition micros (f : Z * Z * Z * Z) : Z :=
  let '(hh, mm, ss, us) := f in ((hh * 60 + mm) * 60 + ss) * 1000000 + us.

(** The text before the first ['-'] or, with no ['-'], the first ['+'],
    the sign and the text after it. *)
Fixpoint cut_at (sign : ascii) (s : string) : option (string * string) :=
  match s with
  | EmptyString => None
  | String c r =>
      if Ascii.eqb c sign then Some (EmptyString, r)
      else match cut_at sign r with
           | Some (a, b) => Some (String c a, b)
           | None => None
           end
  end.

Definition parse_time (tstr : string) : iso_parse :=
  let split :=
    match cut_at "-" tstr with
    | Some (a, b) => (a, Some (-1, b))
    | None =>
        match cut_at "+" tstr with
        | Some (a, b) => (a, Some (1, b))
        | None => (tstr, None)
        end
    end in
  let '(timestr, tz) := split in
  match parse_hh_mm_ss_ff timestr with
  | None => IsoValueError
  | Some ((hh, mm, ss, us) as f) =>
      if negb ((hh <? 24) && (mm <? 60) && (ss <? 60)) then IsoValueError else
      match tz with
      | None => IsoNaive (micros f)
      | Some (sign, tzstr) =>
          let n := String.length tzstr in
          if negb ((n =? 5) || (n =? 8) || (n =? 15))%nat then IsoValueError else
          match parse_hh_mm_ss_ff tzstr with
          | None => IsoValueError
          | Some g =>
              if micros g <? us_per_day then IsoAware (micros f) (sign * micros g)
              else IsoValueError
          end
      end
  end.

Definition parse_date (dstr : string) : option Z :=
  match dstr with
  | String y1 (String y2 (String y3 (String y4 (String s1 r)))) =>
      match digits_val 0 (String y1 (String y2 (String y3 (String y4 EmptyString)))),
            num2 r with
      | Some y, Some (m, String s2 r') =>
          match num2 r' with
          | Some (d, EmptyString) =>
              if Ascii.eqb s1 "-" && Ascii.eqb s2 "-"
                 && (1 <=? y) && (1 <=? m) && (m <=? 12)
                 && (1 <=? d) && (d <=? days_in_month y m)
              then Some (ymd2days y m d)
              else None
          | _ => None
          end
      | _, _ => None
      end
  | _ => None
  end.

Definition fromisoformat (s : string) : iso_parse :=
  match parse_date (String.substring 0 10 s) with
  | None => IsoValueError
  | Some days =>
      match PyStr.drop 10 s with
      | EmptyString => IsoNaive (days * us_per_day)
      | String _ tstr =>
          match parse_time tstr with
          | IsoNaive t => IsoNaive (days * us_per_day + t)
          | IsoAware t off => IsoAware (days * us_per_day + t) off
          | IsoValueError => IsoValueError
          end
      end
  end.

End PyDatetime.

(** ** Scenario data *)

Module Scenario.

Definition merger : list Route -> M SyncResult :=
  merge PyDatetime.isoformat PyDatetime.fromisoformat 30.

Definition expiry_pass : M (list string) :=
  _remove_old_deprecated PyDatetime.fromisoformat 30.

(** 2024-01-01T00:00:00 *)
Definition new_year : Z := PyDatetime.ymd2days 2024 1 1 * us_per_day.

(** A world whose clock starts at [start] and advances by a microsecond
    per reading. *)
Definition world_at (start : Z) (items : option (list item)) : world :=
  {| w_doc := {| c_info := Some {| info_name := Some "Tracker API";
                                  info_description := None |};
                 c_item := items |};
     w_clock := fun k => Z.of_nat k + start;
     w_ticks := O;
     w_log := [] |}.

Definition auth_metadata : RouteMetadata :=
  {| file_path := "src/routes/auth.ts"; file_name := "auth.ts"; line_number := 12;
     is_protected := false; rate_limit := None; extracted_at := new_year |}.

(** POST /api/auth/token, from auth.ts, not protected. *)
Definition token_route : Route :=
  {| method := POST; path := "/auth/token"; full_path := "/api/auth/token";
     handler_name := "generateToken"; description := None; schema := None;
     metadata := Some auth_metadata |}.

Definition users_metadata : RouteMetadata :=
  {| file_path := "src/routes/users.ts"; file_name := "users.ts"; line_number := 40;
     is_protected := true; rate_limit := None; extracted_at := new_year |}.

(** DELETE /api/users/:id, from users.ts, protected. *)
Definition delete_user_route : Route :=
  {| method := DELETE; path := "/users/:id"; full_path := "/api/users/:id";
     handler_name := "deleteUser"; description := None; schema := None;
     metadata := Some users_metadata |}.

(** The world a computation ends in. *)
Definition final_world {A : Type} (o : outcome A) : world :=
  match o with Return _ w => w | Raise _ w => w end.

Definition returned {A : Type} (o : outcome A) : option A :=
  match o with Return a _ => Some a | Raise _ _ => None end.

Definition get_entry (name : string) (u : url) : item :=
  Item (Some name)
       (Some {| req_method := Some "GET"; req_header := [];
                req_url := Some u; req_description := Some "Lists the users" |})
       None None None.

(** A collection that holds GET /api/users three times: in a folder of a
    folder with a structured URL, in the outer folder with a plain one,
    and at the top level. *)
Definition nested_items : list item :=
  [ Item (Some "Users") None None None
      (Some [ Item (Some "Admin") None None None
                (Some [ get_entry "List" (UrlObject None [] (Some (PathList ["api"; "users"]))) ]);
              get_entry "List again" (UrlString "/api/users") ]);
    get_entry "List at top" (_build_url "/api/users") ].

(** A world whose clock stands still at [now]. *)
Definition frozen_world (now : Z) (items : option (list item)) : world :=
  {| w_doc := {| c_info := Some {| info_name := Some "Tracker API";
                                  info_description := None |};
                 c_item := items |};
     w_clock := fun _ => now;
     w_ticks := O;
     w_log := [] |}.

Definition users_request (desc : string) : request :=
  {| req_method := Some "DELETE"; req_header := [];
     req_url := Some (_build_url "/api/users/:id");
     req_description := Some desc |}.

(** Deprecated at 2024-01-01T00:00:00. *)
Definition deprecated_desc : string :=
  "**DEPRECATED** (as of 2024-01-01T00:00:00)" ++ PyStr.nl ++ PyStr.nl ++ "Deletes a user".

(** The tag with a date that is none, and the tag with no stamp. *)
Definition bad_date_desc : string :=
  "**DEPRECATED** (as of 2024-13-45)" ++ PyStr.nl ++ PyStr.nl ++ "Deletes a user".
Definition no_stamp_desc : string := "**DEPRECATED** since the spring release".

(** A folder "Users" that holds one entry, DELETE /api/users/:id. *)
Definition users_folder (desc : string) : list item :=
  [ Item (Some "Users") None None None
      (Some [ Item (Some "Delete Users {id}") (Some (users_request desc))
                (Some []) (Some []) None ]) ].

Definition empty_result : SyncResult :=
  {| routes_added := []; routes_updated := []; routes_deprecated := [];
     routes_removed := []; errors := []; synced_at := 0 |}.

(** What a computation returned, for one that is known to return. *)
Definition result_of {A : Type} (d : A) (o : outcome A) : A :=
  match o with Return a _ => a | Raise _ _ => d end.

Definition is_return {A : Type} (o : outcome A) : bool :=
  match o with Return _ _ => true | Raise _ _ => false end.

(** A merge of the token route a day before the entry of [users_folder
    deprecated_desc] expires, and one a day after. *)
Definition day_before : world :=
  frozen_world (new_year + (30 - 1) * us_per_day) (Some (users_folder deprecated_desc)).
Definition day_after : world :=
  frozen_world (new_year + (30 + 1) * us_per_day) (Some (users_folder deprecated_desc)).

(** A collection with the two kinds of unreadable stamp, long after any
    date they could have meant. *)
Definition unreadable : world :=
  frozen_world (new_year + 400 * us_per_day)
               (Some (users_folder bad_date_desc ++ users_folder no_stamp_desc)%list).

End Scenario.



(** ** More of utils/validators.py *)

(** [s.upper()], on the ASCII range. *)
Fixpoint upper (s : string) : string :=
  match s with
  | EmptyString => EmptyString
  | String c r => String (PyStr.upper_char c) (upper r)
  end.

(** [char in path] for a one-character string. *)
Fixpoint has_char (c : ascii) (s : string) : bool :=
  match s with
  | EmptyString => false
  | String x r => Ascii.eqb x c || has_char c r
  end.

Definition tab : ascii := PyStr.chr 9.
Definition newline : ascii := PyStr.chr 10.
Definition backslash : string := String (PyStr.chr 92) EmptyString.

Definition validate_route_path (path : string) : M unit :=
  if PyStr.is_empty path then raise (ValidationError "Route path cannot be empty")
  else if negb (PyStr.startswith "/" path)
  then raise (ValidationError ("Route path must start with '/': " ++ path))
  else
    (* for char in [' ', '\t', '\n']: ... repr(char) *)
    for_each [(" "%char, "' '"); (tab, "'" ++ backslash ++ "t'");
              (newline, "'" ++ backslash ++ "n'")]
      (fun _ '(char, repr) =>
         if has_char char path
         then raise (ValidationError ("Route path contains invalid character: " ++ repr))
         else ret tt) tt.

Definition valid_methods : list string :=
  ["GET"; "POST"; "PUT"; "PATCH"; "DELETE"; "OPTIONS"; "HEAD"].

Definition validate_http_method (method : string) : M unit :=
  if str_mem (upper method) valid_methods then ret tt
  else raise (ValidationError ("Invalid HTTP method: " ++ method ++ ". "
                               ++ "Must be one of: " ++ PyStr.join ", " valid_methods)).

(** [validate_json_schema]: the schema is [None] or an object, so the
    [isinstance] check cannot fail here. *)
Definition validate_json_schema (schema : option json_object) : M unit :=
  match schema with
  | None => ret tt
  | Some sc =>
      if existsb (fun kv => String.eqb (fst kv) "type") sc then ret tt
      else raise (ValidationError "JSON schema missing 'type' field")
  end.

(** ** [SyncResult.summary] *)

(** [str(n)] for a length. *)
Definition str_of_nat (n : nat) : string := NilZero.string_of_uint (Nat.to_uint n).

Definition summary (r : SyncResult) : string :=
  let lines : list string := [] in
  let lines :=
    if nonempty (routes_added r)
    then (lines ++ [("  âœ… Added: " ++ str_of_nat (length (routes_added r)) ++ " routes")%string])%list
    else lines in
  let lines :=
    if nonempty (routes_updated r)
    then (lines ++ [("  ğŸ”„ Updated: " ++ str_of_nat (length (routes_updated r)) ++ " routes")%string])%list
    else lines in
  let lines :=
    if nonempty (routes_deprecated r)
    then (lines ++ [("  âš ï¸  Deprecated: " ++ str_of_nat (length (routes_deprecated r)) ++ " routes")%string])%list
    else lines in
  let lines :=
    if nonempty (routes_removed r)
    then (lines ++ [("  ğŸ—‘ï¸  Removed: " ++ str_of_nat (length (routes_removed r)) ++ " routes")%string])%list
    else lines in
  let lines :=
    if nonempty (errors r)
    then (lines ++ [("  âŒ Errors: " ++ str_of_nat (length (errors r)))%string])%list
    else lines in
  if nonempty lines then PyStr.join PyStr.nl lines else "  No changes".

(** ** sync/engine.py *)

(** [SyncEngine.run_sync], with what it calls outside the package taken as
    given: the parser, the file system, the Postman API and git are an
    [Environment] that says what each call returns or raises. The calls
    that change something outside are recorded in the order they are made.
    The log lines of the engine are left out. *)

Module SyncEngine.

(** The exceptions that can reach [run_sync]. [CoreError] carries an
    exception of the classes the merger and the validators raise. *)
Inductive py_exn : Type :=
| ParserError (msg : string)
| CoreError (e : exn)
| SyncError (msg : string)
| PostmanAPIError (msg : string)
| GitStageError (msg : string)
| OtherException (msg : string)
| KeyboardInterrupt
| SystemExit (msg : string).

(** [str(e)] *)
Fixpoint exn_str (e : exn) : string :=
  match e with
  | ValidationError msg => msg
  | KeyError key => "'" ++ key ++ "'"
  | TypeError msg => msg
  | OverflowError msg => msg
  | MergerError cause => "Failed to merge collection: " ++ exn_str cause
  end.

Definition py_str (e : py_exn) : string :=
  match e with
  | ParserError msg => msg
  | CoreError e => exn_str e
  | SyncError msg => msg
  | PostmanAPIError msg => msg
  | GitStageError msg => msg
  | OtherException msg => msg
  | KeyboardInterrupt => EmptyString
  | SystemExit msg => msg
  end.

(** [isinstance(e, (ParserError, MergerError, ValidationError))] *)
Definition is_sync_failure (e : py_exn) : bool :=
  match e with
  | ParserError _ => true
  | CoreError (MergerError _) => true
  | CoreError (ValidationError _) => true
  | _ => false
  end.

(** [isinstance(e, Exception)] *)
Definition is_Exception (e : py_exn) : bool :=
  match e with
  | KeyboardInterrupt => false
  | SystemExit _ => false
  | _ => true
  end.

(** The attributes of [Config] that [run_sync] reads. *)
Record Config : Type := {
  postman_collection_id : string;
  routes_directory : string;
  collection_file : string;
  deprecation_days : Z;
  auto_stage : bool;
  fail_on_error : bool
}.

(** What the world outside does when [run_sync] calls it. *)
Record Environment : Type := {
  (** [self.parser.parse_directory(self.config.routes_directory)] *)
  parse_directory : py_exn + list Route;
  (** [self.config.collection_file.exists()] *)
  collection_file_exists : bool;
  (** [open(...)] and [json.load(f)] *)
  load_collection : py_exn + collection;
  (** what [_write_collection] raises, if anything *)
  write_collection_raises : option py_exn;
  (** what [self.api_client.update_collection] raises, if anything *)
  update_collection_raises : option py_exn;
  (** what [self.git_manager.stage_files] raises, if anything *)
  stage_files_raises : option py_exn
}.

(** The calls that change something outside. *)
Inductive call : Type :=
| WriteCollection (path : string) (c : collection)
| UpdateCollection (collection_id : string) (c : collection)
| StageFiles (paths : list string).

Record state : Type := {
  clock : nat -> Z;
  ticks : nat;
  calls : list call
}.

Inductive result (A : Type) : Type :=
| Returns (a : A) (s : state)
| Raises (e : py_exn) (s : state).
Arguments Returns {A} a s.
Arguments Raises {A} e s.

Definition E (A : Type) : Type := state -> result A.

Definition pure {A : Type} (a : A) : E A := fun s => Returns a s.

Definition raising {A : Type} (e : py_exn) : E A := fun s => Raises e s.

Definition and_then {A B : Type} (m : E A) (k : A -> E B) : E B :=
  fun s =>
    match m s with
    | Returns a s' => k a s'
    | Raises e s' => Raises e s'
    end.

(** [try: body except ...: handler]: [handler e] is [None] when no clause
    matches [e]. *)
Definition try_except {A : Type} (body : E A) (handler : py_exn -> option (E A)) : E A :=
  fun s =>
    match body s with
    | Returns a s' => Returns a s'
    | Raises e s' =>
        match handler e with
        | Some h => h s'
        | None => Raises e s'
        end
    end.

(** A call that reads from outside. *)
Definition reading {A : Type} (r : py_exn + A) : E A :=
  fun s => match r with inl e => Raises e s | inr a => Returns a s end.

(** A call that changes something outside: it is recorded, and raises
    what the environment says. *)
Definition calling (c : call) (raises : option py_exn) : E unit :=
  fun s =>
    let s' := {| clock := clock s; ticks := ticks s; calls := (calls s ++ [c])%list |} in
    match raises with
    | Some e => Raises e s'
    | None => Returns tt s'
    end.

(** [SyncResult(errors=errors)] *)
Definition new_result (errors : list string) : E SyncResult :=
  fun s =>
    Returns {| routes_added := []; routes_updated := []; routes_deprecated := [];
               routes_removed := []; errors := errors; synced_at := clock s (ticks s) |}
            {| clock := clock s; ticks := S (ticks s); calls := calls s |}.

(** [result.errors.append(error_msg)] *)
Definition append_error (error_msg : string) (r : SyncResult) : SyncResult :=
  {| routes_added := routes_added r;
     routes_updated := routes_updated r;
     routes_deprecated := routes_deprecated r;
     routes_removed := routes_removed r;
     errors := (errors r ++ [error_msg])%list;
     synced_at := synced_at r |}.

Section RunSync.

Variable isoformat : Z -> string.
Variable fromisoformat : string -> iso_parse.

(** [self.merger.merge(local_collection, routes)]: the merger runs on the
    loaded collection with the clock of the engine. *)
Definition merging (config : Config) (local_collection : collection)
    (routes : list Route) : E (collection * SyncResult) :=
  fun s =>
    match merge isoformat fromisoformat (deprecation_days config) routes
                {| w_doc := local_collection; w_clock := clock s;
                   w_ticks := ticks s; w_log := [] |} with
    | Return res w' =>
        Returns (w_doc w', res) {| clock := clock s; ticks := w_ticks w'; calls := calls s |}
    | Raise e w' =>
        Raises (CoreError e) {| clock := clock s; ticks := w_ticks w'; calls := calls s |}
    end.

(** [if self.config.fail_on_error: raise SyncError(error_msg) from e] and
    [return SyncResult(errors=[error_msg])] *)
Definition report_failure (config : Config) (error_msg : string) : E SyncResult :=
  if fail_on_error config then raising (SyncError error_msg)
  else new_result [error_msg].

Definition run_sync (config : Config) (env : Environment) : E SyncResult :=
  try_except
    (* Step 1: Parse routes *)
    (and_then (reading (parse_directory env)) (fun routes =>
     if negb (nonempty routes) then new_result ["No routes found"]
     else
     (* Step 2: Load local collection *)
     and_then (if collection_file_exists env then pure tt
               else raising (SyncError ("Collection file not found: "
                                        ++ collection_file config))) (fun _ =>
     and_then (reading (load_collection env)) (fun local_collection =>
     (* Step 3: Merge *)
     and_then (merging config local_collection routes) (fun merged =>
     let '(updated_collection, result) := merged in
     if negb (has_changes result) then pure result
     else
     (* Step 4: Write local JSON *)
     and_then (calling (WriteCollection (collection_file config) updated_collection)
                       (write_collection_raises env)) (fun _ =>
     (* Step 5: Sync to Postman *)
     and_then
       (if negb (PyStr.is_empty (postman_collection_id config))
        then
          try_except
            (and_then (calling (UpdateCollection (postman_collection_id config)
                                                 updated_collection)
                               (update_collection_raises env)) (fun _ =>
             pure result))
            (fun e =>
               match e with
               | PostmanAPIError _ =>
                   let error_msg := "Postman API error: " ++ py_str e in
                   Some (if fail_on_error config then raising (SyncError error_msg)
                         else pure (append_error error_msg result))
               | _ => None
               end)
        else pure result) (fun result =>
     (* Step 6: Auto-stage *)
     if auto_stage config
     then
       try_except
         (and_then (calling (StageFiles [collection_file config])
                            (stage_files_raises env)) (fun _ =>
          pure result))
         (fun e =>
            match e with
            | GitStageError _ =>
                let error_msg := "Git staging error: " ++ py_str e in
                Some (if fail_on_error config then raising (SyncError error_msg)
                      else pure (append_error error_msg result))
            | _ => None
            end)
     else pure result)))))))
    (fun e =>
       if is_sync_failure e then Some (report_failure config ("Sync failed: " ++ py_str e))
       else if is_Exception e
       then Some (report_failure config ("Unexpected error during sync: " ++ py_str e))
       else None).

End RunSync.

End SyncEngine.
(** ** Vocabulary of the statements *)

(** The identity the indexer computes for a request, when it has a method. *)
Definition unique_id_of (rq : request) : option string :=
  (fun method => method ++ ":" ++ _extract_path (default empty_url (req_url rq)))
    <$> req_method rq.

(** The items of the collection in a world. *)
Definition items_in (w : world) : list item := default [] (c_item (w_doc w)).

(** [entry_at p rq items]: the path [p] leads, through folders that are not
    themselves requests, to an item whose request is [rq]. *)
Fixpoint entry_at (p : path_ref) (rq : request) (items : list item) : Prop :=
  match p with
  | [] => False
  | i :: q =>
      match items !! i with
      | None => False
      | Some it =>
          match q with
          | [] => it_request it = Some rq
          | _ :: _ =>
              it_request it = None /\
              match it_item it with
              | Some children => entry_at q rq children
              | None => False
              end
          end
      end
  end.

(** The requests of an item in depth-first order, the item's own first,
    each with its path from the item ([[]] for the item itself). *)
Fixpoint entries_of (it : item) : list (path_ref * request) :=
  (match it_request it with Some rq => [([], rq)] | None => [] end ++
   match it with
   | Item _ _ _ _ (Some children) =>
       (fix entries_children (i : nat) (l : list item) : list (path_ref * request) :=
          match l with
          | [] => []
          | x :: l' =>
              map (fun e => (i :: fst e, snd e)) (entries_of x) ++ entries_children (S i) l'
          end) O children
   | Item _ _ _ _ None => []
   end)%list.

(** The requests of an array of items, the first of which has index [i]. *)
Fixpoint entries_from (i : nat) (items : list item) : list (path_ref * request) :=
  match items with
  | [] => []
  | x :: l' =>
      (map (fun e => (i :: fst e, snd e)) (entries_of x) ++ entries_from (S i) l')%list
  end.

(** The request of [e] has the identity [uid]. *)
Definition has_uid (uid : string) (e : path_ref * request) : bool :=
  match unique_id_of (snd e) with
  | Some u => String.eqb u uid
  | None => false
  end.

(** The path of the first request, in depth-first order, whose identity is
    [uid]. *)
Definition first_entry (uid : string) (es : list (path_ref * request)) : option path_ref :=
  fst <$> List.find (has_uid uid) es.

(** Every clock reading of a run started in [w] falls in the day that
    begins at [t]. *)
Definition runs_on_day (w : world) (t : Z) : Prop :=
  forall k, t <= w_clock w k < t + us_per_day.

(** Only the log differs between the two worlds. *)
Definition same_heap (w w' : world) : Prop :=
  w_doc w' = w_doc w /\ w_clock w' = w_clock w /\ w_ticks w' = w_ticks w.

(** [if unique_id not in index: index[unique_id] = item] for one request. *)
Definition index_add (index : index_t) (e : path_ref * request) : index_t :=
  match unique_id_of (snd e) with
  | Some u => if index_mem u index then index else (index ++ [(u, fst e)])%list
  | None => index
  end.

(** The index after the requests [es], met in that order. *)
Definition index_fold (index : index_t) (es : list (path_ref * request)) : index_t :=
  fold_left index_add es index.

(** Every request has the key [method]. *)
Definition methods_ok (es : list (path_ref * request)) : bool :=
  forallb (fun e => bool_decide (is_Some (req_method (snd e)))) es.

(** The request [e] of an item, seen from above the item at [ref]. *)
Definition under (ref : path_ref) (e : path_ref * request) : path_ref * request :=
  ((ref ++ fst e)%list, snd e).

(** The index [_index_requests] returns. *)
Definition index_of (items : list item) : index_t :=
  index_fold [] (entries_from O items).


(** What [fromisoformat] makes of the stamp of a request, when its
    description carries the tag and a stamp. *)
Definition stamp_of (fromisoformat : string -> iso_parse) (rq : request) : option iso_parse :=
  let desc := default EmptyString (req_description rq) in
  if PyStr.contains deprecated_tag desc then fromisoformat <$> search_as_of desc else None.

(** The request carries a naive date before the cutoff. *)
Definition stale_request (fromisoformat : string -> iso_parse) (cutoff_date : Z)
    (rq : request) : bool :=
  match stamp_of fromisoformat rq with
  | Some (IsoNaive dep_date) => dep_date <? cutoff_date
  | _ => false
  end.

(** The item is a request that carries a naive date before the cutoff. *)
Definition stale_item (fromisoformat : string -> iso_parse) (cutoff_date : Z)
    (it : item) : bool :=
  match it_request it with
  | Some rq => stale_request fromisoformat cutoff_date rq
  | None => false
  end.

(** The requests of an array of items, at any depth. *)
Definition requests_in (items : list item) : list request :=
  flat_map (fun x => map snd (entries_of x)) items.

(** No request at any depth is stale. *)
Definition no_stale_request (fromisoformat : string -> iso_parse) (cutoff_date : Z)
    (items : list item) : Prop :=
  Forall (fun rq => stale_request fromisoformat cutoff_date rq = false) (requests_in items).

(** The entry at [p], with request [rq], that a run leaves in place, and
    the clock the run reads. *)
Definition stays (p : path_ref) (rq : request) (clock : nat -> Z) (w : world) : Prop :=
  w_clock w = clock /\ entry_at p rq (items_in w).

(** Every character of [s] satisfies [p]. *)
Fixpoint all_chars (p : ascii -> bool) (s : string) : bool :=
  match s with
  | EmptyString => true
  | String c r => p c && all_chars p r
  end.

(** The deprecation marker with the stamp [stamp], as [_mark_deprecated]
    writes it. *)
Definition deprecation_marker (stamp : string) : string :=
  deprecated_tag ++ " (as of " ++ stamp ++ ")".

(** The description of the request starts with the deprecation marker of
    that stamp. *)
Definition marked_since (stamp : string) (rq : request) : Prop :=
  exists rest, req_description rq = Some (deprecation_marker stamp ++ rest).

(** The entry at [p], whose request satisfies [P], that a run keeps at [p],
    and the clock the run reads. *)
Definition tracks (p : path_ref) (P : request -> Prop) (clock : nat -> Z) (w : world) : Prop :=
  w_clock w = clock /\ exists rq, entry_at p rq (items_in w) /\ P rq.

(** [rq'] is the request [rq] as a run over [routes] may have left it:
    [rq] itself, or a request whose method and URL a route with the
    identity of [rq] has written. *)
Definition synced_from (routes : list Route) (rq rq' : request) : Prop :=
  rq' = rq
  \/ exists r, In r routes /\ unique_id_of rq = Some (unique_id r)
               /\ req_method rq' = Some (method_value (method r))
               /\ req_url rq' = Some (_build_url (full_path r)).

(** ** Vocabulary of the further properties *)

(** The expiry pass as a function of the tree: the item without the stale
    requests below it, [None] when the item is a stale request itself. *)
Fixpoint sweep_item (fromisoformat : string -> iso_parse) (cutoff_date : Z)
    (it : item) : option item :=
  if stale_item fromisoformat cutoff_date it then None
  else
    match it with
    | Item n rq ev rs (Some children) =>
        Some (Item n rq ev rs
                (Some ((fix sweep_children (l : list item) : list item :=
                          match l with
                          | [] => []
                          | x :: l' =>
                              match sweep_item fromisoformat cutoff_date x with
                              | Some x' => x' :: sweep_children l'
                              | None => sweep_children l'
                              end
                          end) children)))
    | Item _ _ _ _ None => Some it
    end.

Fixpoint sweep_items (fromisoformat : string -> iso_parse) (cutoff_date : Z)
    (items : list item) : list item :=
  match items with
  | [] => []
  | x :: l' =>
      match sweep_item fromisoformat cutoff_date x with
      | Some x' => x' :: sweep_items fromisoformat cutoff_date l'
      | None => sweep_items fromisoformat cutoff_date l'
      end
  end.

(** The identities of the requests the sweep drops, in the order it meets
    them: a stale request is dropped with all that is below it. *)
Fixpoint swept_ids (fromisoformat : string -> iso_parse) (cutoff_date : Z)
    (it : item) : list string :=
  if stale_item fromisoformat cutoff_date it
  then match it_request it ≫= unique_id_of with
       | Some uid => [uid]
       | None => []
       end
  else
    match it with
    | Item _ _ _ _ (Some children) =>
        (fix swept_children (l : list item) : list string :=
           match l with
           | [] => []
           | x :: l' => (swept_ids fromisoformat cutoff_date x ++ swept_children l')%list
           end) children
    | Item _ _ _ _ None => []
    end.

Definition swept_ids_of (fromisoformat : string -> iso_parse) (cutoff_date : Z)
    (items : list item) : list string :=
  flat_map (swept_ids fromisoformat cutoff_date) items.

(** What the expiry pass needs of a request to get past it: a stamp that
    does not read as an aware date, and the key [method] when the stamp is
    stale. *)
Definition sweepable (fromisoformat : string -> iso_parse) (cutoff_date : Z)
    (rq : request) : Prop :=
  (forall t off, stamp_of fromisoformat rq <> Some (IsoAware t off))
  /\ (stale_request fromisoformat cutoff_date rq = true -> is_Some (req_method rq)).

(** What a run of the expiry pass leaves alone while it drops the requests
    with the identities [r]: the clock, the info of the document, and the
    log but for a record per dropped request. *)
Definition sweep_frame (r : list string) (w w' : world) : Prop :=
  w_clock w' = w_clock w /\ w_ticks w' = w_ticks w
  /\ c_info (w_doc w') = c_info (w_doc w)
  /\ w_log w' = (w_log w ++ map DebugRemovedOldDeprecated r)%list.

(** The request [rq] with the deprecation marker of the date [now] put
    before its description, as [_mark_deprecated] writes it. *)
Definition marked_request (isoformat : Z -> string) (now : Z) (rq : request) : request :=
  {| req_method := req_method rq;
     req_header := req_header rq;
     req_url := req_url rq;
     req_description :=
       Some (deprecation_marker (isoformat now) ++ PyStr.nl ++ PyStr.nl
             ++ default EmptyString (req_description rq)) |}.

(** ** More scenario data *)

Module Fixture.

(** A request that has lost its [method] key. *)
Definition no_method_request : request :=
  {| req_method := None; req_header := [];
     req_url := Some (_build_url "/api/users"); req_description := Some "Lists the users" |}.

Definition no_method_items : list item :=
  [ Item (Some "Users") None None None
      (Some [ Item (Some "List Users") (Some no_method_request) None None None ]) ].

(** A folder that has lost its [name] key, after a well-formed one. *)
Definition unnamed_folder_items : list item :=
  (Scenario.users_folder "Deletes a user" ++ [ Item None None None None (Some []) ])%list.

(** Deprecated at 2024-01-01T00:00:00, five hours behind UTC. *)
Definition offset_desc : string :=
  "**DEPRECATED** (as of 2024-01-01T00:00:00-05:00)" ++ PyStr.nl ++ PyStr.nl
  ++ "Deletes a user".


End Fixture.

(** The names [_ensure_folders] takes for the existing folders: those of
    the top-level items that have the key [item]. *)
Definition folder_names_of (items : list item) : list string :=
  flat_map (fun it => match it_item it, it_name it with
                      | Some _, Some name => [name]
                      | _, _ => []
                      end) items.

(** The text is ASCII: every character is below 128. *)
Definition is_ascii_text (s : string) : bool :=
  all_chars (fun c => (PyStr.code c <? 128)%nat) s.

(** The state a run of the engine ends in. *)
Definition state_of {A : Type} (r : SyncEngine.result A) : SyncEngine.state :=
  match r with
  | SyncEngine.Returns _ s => s
  | SyncEngine.Raises _ s => s
  end.

(** The world [run_sync] hands to the merger. *)
Definition merge_world (local_collection : collection) (s : SyncEngine.state) : world :=
  {| w_doc := local_collection; w_clock := SyncEngine.clock s;
     w_ticks := SyncEngine.ticks s; w_log := [] |}.

(** [run_sync] gets as far as calling the API: the write did not raise and
    a collection id is configured. *)
Definition update_attempted (config : SyncEngine.Config) (env : SyncEngine.Environment)
    : bool :=
  match SyncEngine.write_collection_raises env with
  | None => negb (PyStr.is_empty (SyncEngine.postman_collection_id config))
  | Some _ => false
  end.

(** [run_sync] gets as far as staging the file: staging is configured, the
    write did not raise, and the API call was not made, did not raise, or
    raised a [PostmanAPIError] with [fail_on_error] unset. *)
Definition stage_attempted (config : SyncEngine.Config) (env : SyncEngine.Environment)
    : bool :=
  match SyncEngine.write_collection_raises env with
  | None =>
      SyncEngine.auto_stage config
      && (PyStr.is_empty (SyncEngine.postman_collection_id config)
          || match SyncEngine.update_collection_raises env with
             | None => true
             | Some (SyncEngine.PostmanAPIError _) => negb (SyncEngine.fail_on_error config)
             | Some _ => false
             end)
  | Some _ => false
  end.

(** ** Scenario data for the engine *)

Module EngineFixture.

Definition config (fail_on_error : bool) : SyncEngine.Config :=
  {| SyncEngine.postman_collection_id := "12345678-tracker";
     SyncEngine.routes_directory := "src/routes";
     SyncEngine.collection_file := "postman/tracker-backend-api.postman_collection.json";
     SyncEngine.deprecation_days := 30;
     SyncEngine.auto_stage := true;
     SyncEngine.fail_on_error := fail_on_error |}.

Definition local_collection : collection :=
  {| c_info := Some {| info_name := Some "Tracker API"; info_description := None |};
     c_item := Some (Scenario.users_folder "Deletes a user") |}.

(** One route parsed, the file in place, and an API that answers 500. *)
Definition api_down : SyncEngine.Environment :=
  {| SyncEngine.parse_directory := inr [Scenario.token_route];
     SyncEngine.collection_file_exists := true;
     SyncEngine.load_collection := inr local_collection;
     SyncEngine.write_collection_raises := None;
     SyncEngine.update_collection_raises :=
       Some (SyncEngine.PostmanAPIError "HTTP 500: Internal Server Error");
     SyncEngine.stage_files_raises := None |}.

(** The same with an API that answers. *)
Definition all_up : SyncEngine.Environment :=
  {| SyncEngine.parse_directory := inr [Scenario.token_route];
     SyncEngine.collection_file_exists := true;
     SyncEngine.load_collection := inr local_collection;
     SyncEngine.write_collection_raises := None;
     SyncEngine.update_collection_raises := None;
     SyncEngine.stage_files_raises := None |}.

(** A collection file that holds a request without a method. *)
Definition broken_file : SyncEngine.Environment :=
  {| SyncEngine.parse_directory := inr [Scenario.token_route];
     SyncEngine.collection_file_exists := true;
     SyncEngine.load_collection :=
       inr {| c_info := Some {| info_name := Some "Tracker API"; info_description := None |};
              c_item := Some Fixture.no_method_items |};
     SyncEngine.write_collection_raises := None;
     SyncEngine.update_collection_raises := None;
     SyncEngine.stage_files_raises := None |}.

Definition start : SyncEngine.state :=
  {| SyncEngine.clock := fun _ => Scenario.new_year;
     SyncEngine.ticks := O;
     SyncEngine.calls := [] |}.

(** The merge [run_sync] makes in these scenarios. *)
Definition merged (fail_on_error : bool) : outcome SyncResult :=
  merge PyDatetime.isoformat PyDatetime.fromisoformat
        (SyncEngine.deprecation_days (config fail_on_error)) [Scenario.token_route]
        (merge_world local_collection start).

End EngineFixture.
(** * Properties *)

(** ** The monad *)

Lemma bind_Return {A B : Type} (m : M A) (k : A -> M B) (w w2 : world) (b : B) :
  bind m k w = Return b w2 ->
  exists a w1, m w = Return a w1 /\ k a w1 = Return b w2.
Proof.
  unfold bind. destruct (m w) as [a w1|e w1]; [eauto | discriminate].
Qed.

Lemma bind_Return_intro {A B : Type} (m : M A) (k : A -> M B) (w w1 : world) (a : A) :
  m w = Return a w1 -> bind m k w = k a w1.
Proof. unfold bind. intros ->. reflexivity. Qed.

Lemma bind_Raise_intro {A B : Type} (m : M A) (k : A -> M B) (w w1 : world) (e : exn) :
  m w = Raise e w1 -> bind m k w = Raise e w1.
Proof. unfold bind. intros ->. reflexivity. Qed.

(** Split a successful [bind] hypothesis into its two runs. *)
Ltac inv_bind H :=
  let a := fresh "a" in
  let w := fresh "w" in
  let Hm := fresh "Hm" in
  apply bind_Return in H as (a & w & Hm & H).

Tactic Notation "inv_bind" hyp(H) "as" ident(a) ident(w) ident(Hm) :=
  apply bind_Return in H as (a & w & Hm & H).

Ltac inv_ret H :=
  unfold ret in H; injection H as <- <-.

(** Read a [Return _ _ = Return _ _] hypothesis and substitute. *)
Ltac inv_Return H := inversion H; clear H; subst.

(** Reduce the [option] combinators and nothing else. *)
Ltac simpl_opt :=
  cbn [fmap option_fmap option_map mbind option_bind default from_option] in *.

(** ** Validation *)

(** C6. A document without [info], without [item], or whose [info] has no
    [name] makes [merge] raise at once: the [ValidationError] reaches the
    caller wrapped in [MergerError], and the world at the raise is the
    world [merge] was called in: nothing was mutated (or logged, or read
    from the clock). *)
Theorem merge_malformed_document
    (isoformat : Z -> string) (fromisoformat : string -> iso_parse)
    (deprecation_days : Z) (routes : list Route) (w : world) :
  c_info (w_doc w) = None
  \/ c_item (w_doc w) = None
  \/ (exists info, c_info (w_doc w) = Some info /\ info_name info = None) ->
  exists msg,
    merge isoformat fromisoformat deprecation_days routes w
    = Raise (MergerError (ValidationError msg)) w.
Proof.
  intros H. unfold merge, try_merger, bind at 1, validate_postman_collection.
  destruct (c_info (w_doc w)) as [info|] eqn:Hinfo.
  - destruct (c_item (w_doc w)) as [items|] eqn:Hitem.
    + destruct H as [H|[H|(info' & Hi & Hn)]]; try discriminate.
      injection Hi as <-. rewrite Hn. eexists; reflexivity.
    + eexists; reflexivity.
  - eexists; reflexivity.
Qed.

Lemma merge_malformed_document_witness :
  exists msg,
    Scenario.merger [Scenario.token_route]
      {| w_doc := {| c_info := None; c_item := Some [] |};
         w_clock := fun _ => Scenario.new_year; w_ticks := O; w_log := [] |}
    = Raise (MergerError (ValidationError msg))
        {| w_doc := {| c_info := None; c_item := Some [] |};
           w_clock := fun _ => Scenario.new_year; w_ticks := O; w_log := [] |}.
Proof.
  apply (merge_malformed_document PyDatetime.isoformat PyDatetime.fromisoformat 30).
  left. reflexivity.
Defined.


(** ** Induction on the collection tree *)

Lemma item_ind' (P : item -> Prop) :
  (forall n rq ev rs, P (Item n rq ev rs None)) ->
  (forall n rq ev rs children, Forall P children -> P (Item n rq ev rs (Some children))) ->
  forall it, P it.
Proof.
  intros Hleaf Hnode. fix IH 1. intros [n rq ev rs [children|]].
  - apply Hnode. induction children as [|x l IHl]; constructor; [apply IH | exact IHl].
  - apply Hleaf.
Qed.

(** ** What a computation leaves alone *)

Lemma same_heap_refl w : same_heap w w.
Proof. repeat split. Qed.

Lemma same_heap_trans w1 w2 w3 : same_heap w1 w2 -> same_heap w2 w3 -> same_heap w1 w3.
Proof. unfold same_heap. intros (-> & -> & ->) (-> & -> & ->). repeat split. Qed.

Lemma logger_same_heap r w : exists w', logger r w = Return tt w' /\ same_heap w w'.
Proof. eexists. split; [reflexivity|]. repeat split. Qed.

Lemma request_unique_id_run rq w :
  request_unique_id rq w =
  match unique_id_of rq with
  | Some u => Return u w
  | None => Raise (KeyError "method") w
  end.
Proof.
  unfold request_unique_id, unique_id_of, bind, subscript.
  destruct (req_method rq); reflexivity.
Qed.

(** ** The indexer *)

Lemma methods_ok_app es1 es2 : methods_ok (es1 ++ es2) = methods_ok es1 && methods_ok es2.
Proof. apply forallb_app. Qed.

Lemma methods_ok_map (f : path_ref -> path_ref) es :
  methods_ok (map (fun e => (f (fst e), snd e)) es) = methods_ok es.
Proof. induction es as [|e es IH]; simpl; [reflexivity|]. rewrite IH. reflexivity. Qed.

Lemma index_fold_app index es1 es2 :
  index_fold index (es1 ++ es2) = index_fold (index_fold index es1) es2.
Proof. apply fold_left_app. Qed.

Lemma index_one_spec ref it index w :
  exists w', same_heap w w' /\
    index_one ref it index w =
    match it_request it with
    | None => Return index w'
    | Some rq =>
        match unique_id_of rq with
        | Some _ => Return (index_add index (ref, rq)) w'
        | None => Raise (KeyError "method") w'
        end
    end.
Proof.
  unfold index_one. destruct (it_request it) as [rq|].
  - unfold bind. rewrite request_unique_id_run. unfold index_add. simpl.
    destruct (unique_id_of rq) as [u|].
    + destruct (index_mem u index).
      * eexists. split; [|reflexivity]. repeat split.
      * exists w. split; [apply same_heap_refl | reflexivity].
    + exists w. split; [apply same_heap_refl | reflexivity].
  - exists w. split; [apply same_heap_refl | reflexivity].
Qed.

Lemma entries_of_unfold it :
  entries_of it =
  (match it_request it with Some rq => [([], rq)] | None => [] end ++
   match it_item it with
   | Some children => entries_from O children
   | None => []
   end)%list.
Proof.
  destruct it as [n rq ev rs [children|]]; reflexivity.
Qed.

Lemma index_item_unfold ref it index w :
  index_item ref it index w =
  (index <- index_one ref it index ;;
   match it_item it with
   | Some children => index_items ref O children index
   | None => ret index
   end) w.
Proof.
  destruct it as [n rq ev rs [children|]]; simpl; [|reflexivity].
  unfold bind. destruct (index_one _ _ _ w) as [idx w1|e w1]; [|reflexivity].
  generalize O idx w1.
  induction children as [|x l IH]; intros i idx' w'; simpl; [reflexivity|].
  unfold bind. destruct (index_item _ x idx' w'); [apply IH | reflexivity].
Qed.

Lemma entries_from_methods_ok i items :
  methods_ok (entries_from i items) = forallb (fun it => methods_ok (entries_of it)) items.
Proof.
  revert i. induction items as [|x l IH]; intros i; simpl; [reflexivity|].
  rewrite methods_ok_app, methods_ok_map, IH. reflexivity.
Qed.

Lemma under_prepend ref i es :
  map (under (ref ++ [i])%list) es = map (under ref) (map (fun e => (i :: fst e, snd e)) es).
Proof.
  rewrite map_map. apply map_ext. intros [q rq]. unfold under. simpl.
  rewrite <- app_assoc. reflexivity.
Qed.

(** [index_item] returns the index extended, first match wins, with the
    requests of the item in depth-first order, or raises on the first
    request that has no method; it leaves the collection alone. *)
Lemma index_item_spec it : forall ref index w,
  exists w', same_heap w w' /\
    index_item ref it index w =
    (if methods_ok (entries_of it)
     then Return (index_fold index (map (under ref) (entries_of it))) w'
     else Raise (KeyError "method") w').
Proof.
  induction it as [n rq ev rs|n rq ev rs children IH] using item_ind'; intros ref index w.
  - rewrite index_item_unfold, entries_of_unfold. simpl it_item. simpl it_request.
    rewrite app_nil_r. unfold bind.
    destruct (index_one_spec ref (Item n rq ev rs None) index w) as (w1 & Hh & ->).
    simpl it_request. exists w1. split; [exact Hh|].
    destruct rq as [rq|]; simpl; [|reflexivity].
    unfold index_add, under. simpl. rewrite app_nil_r.
    destruct (unique_id_of rq) as [u|] eqn:Hu.
    + unfold unique_id_of in Hu. destruct (req_method rq); [|discriminate]. simpl.
      reflexivity.
    + unfold unique_id_of in Hu. destruct (req_method rq); [discriminate|]. simpl.
      reflexivity.
  - rewrite index_item_unfold, entries_of_unfold. simpl it_item. simpl it_request.
    unfold bind.
    destruct (index_one_spec ref (Item n rq ev rs (Some children)) index w) as (w1 & Hh & ->).
    simpl it_request.
    (* the children, from any position *)
    assert (Hch : forall i idx w0,
      exists w', same_heap w0 w' /\
        index_items ref i children idx w0 =
        (if methods_ok (entries_from i children)
         then Return (index_fold idx (map (under ref) (entries_from i children))) w'
         else Raise (KeyError "method") w')).
    { clear Hh. induction IH as [|x l Hx _ IHl]; intros i idx w0.
      - exists w0. split; [apply same_heap_refl | reflexivity].
      - simpl. unfold bind. destruct (Hx (ref ++ [i])%list idx w0) as (w2 & H2 & ->).
        rewrite methods_ok_app, methods_ok_map.
        destruct (methods_ok (entries_of x)); simpl.
        + destruct (IHl (S i) (index_fold idx (map (under (ref ++ [i])%list) (entries_of x))) w2)
            as (w3 & H3 & ->).
          exists w3. split; [eapply same_heap_trans; eassumption|].
          destruct (methods_ok (entries_from (S i) l)); [|reflexivity].
          rewrite map_app, index_fold_app, under_prepend. reflexivity.
        + exists w2. split; [exact H2 | reflexivity]. }
    destruct rq as [rq|].
    + destruct (unique_id_of rq) as [u|] eqn:Hu.
      * destruct (Hch O (index_add index (ref, rq)) w1) as (w2 & H2 & ->).
        exists w2. split; [eapply same_heap_trans; eassumption|].
        simpl. unfold unique_id_of in Hu.
        destruct (req_method rq) eqn:Hm; [|discriminate]. simpl.
        destruct (methods_ok (entries_from 0 children)); [|reflexivity].
        replace (under ref ([], rq)) with (ref, rq)
          by (unfold under; simpl; rewrite app_nil_r; reflexivity).
        reflexivity.
      * exists w1. split; [exact Hh|]. simpl. unfold unique_id_of in Hu.
        destruct (req_method rq) eqn:Hm; [discriminate|]. reflexivity.
    + destruct (Hch O index w1) as (w2 & H2 & ->).
      exists w2. split; [eapply same_heap_trans; eassumption|]. reflexivity.
Qed.

Lemma index_items_spec items : forall ref i index w,
  exists w', same_heap w w' /\
    index_items ref i items index w =
    (if methods_ok (entries_from i items)
     then Return (index_fold index (map (under ref) (entries_from i items))) w'
     else Raise (KeyError "method") w').
Proof.
  induction items as [|x l IHl]; intros ref i index w.
  - exists w. split; [apply same_heap_refl | reflexivity].
  - simpl. unfold bind.
    destruct (index_item_spec x (ref ++ [i])%list index w) as (w2 & H2 & ->).
    rewrite methods_ok_app, methods_ok_map.
    destruct (methods_ok (entries_of x)); simpl.
    + destruct (IHl ref (S i) (index_fold index (map (under (ref ++ [i])%list) (entries_of x))) w2)
        as (w3 & H3 & ->).
      exists w3. split; [eapply same_heap_trans; eassumption|].
      destruct (methods_ok (entries_from (S i) l)); [|reflexivity].
      rewrite map_app, index_fold_app, under_prepend. reflexivity.
    + exists w2. split; [exact H2 | reflexivity].
Qed.

Lemma under_nil es : map (under []) es = es.
Proof.
  induction es as [|[q rq] es IH]; simpl; [reflexivity|]. rewrite IH. reflexivity.
Qed.

Lemma _index_requests_spec w :
  exists w', same_heap w w' /\
    _index_requests w =
    (if methods_ok (entries_from O (items_in w))
     then Return (index_of (items_in w)) w'
     else Raise (KeyError "method") w').
Proof.
  unfold _index_requests, bind, get_items. fold (items_in w).
  destruct (index_items_spec (items_in w) [] O [] w) as (w1 & H1 & ->).
  destruct (methods_ok (entries_from 0 (items_in w))).
  - rewrite under_nil. eexists. split; [|reflexivity].
    eapply same_heap_trans; [exact H1|]. repeat split.
  - exists w1. split; [exact H1 | reflexivity].
Qed.

Lemma index_get_snoc uid (index : index_t) k v :
  index_get uid (index ++ [(k, v)])%list =
  match index_get uid index with
  | Some p => Some p
  | None => if String.eqb k uid then Some v else None
  end.
Proof.
  induction index as [|[k' v'] index IH]; simpl; [reflexivity|].
  destruct (String.eqb k' uid); [reflexivity | exact IH].
Qed.

Lemma index_get_add uid index e :
  index_get uid (index_add index e) =
  match index_get uid index with
  | Some p => Some p
  | None => if has_uid uid e then Some (fst e) else None
  end.
Proof.
  unfold index_add, has_uid. destruct (unique_id_of (snd e)) as [u|].
  - unfold index_mem. destruct (index_get u index) as [p|] eqn:Hu.
    + destruct (index_get uid index) eqn:Hg; [reflexivity|].
      destruct (String.eqb_spec u uid) as [->|]; [congruence | reflexivity].
    + rewrite index_get_snoc. reflexivity.
  - destruct (index_get uid index); reflexivity.
Qed.

(** First match wins: a key already in the index keeps its reference, a
    new key gets the first entry that has it. *)
Lemma index_get_fold uid es : forall index,
  index_get uid (index_fold index es) =
  match index_get uid index with
  | Some p => Some p
  | None => first_entry uid es
  end.
Proof.
  induction es as [|e es IH]; intros index; simpl.
  - destruct (index_get uid index); reflexivity.
  - unfold index_fold in *. simpl. rewrite IH, index_get_add.
    unfold first_entry. simpl.
    destruct (index_get uid index); [reflexivity|].
    destruct (has_uid uid e); reflexivity.
Qed.

Lemma index_get_index_of uid items :
  index_get uid (index_of items) = first_entry uid (entries_from O items).
Proof. unfold index_of. rewrite index_get_fold. reflexivity. Qed.

(** The depth-first list holds exactly the requests the tree holds, each at
    its path. *)
Lemma in_entries_from p rq : forall items i,
  In (p, rq) (entries_from i items) <->
  exists j q it, p = (i + j)%nat :: q /\ items !! j = Some it /\ In (q, rq) (entries_of it).
Proof.
  induction items as [|x l IH]; intros i; simpl.
  - split; [tauto|]. intros (j & q & it & _ & H & _). discriminate.
  - rewrite in_app_iff, in_map_iff, IH. split.
    + intros [([q rq'] & Heq & Hin)|(j & q & it & -> & Hj & Hin)].
      * simpl in Heq. injection Heq as <- <-. exists O, q, x.
        rewrite Nat.add_0_r. auto.
      * exists (S j), q, it. rewrite Nat.add_succ_r. auto.
    + intros ([|j] & q & it & -> & Hj & Hin).
      * simpl in Hj. injection Hj as <-. left. exists (q, rq).
        rewrite Nat.add_0_r. auto.
      * right. exists j, q, it. rewrite Nat.add_succ_r. auto.
Qed.

Lemma in_entries_of q rq it :
  In (q, rq) (entries_of it) <->
  (q = [] /\ it_request it = Some rq)
  \/ (exists children, it_item it = Some children /\ In (q, rq) (entries_from O children)).
Proof.
  rewrite entries_of_unfold, in_app_iff. split.
  - intros [H|H].
    + left. destruct (it_request it) as [rq'|]; [|destruct H].
      destruct H as [H|[]]. injection H as <- <-. auto.
    + right. destruct (it_item it) as [children|]; [eauto | destruct H].
  - intros [(-> & ->)|(children & -> & H)]; [left; left; reflexivity | right; exact H].
Qed.

Lemma in_entries_lookup p rq : forall items,
  In (p, rq) (entries_from O items) <->
  exists it, lookup_path p items = Some it /\ it_request it = Some rq.
Proof.
  induction p as [|i q IH]; intros items.
  - rewrite in_entries_from. split.
    + intros (j & q & it & H & _). discriminate.
    + intros (it & H & _). discriminate.
  - rewrite in_entries_from. split.
    + intros (j & q' & it & Heq & Hj & Hin). simpl in Heq.
      injection Heq as Hi Hq. subst j q'.
      apply in_entries_of in Hin as [(-> & Hrq)|(children & Hch & Hin)].
      * exists it. simpl. auto.
      * apply IH in Hin as (it' & Hl & Hrq). exists it'. split; [|exact Hrq].
        destruct q as [|i' q']; [discriminate|].
        change (lookup_path (i :: i' :: q') items)
          with (match items !! i with
                | Some it0 => match it_item it0 with
                              | Some ch => lookup_path (i' :: q') ch
                              | None => None
                              end
                | None => None
                end).
        rewrite Hj, Hch. exact Hl.
    + intros (it & Hl & Hrq). destruct q as [|i' q'].
      * simpl in Hl. exists i, [], it. split; [reflexivity|]. split; [exact Hl|].
        apply in_entries_of. auto.
      * change (lookup_path (i :: i' :: q') items)
          with (match items !! i with
                | Some it0 => match it_item it0 with
                              | Some ch => lookup_path (i' :: q') ch
                              | None => None
                              end
                | None => None
                end) in Hl.
        destruct (items !! i) as [it0|] eqn:Hi; [|discriminate].
        destruct (it_item it0) as [ch|] eqn:Hch; [|discriminate].
        exists i, (i' :: q'), it0. split; [reflexivity|]. split; [exact Hi|].
        apply in_entries_of. right. exists ch. split; [exact Hch|].
        apply IH. eauto.
Qed.

Lemma first_entry_Some uid es p :
  first_entry uid es = Some p ->
  exists rq, In (p, rq) es /\ unique_id_of rq = Some uid.
Proof.
  unfold first_entry. destruct (List.find (has_uid uid) es) as [[p' rq]|] eqn:Hf; [|discriminate].
  intros H. injection H as <-. apply find_some in Hf as (Hin & Hu).
  exists rq. split; [exact Hin|]. unfold has_uid in Hu. simpl in Hu.
  destruct (unique_id_of rq) as [u|]; [|discriminate].
  apply String.eqb_eq in Hu. congruence.
Qed.

Lemma first_entry_None uid es :
  first_entry uid es = None ->
  forall p rq, In (p, rq) es -> unique_id_of rq <> Some uid.
Proof.
  unfold first_entry. destruct (List.find (has_uid uid) es) eqn:Hf; [discriminate|].
  intros _ p rq Hin Hu. pose proof (find_none _ _ Hf _ Hin) as Hn.
  unfold has_uid in Hn. simpl in Hn. rewrite Hu, String.eqb_refl in Hn. discriminate.
Qed.

(** A reference the index holds for [uid] leads to a request of that
    identity. *)
Lemma index_of_sound uid items p :
  index_get uid (index_of items) = Some p ->
  exists it rq, lookup_path p items = Some it /\ it_request it = Some rq
                /\ unique_id_of rq = Some uid.
Proof.
  rewrite index_get_index_of. intros H.
  apply first_entry_Some in H as (rq & Hin & Hu).
  apply in_entries_lookup in Hin as (it & Hl & Hrq). eauto.
Qed.

(** Every request of the tree has its identity in the index. *)
Lemma index_of_complete items p it rq uid :
  lookup_path p items = Some it -> it_request it = Some rq ->
  unique_id_of rq = Some uid ->
  index_mem uid (index_of items) = true.
Proof.
  intros Hl Hrq Hu. unfold index_mem. rewrite index_get_index_of.
  destruct (first_entry uid (entries_from 0 items)) eqn:Hf; [reflexivity|].
  exfalso. eapply first_entry_None; [exact Hf| |exact Hu].
  apply in_entries_lookup. eauto.
Qed.


(** C8. On a collection whose requests all have a method, [_index_requests]
    returns without raising and changes nothing of the collection (only
    the log grows). The index it returns binds each identity to the first
    request, in depth-first order, that has it; the depth-first list holds
    exactly the requests found at any path of the tree; and the identity
    of a request with a structured URL is its method, a colon, and "/"
    followed by the path segments joined by "/". *)
Theorem index_requests_contract (w : world) :
  methods_ok (entries_from O (items_in w)) = true ->
  exists index w',
    _index_requests w = Return index w'
    /\ same_heap w w'
    /\ (forall uid, index_get uid index = first_entry uid (entries_from O (items_in w)))
    /\ (forall p rq,
          In (p, rq) (entries_from O (items_in w)) <->
          exists it, lookup_path p (items_in w) = Some it /\ it_request it = Some rq)
    /\ (forall rq m raw host segments,
          req_method rq = Some m ->
          req_url rq = Some (UrlObject raw host (Some (PathList segments))) ->
          unique_id_of rq = Some (m ++ ":" ++ "/" ++ PyStr.join "/" segments)).
Proof.
  intros Hm. destruct (_index_requests_spec w) as (w' & Hh & Hrun). rewrite Hm in Hrun.
  exists (index_of (items_in w)), w'. split; [exact Hrun|]. split; [exact Hh|].
  split; [intros uid; apply index_get_index_of|].
  split; [intros p rq; apply in_entries_lookup|].
  intros rq m raw host segments Hmeth Hurl. unfold unique_id_of. rewrite Hmeth, Hurl.
  reflexivity.
Qed.

Lemma index_requests_contract_witness :
  exists index w',
    _index_requests (Scenario.world_at Scenario.new_year (Some Scenario.nested_items))
    = Return index w'
    /\ w_doc w' = w_doc (Scenario.world_at Scenario.new_year (Some Scenario.nested_items))
    /\ index_get "GET:/api/users" index = Some [O; O; O].
Proof.
  destruct (index_requests_contract
              (Scenario.world_at Scenario.new_year (Some Scenario.nested_items)) eq_refl)
    as (index & w' & Hrun & (Hdoc & _) & Hget & _).
  exists index, w'. split; [exact Hrun|]. split; [exact Hdoc|].
  rewrite Hget. reflexivity.
Defined.

(** ** References into the tree *)

Lemma it_request_set_item c it : it_request (set_item c it) = it_request it.
Proof. destruct it; reflexivity. Qed.

Lemma it_item_set_item c it : it_item (set_item c it) = c.
Proof. destruct it; reflexivity. Qed.

Lemma it_item_set_request rq it : it_item (set_request rq it) = it_item it.
Proof. destruct it; reflexivity. Qed.

Lemma it_item_set_event ev it : it_item (set_event ev it) = it_item it.
Proof. destruct it; reflexivity. Qed.

Lemma it_request_set_event ev it : it_request (set_event ev it) = it_request it.
Proof. destruct it; reflexivity. Qed.

Lemma it_request_set_request rq it : it_request (set_request rq it) = rq.
Proof. destruct it; reflexivity. Qed.

Lemma lookup_path_cons i q items :
  lookup_path (i :: q) items =
  match q with
  | [] => items !! i
  | _ :: _ =>
      match items !! i with
      | Some it =>
          match it_item it with
          | Some children => lookup_path q children
          | None => None
          end
      | None => None
      end
  end.
Proof. destruct q; reflexivity. Qed.

Lemma alter_path_cons f i q items :
  alter_path f (i :: q) items =
  match q with
  | [] => alter f i items
  | _ :: _ => alter (fun it => set_item (alter_path f q <$> it_item it) it) i items
  end.
Proof. destruct q; reflexivity. Qed.

Lemma alter_path_nil f p : alter_path f p [] = [].
Proof. destruct p as [|i [|j q]]; reflexivity. Qed.

Lemma entry_at_cons i q rq items :
  entry_at (i :: q) rq items =
  match items !! i with
  | None => False
  | Some it =>
      match q with
      | [] => it_request it = Some rq
      | _ :: _ =>
          it_request it = None /\
          match it_item it with
          | Some children => entry_at q rq children
          | None => False
          end
      end
  end.
Proof. reflexivity. Qed.

(** An entry is a request of the tree, at its path. *)
Lemma entry_at_lookup p rq : forall items,
  entry_at p rq items ->
  exists it, lookup_path p items = Some it /\ it_request it = Some rq.
Proof.
  induction p as [|i q IH]; intros items H; [destruct H|].
  rewrite entry_at_cons in H. rewrite lookup_path_cons.
  destruct (items !! i) as [it|]; [|destruct H].
  destruct q as [|j q].
  - eauto.
  - destruct H as (_ & H). destruct (it_item it) as [children|]; [|destruct H].
    apply IH. exact H.
Qed.

(** Appending to an array moves nothing. *)
Lemma entry_at_app p rq items extra :
  entry_at p rq items -> entry_at p rq (items ++ extra)%list.
Proof.
  destruct p as [|i q]; [tauto|]. rewrite !entry_at_cons.
  destruct (items !! i) as [it|] eqn:Hi; [|tauto].
  rewrite (lookup_app_l_Some _ _ _ _ Hi). tauto.
Qed.

(** Appending a child to a folder moves nothing. *)
Lemma entry_at_folder_append p rq items i x :
  entry_at p rq items -> entry_at p rq (alter (folder_append x) i items).
Proof.
  destruct p as [|j q]; [tauto|]. rewrite !entry_at_cons.
  destruct (decide (i = j)) as [->|Hne].
  - rewrite list_lookup_alter_eq. destruct (items !! j) as [it|]; [|tauto]. simpl_opt.
    unfold folder_append. rewrite it_request_set_item, it_item_set_item.
    destruct q as [|k q]; [tauto|].
    intros (Hrq & H). split; [exact Hrq|].
    destruct (it_item it) as [children|]; [|destruct H].
    simpl_opt. apply (entry_at_app (k :: q)). exact H.
  - rewrite list_lookup_alter_ne by exact Hne. tauto.
Qed.

(** A mutation of the item at another reference, one that touches neither
    the children nor the absence of a request, moves nothing. *)
Lemma entry_at_alter_path f rq :
  (forall it, it_item (f it) = it_item it) ->
  (forall it, it_request it = None -> it_request (f it) = None) ->
  forall q p items,
    p <> q -> entry_at p rq items -> entry_at p rq (alter_path f q items).
Proof.
  intros Hitem Hnone. induction q as [|i q IH]; intros p items Hne H; [exact H|].
  destruct p as [|j p]; [destruct H|].
  rewrite alter_path_cons. rewrite entry_at_cons in H. rewrite entry_at_cons.
  destruct (decide (i = j)) as [->|Hij].
  - destruct (items !! j) as [it|] eqn:Hj; [|destruct H].
    destruct q as [|k q].
    + rewrite list_lookup_alter_eq, Hj. simpl_opt.
      destruct p as [|k p]; [congruence|].
      destruct H as (Hrq & H). rewrite Hitem. split; [apply Hnone; exact Hrq | exact H].
    + rewrite list_lookup_alter_eq, Hj. simpl_opt.
      rewrite it_request_set_item, it_item_set_item.
      destruct p as [|k' p]; [exact H|].
      destruct H as (Hrq & H). split; [exact Hrq|].
      destruct (it_item it) as [children|]; [|destruct H]. simpl_opt.
      apply IH; [congruence | exact H].
  - destruct q as [|k q]; rewrite list_lookup_alter_ne by exact Hij; exact H.
Qed.

(** A mutation of the item at the reference of an entry gives the entry the
    request the mutation writes. *)
Lemma entry_at_alter_path_here f rq rq' :
  (forall it, it_request it = Some rq -> it_request (f it) = Some rq') ->
  forall p items, entry_at p rq items -> entry_at p rq' (alter_path f p items).
Proof.
  intros Hf. induction p as [|i q IH]; intros items H; [destruct H|].
  rewrite alter_path_cons. rewrite entry_at_cons in H. rewrite entry_at_cons.
  destruct (items !! i) as [it|] eqn:Hi; [|destruct H].
  destruct q as [|k q].
  - rewrite list_lookup_alter_eq, Hi. simpl_opt. apply Hf. exact H.
  - rewrite list_lookup_alter_eq, Hi. simpl_opt.
    rewrite it_request_set_item, it_item_set_item.
    destruct H as (Hrq & H). split; [exact Hrq|].
    destruct (it_item it) as [children|]; [|destruct H]. simpl_opt.
    apply IH. exact H.
Qed.

(** The item a mutation reaches is the item at the reference. *)
Lemma lookup_path_alter_path f : forall p items,
  lookup_path p (alter_path f p items) = f <$> lookup_path p items.
Proof.
  induction p as [|i p IH]; intros items; [reflexivity|].
  rewrite alter_path_cons, !lookup_path_cons.
  destruct p as [|j p].
  - apply list_lookup_alter_eq.
  - rewrite list_lookup_alter_eq. destruct (items !! i) as [it|]; [|reflexivity]. simpl_opt.
    rewrite it_item_set_item. destruct (it_item it) as [children|]; [|reflexivity].
    simpl_opt. apply IH.
Qed.

(** ** The marker in the description *)

Lemma append_assoc (a b c : string) : (a ++ b) ++ c = a ++ (b ++ c).
Proof. induction a as [|x a IH]; simpl; [reflexivity | rewrite IH; reflexivity]. Qed.

Lemma prefix_append (a b : string) : String.prefix a (a ++ b) = true.
Proof.
  induction a as [|x a IH]; simpl; [destruct b; reflexivity|].
  destruct (ascii_dec x x); [exact IH | congruence].
Qed.

Lemma contains_prefix (a s : string) : String.prefix a s = true -> PyStr.contains a s = true.
Proof. intros H. destruct s; cbn [PyStr.contains]; rewrite H; reflexivity. Qed.

Lemma prefix_head_ne (c x : ascii) (a s : string) :
  c <> x -> String.prefix (String c a) (String x s) = false.
Proof. intros Hne. simpl. destruct (ascii_dec c x); [congruence | reflexivity]. Qed.

(** [split_head] passes over text in which the separator cannot start. *)
Lemma split_head_skip (c : ascii) (sep' : string) (m rest : string) :
  all_chars (fun x => negb (Ascii.eqb x c)) m = true ->
  PyStr.split_head (String c sep') (m ++ rest)
  = m ++ PyStr.split_head (String c sep') rest.
Proof.
  induction m as [|x m IH]; intros Hm; [reflexivity|].
  simpl in Hm. apply andb_prop in Hm as (Hx & Hm).
  change ((String x m) ++ rest) with (String x (m ++ rest)).
  cbn [PyStr.split_head]. rewrite prefix_head_ne.
  - rewrite (IH Hm). reflexivity.
  - intros ->. rewrite Ascii.eqb_refl in Hx. discriminate.
Qed.

(** [rstrip] stops at a character that is not blank. *)
Lemma rstrip_stop (m : string) (c : ascii) (rest : string) :
  PyStr.is_space c = false ->
  PyStr.rstrip (m ++ String c rest) = m ++ String c (PyStr.rstrip rest).
Proof.
  intros Hc. induction m as [|x m IH]; simpl.
  - rewrite Hc. reflexivity.
  - rewrite IH. destruct m; simpl; rewrite andb_false_r; reflexivity.
Qed.

Lemma span_stop (p : ascii -> bool) (a : string) (c : ascii) (rest : string) :
  all_chars p a = true -> p c = false ->
  PyStr.span p (a ++ String c rest) = (a, String c rest).
Proof.
  intros Ha Hc. induction a as [|x a IH]; simpl.
  - rewrite Hc. reflexivity.
  - simpl in Ha. apply andb_prop in Ha as (Hx & Ha). rewrite Hx, (IH Ha). reflexivity.
Qed.

Lemma search_as_of_skip (c : ascii) (s : string) :
  c <> "("%char -> search_as_of (String c s) = search_as_of s.
Proof.
  intros Hne. cbn [search_as_of]. unfold match_as_of at 1.
  rewrite prefix_head_ne by congruence. reflexivity.
Qed.

Lemma match_as_of_stamp (stamp rest : string) :
  stamp <> EmptyString -> all_chars stamp_char stamp = true ->
  match_as_of ("(as of " ++ stamp ++ ")" ++ rest) = Some stamp.
Proof.
  intros Hne Hchars. unfold match_as_of.
  rewrite (prefix_append "(as of " (stamp ++ ")" ++ rest)).
  change (PyStr.drop 7 ("(as of " ++ stamp ++ ")" ++ rest)) with (stamp ++ String ")" rest).
  rewrite (span_stop stamp_char stamp ")" rest Hchars eq_refl).
  destruct stamp; [congruence|]. simpl PyStr.is_empty. simpl negb.
  cbn [andb]. change (String.prefix ")" (String ")" rest)) with
    (if ascii_dec ")" ")" then String.prefix EmptyString rest else false).
  destruct (ascii_dec ")" ")"); [|congruence]. destruct rest; reflexivity.
Qed.

(** [re.search] finds the stamp of a marker that opens the description. *)
Lemma search_as_of_marker (stamp rest : string) :
  stamp <> EmptyString -> all_chars stamp_char stamp = true ->
  search_as_of (deprecation_marker stamp ++ rest) = Some stamp.
Proof.
  intros Hne Hchars. unfold deprecation_marker, deprecated_tag.
  rewrite !append_assoc.
  change ("**DEPRECATED**" ++ " (as of " ++ stamp ++ ")" ++ rest)
    with ("**DEPRECATED** " ++ ("(as of " ++ stamp ++ ")" ++ rest)).
  set (s := "(as of " ++ stamp ++ ")" ++ rest).
  cbn [append]. do 15 (rewrite search_as_of_skip by discriminate).
  subst s. assert (H := match_as_of_stamp stamp rest Hne Hchars).
  destruct ("(as of " ++ stamp ++ ")" ++ rest) eqn:Hs; [discriminate|].
  cbn [search_as_of]. rewrite H. reflexivity.
Qed.

Lemma contains_marker (stamp rest : string) :
  PyStr.contains deprecated_tag (deprecation_marker stamp ++ rest) = true.
Proof.
  apply contains_prefix. unfold deprecation_marker. rewrite append_assoc.
  apply prefix_append.
Qed.

Lemma all_chars_app p a b : all_chars p (a ++ b) = all_chars p a && all_chars p b.
Proof.
  induction a as [|x a IH]; simpl; [reflexivity|]. rewrite IH, andb_assoc. reflexivity.
Qed.

Lemma all_chars_impl (p q : ascii -> bool) s :
  (forall c, p c = true -> q c = true) -> all_chars p s = true -> all_chars q s = true.
Proof.
  intros Hpq. induction s as [|x s IH]; simpl; [reflexivity|].
  intros H. apply andb_prop in H as (Hx & Hs). rewrite (Hpq x Hx), (IH Hs). reflexivity.
Qed.

Lemma stamp_char_not_underscore c :
  stamp_char c = true -> negb (Ascii.eqb c "_") = true.
Proof. destruct (Ascii.eqb_spec c "_") as [->|]; [discriminate | reflexivity]. Qed.

Lemma marker_no_underscore stamp :
  all_chars stamp_char stamp = true ->
  all_chars (fun x => negb (Ascii.eqb x "_")) (deprecation_marker stamp) = true.
Proof.
  intros H. unfold deprecation_marker, deprecated_tag. rewrite !all_chars_app.
  rewrite (all_chars_impl _ _ _ stamp_char_not_underscore H). reflexivity.
Qed.

Lemma marker_not_empty stamp rest : PyStr.is_empty (deprecation_marker stamp ++ rest) = false.
Proof. reflexivity. Qed.

Lemma rstrip_marker stamp rest :
  PyStr.rstrip (deprecation_marker stamp ++ rest)
  = deprecation_marker stamp ++ PyStr.rstrip rest.
Proof.
  unfold deprecation_marker.
  replace ((deprecated_tag ++ " (as of " ++ stamp ++ ")") ++ rest)
    with ((deprecated_tag ++ " (as of " ++ stamp) ++ String ")" rest)
    by (rewrite !append_assoc; reflexivity).
  rewrite rstrip_stop by reflexivity. rewrite !append_assoc. reflexivity.
Qed.

Section Marker.

Variable isoformat : Z -> string.
Variable fromisoformat : string -> iso_parse.

(** An update keeps a marker that opens the description. *)
Lemma update_request_dict_marked now route stamp rq :
  all_chars stamp_char stamp = true ->
  marked_since stamp rq ->
  marked_since stamp (update_request_dict isoformat now route rq).
Proof.
  intros Hchars (rest & Hdesc). unfold marked_since, update_request_dict. rewrite Hdesc.
  cbn [default from_option req_description]. cbv [id].
  destruct (PyStr.contains synced_tag (deprecation_marker stamp ++ rest)).
  - unfold synced_tag.
    rewrite (split_head_skip "_" "Last synced:" _ rest (marker_no_underscore stamp Hchars)).
    rewrite rstrip_marker, marker_not_empty. cbn [andb]. rewrite append_assoc. eauto.
  - rewrite marker_not_empty. cbn [andb]. rewrite append_assoc. eauto.
Qed.

Lemma marked_description stamp rq :
  marked_since stamp rq ->
  exists rest, default EmptyString (req_description rq) = deprecation_marker stamp ++ rest.
Proof. intros (rest & ->). exists rest. reflexivity. Qed.

(** The stamp [fromisoformat] is given for a request that opens with the
    marker is the marker's. *)
Lemma marked_stamp_of stamp rq :
  stamp <> EmptyString -> all_chars stamp_char stamp = true ->
  marked_since stamp rq ->
  stamp_of fromisoformat rq = Some (fromisoformat stamp).
Proof.
  intros Hne Hchars Hm. apply marked_description in Hm as (rest & Hdesc).
  unfold stamp_of. rewrite Hdesc, contains_marker, (search_as_of_marker _ _ Hne Hchars).
  reflexivity.
Qed.

Lemma marked_tagged stamp rq :
  marked_since stamp rq ->
  PyStr.contains deprecated_tag (default EmptyString (req_description rq)) = true.
Proof.
  intros Hm. apply marked_description in Hm as (rest & ->). apply contains_marker.
Qed.

End Marker.

(** ** The steps of [merge], one by one *)

Lemma for_each_inv {A S : Type} (I : S -> world -> Prop) (body : S -> A -> M S) :
  forall (l : list A),
    (forall acc x w acc' w', In x l -> I acc w -> body acc x w = Return acc' w' -> I acc' w') ->
    forall acc w acc' w',
      I acc w -> for_each l body acc w = Return acc' w' -> I acc' w'.
Proof.
  induction l as [|x l IH]; intros Hbody acc w acc' w' HI Hrun; simpl in Hrun.
  - inv_ret Hrun. exact HI.
  - inv_bind Hrun as acc1 w1 Hx. eapply IH; [| |exact Hrun].
    + intros ? ? ? ? ? Hin. apply Hbody. right. exact Hin.
    + eapply Hbody; [left; reflexivity | exact HI | exact Hx].
Qed.

Lemma find_folder_Some name : forall items k i,
  find_folder name k items = Some i ->
  exists j f, i = (k + j)%nat /\ items !! j = Some f
              /\ it_name f = Some name /\ is_Some (it_item f).
Proof.
  induction items as [|it rest IH]; intros k i H; simpl in H; [discriminate|].
  destruct (match it_name it with Some n => String.eqb n name | None => false end
            && bool_decide (is_Some (it_item it))) eqn:Hc.
  - injection H as <-. apply andb_prop in Hc as (Hn & Hf).
    exists O, it. rewrite Nat.add_0_r. split; [reflexivity|]. split; [reflexivity|].
    split.
    + destruct (it_name it) as [n|]; [|discriminate].
      apply String.eqb_eq in Hn. congruence.
    + apply bool_decide_eq_true in Hf. exact Hf.
  - apply IH in H as (j & f & -> & Hj & Hn & Hf).
    exists (S j), f. rewrite Nat.add_succ_r. auto.
Qed.

Lemma items_in_Some w items : c_item (w_doc w) = Some items -> items_in w = items.
Proof. unfold items_in. intros ->. reflexivity. Qed.

Section MergerProperties.

Variable isoformat : Z -> string.
Variable fromisoformat : string -> iso_parse.
Variable deprecation_days : Z.

Lemma _update_request_run ref route w :
  exists w',
    _update_request isoformat ref route w = Return tt w'
    /\ items_in w' = alter_path (update_item isoformat (w_clock w (w_ticks w)) route) ref
                                (items_in w)
    /\ w_clock w' = w_clock w
    /\ c_info (w_doc w') = c_info (w_doc w)
    /\ w_log w' = (w_log w ++ [DebugUpdatedRequest (unique_id route)])%list.
Proof.
  unfold _update_request, bind, utcnow, modify_items, set_items, logger, items_in. simpl.
  destruct (c_item (w_doc w)) as [items|] eqn:Hitems; simpl.
  - eexists. split; [reflexivity|]. simpl. repeat split.
  - eexists. split; [reflexivity|]. simpl. rewrite Hitems. simpl.
    rewrite alter_path_nil. repeat split.
Qed.

Lemma _add_request_inv route w w' :
  _add_request isoformat route w = Return tt w' ->
  exists items0 i folder desc,
    c_item (w_doc w) = Some (items_in w)
    /\ (items0 = items_in w \/ items0 = (items_in w ++ [new_folder (folder_name route)])%list)
    /\ items0 !! i = Some folder
    /\ is_Some (it_item folder)
    /\ c_item (w_doc w') = Some (alter (folder_append (build_request_item route desc)) i items0)
    /\ w_clock w' = w_clock w
    /\ c_info (w_doc w') = c_info (w_doc w).
Proof.
  unfold _add_request. intros H. inv_bind H as items wa Hget.
  unfold get_items in Hget. injection Hget as <- <-. fold (items_in w) in H.
  inv_bind H as i wb Hfold. inv_bind H as desc wc Hdesc. inv_bind H as u wd Hmod.
  unfold logger in H. injection H as Hw'. subst w'.
  (* the folder *)
  assert (Hfolder : exists items0 folder,
             c_item (w_doc w) = Some (items_in w)
             /\ (items0 = items_in w
                 \/ items0 = (items_in w ++ [new_folder (folder_name route)])%list)
             /\ items0 !! i = Some folder /\ is_Some (it_item folder)
             /\ c_item (w_doc wb) = Some items0
             /\ w_clock wb = w_clock w /\ c_info (w_doc wb) = c_info (w_doc w)).
  { destruct (find_folder (folder_name route) 0 (items_in w)) as [i'|] eqn:Hf.
    - inv_ret Hfold. apply find_folder_Some in Hf as (j & f & -> & Hj & _ & Hit).
      exists (items_in w), f. simpl.
      assert (Hsome : c_item (w_doc w) = Some (items_in w)).
      { unfold items_in in *. destruct (c_item (w_doc w)); [reflexivity | discriminate]. }
      repeat split; auto.
    - inv_bind Hfold as items wx Hsub. unfold items_subscript, subscript in Hsub.
      destruct (c_item (w_doc w)) as [items'|] eqn:Hitems; [|discriminate].
      inv_ret Hsub. inv_bind Hfold as u' wy Hset. unfold set_items in Hset.
      injection Hset as Hwy. subst wy. inv_ret Hfold.
      rewrite (items_in_Some w items' Hitems).
      exists (items' ++ [new_folder (folder_name route)])%list, (new_folder (folder_name route)).
      split; [reflexivity|]. split; [right; reflexivity|].
      split; [apply list_lookup_middle; reflexivity|].
      split; [eexists; reflexivity|]. simpl. repeat split. }
  destruct Hfolder as (items0 & folder & Hsome & Hitems0 & Hlook & Hisf & Hc0 & Hclk0 & Hinfo0).
  (* the description *)
  assert (Hd : c_item (w_doc wc) = Some items0 /\ w_clock wc = w_clock w
                  /\ c_info (w_doc wc) = c_info (w_doc w)).
  { destruct (str_truthy (description route)).
    - inv_ret Hdesc. auto.
    - inv_bind Hdesc as now wx Hnow. unfold utcnow in Hnow. injection Hnow as Hn Hwx.
      subst now wx. inv_ret Hdesc. simpl. auto. }
  destruct Hd as (Hc1 & Hclk1 & Hinfo1).
  unfold modify_items in Hmod. rewrite Hc1 in Hmod. unfold set_items in Hmod.
  injection Hmod as Hwd. subst wd. simpl.
  exists items0, i, folder, desc. repeat split; auto.
Qed.


(** What [_ensure_folders] has done when it returns: it has appended empty
    folders, each named by one of the names it was given. *)
Lemma _ensure_folders_inv folder_names w w' :
  _ensure_folders folder_names w = Return tt w' ->
  exists created,
    c_item (w_doc w') = Some (items_in w ++ map new_folder created)%list
    /\ (forall name, In name created -> In name folder_names)
    /\ w_clock w' = w_clock w
    /\ c_info (w_doc w') = c_info (w_doc w).
Proof.
  unfold _ensure_folders. intros H. inv_bind H as u wa Hinit.
  assert (Ha : c_item (w_doc wa) = Some (items_in w) /\ w_clock wa = w_clock w
               /\ c_info (w_doc wa) = c_info (w_doc w)).
  { unfold items_in. destruct (c_item (w_doc w)) as [items|] eqn:Hitems.
    - inv_ret Hinit. rewrite Hitems. auto.
    - unfold set_items in Hinit. injection Hinit as Hwa. subst wa. simpl. auto. }
  clear Hinit. destruct Ha as (Hca & Hclka & Hinfoa).
  inv_bind H as items wb Hsub. unfold items_subscript, subscript in Hsub.
  rewrite Hca in Hsub. inv_ret Hsub.
  inv_bind H as existing wc Hex.
  assert (Hwc : wc = wa).
  { revert Hex. apply (for_each_inv (fun _ w0 => w0 = wa)); [|reflexivity].
    intros acc x w0 acc' w0' _ -> Hbody.
    destruct (it_item x); [|inv_ret Hbody; reflexivity].
    inv_bind Hbody as name wn Hname. inv_ret Hbody.
    unfold subscript in Hname. destruct (it_name x); [|discriminate].
    inv_ret Hname. reflexivity. }
  subst wc. clear Hex.
  pose (I := fun (_ : unit) (w0 : world) =>
       exists created,
         c_item (w_doc w0) = Some (items_in w ++ map new_folder created)%list
         /\ (forall name, In name created -> In name folder_names)
         /\ w_clock w0 = w_clock w /\ c_info (w_doc w0) = c_info (w_doc w)).
  assert (Hfinal : I u w').
  { revert H. apply (for_each_inv I).
    - intros acc name w0 acc' w0' Hin (created & Hc & Hsubs & Hclk & Hinfo) Hbody.
      destruct (str_mem name existing).
      + inv_ret Hbody. exists created. auto.
      + inv_bind Hbody as u1 w1 Happ. unfold logger in Hbody.
        injection Hbody as Hacc Hw0'. subst w0'.
        unfold items_append in Happ. inv_bind Happ as items1 w2 Hs.
        unfold items_subscript, subscript in Hs. rewrite Hc in Hs. inv_ret Hs.
        unfold set_items in Happ. injection Happ as Hw1. subst w1. simpl.
        exists (created ++ [name])%list. rewrite map_app, app_assoc. simpl.
        split; [reflexivity|]. split; [|auto].
        intros n Hn. apply in_app_iff in Hn as [Hn|[<-|[]]]; auto.
    - exists []. simpl. rewrite app_nil_r. repeat split; auto. intros ? []. }
  exact Hfinal.
Qed.

Lemma new_SyncResult_inv res w w' :
  new_SyncResult w = Return res w' ->
  w_doc w' = w_doc w /\ w_clock w' = w_clock w
  /\ routes_added res = [] /\ routes_updated res = []
  /\ routes_deprecated res = [] /\ routes_removed res = [].
Proof.
  unfold new_SyncResult, bind, utcnow, ret. intros H. injection H as <- <-. repeat split.
Qed.


Lemma it_item_ensure_auth it : it_item (_ensure_auth_prerequest it) = it_item it.
Proof.
  unfold _ensure_auth_prerequest.
  destruct (existsb is_prerequest (default [] (it_event it))); apply it_item_set_event.
Qed.

Lemma it_request_ensure_auth it : it_request (_ensure_auth_prerequest it) = it_request it.
Proof.
  unfold _ensure_auth_prerequest.
  destruct (existsb is_prerequest (default [] (it_event it))); apply it_request_set_event.
Qed.

Lemma it_item_update_item now route it :
  it_item (update_item isoformat now route it) = it_item it.
Proof.
  unfold update_item. destruct (route_protected route);
    rewrite ?it_item_ensure_auth; apply it_item_set_request.
Qed.

Lemma it_request_update_item now route it :
  it_request (update_item isoformat now route it)
  = update_request_dict isoformat now route <$> it_request it.
Proof.
  unfold update_item. destruct (route_protected route);
    rewrite ?it_request_ensure_auth; apply it_request_set_request.
Qed.

Lemma it_item_mark_item now it : it_item (mark_item isoformat now it) = it_item it.
Proof. unfold mark_item. apply it_item_set_request. Qed.

Lemma it_request_mark_item_None now it :
  it_request it = None -> it_request (mark_item isoformat now it) = None.
Proof. unfold mark_item. rewrite it_request_set_request. intros ->. reflexivity. Qed.

(** The loop over the routes leaves in place an entry that no route's
    reference leads to. *)
Lemma process_routes_stays p rq clock index routes :
  (forall r, In r routes -> index_get (unique_id r) index <> Some p) ->
  forall res w res' w',
    stays p rq clock w ->
    for_each routes (process_route isoformat index) res w = Return res' w' ->
    stays p rq clock w'.
Proof.
  intros Hne res w res' w'.
  apply (for_each_inv (fun _ w0 => stays p rq clock w0)).
  intros acc r w0 acc' w0' Hin (Hclk & Hat) Hbody. unfold process_route in Hbody.
  destruct (index_get (unique_id r) index) as [ref|] eqn:Hget.
  - inv_bind Hbody as u w1 Hupd. inv_ret Hbody.
    destruct (_update_request_run ref r w0) as (w2 & Hrun & Hitems & Hclk2 & _).
    rewrite Hrun in Hupd. injection Hupd as Hw. subst w2.
    split; [congruence|]. rewrite Hitems.
    apply entry_at_alter_path; [apply it_item_update_item | | | exact Hat].
    + intros it Hn. rewrite it_request_update_item, Hn. reflexivity.
    + intros ->. exact (Hne r Hin Hget).
  - inv_bind Hbody as u w1 Hadd. inv_ret Hbody. destruct u.
    apply _add_request_inv in Hadd
      as (items0 & i & folder & desc & _ & Hitems0 & _ & _ & Hc & Hclk1 & _).
    split; [congruence|]. rewrite (items_in_Some _ _ Hc).
    apply entry_at_folder_append.
    destruct Hitems0 as [->| ->]; [exact Hat | apply entry_at_app; exact Hat].
Qed.

(** The loop over the routes keeps at its path an entry with a property
    that the updates of the routes that lead to it preserve. *)
Lemma process_routes_tracks p (P : request -> Prop) clock index routes :
  (forall now r rq,
     In r routes -> index_get (unique_id r) index = Some p ->
     P rq -> P (update_request_dict isoformat now r rq)) ->
  forall res w res' w',
    tracks p P clock w ->
    for_each routes (process_route isoformat index) res w = Return res' w' ->
    tracks p P clock w'.
Proof.
  intros Hupd res w res' w'.
  apply (for_each_inv (fun _ w0 => tracks p P clock w0)).
  intros acc r w0 acc' w0' Hin (Hclk & rq & Hat & HP) Hbody. unfold process_route in Hbody.
  destruct (index_get (unique_id r) index) as [ref|] eqn:Hget.
  - inv_bind Hbody as u w1 Hrun1. inv_ret Hbody.
    destruct (_update_request_run ref r w0) as (w2 & Hrun & Hitems & Hclk2 & _).
    rewrite Hrun in Hrun1. injection Hrun1 as Hw. subst w2.
    split; [congruence|]. rewrite Hitems.
    destruct (decide (p = ref)) as [<-|Hne].
    + exists (update_request_dict isoformat (w_clock w0 (w_ticks w0)) r rq).
      split; [|apply Hupd; assumption].
      apply (entry_at_alter_path_here _ rq); [|exact Hat].
      intros it Hrq. rewrite it_request_update_item, Hrq. reflexivity.
    + exists rq. split; [|exact HP].
      apply entry_at_alter_path; [apply it_item_update_item | | exact Hne | exact Hat].
      intros it Hn. rewrite it_request_update_item, Hn. reflexivity.
  - inv_bind Hbody as u w1 Hadd. inv_ret Hbody. destruct u.
    apply _add_request_inv in Hadd
      as (items0 & i & folder & desc & _ & Hitems0 & _ & _ & Hc & Hclk1 & _).
    split; [congruence|]. exists rq. split; [|exact HP]. rewrite (items_in_Some _ _ Hc).
    apply entry_at_folder_append.
    destruct Hitems0 as [->| ->]; [exact Hat | apply entry_at_app; exact Hat].
Qed.

(** What the loop over the routes reports: the routes the index holds as
    updated, the others as added, each list in the order of the routes. *)
Lemma process_routes_result index : forall routes res w res' w',
  for_each routes (process_route isoformat index) res w = Return res' w' ->
  routes_updated res'
  = (routes_updated res ++ List.filter (fun r => index_mem (unique_id r) index) routes)%list
  /\ routes_added res'
     = (routes_added res
        ++ List.filter (fun r => negb (index_mem (unique_id r) index)) routes)%list
  /\ routes_deprecated res' = routes_deprecated res
  /\ routes_removed res' = routes_removed res.
Proof.
  induction routes as [|r routes IH]; intros res w res' w' H; simpl in H.
  - inv_ret H. rewrite !app_nil_r. auto.
  - inv_bind H as res1 w1 Hr. apply IH in H as (Hu & Ha & Hd & Hrm).
    unfold process_route, index_mem in *. simpl.
    destruct (index_get (unique_id r) index) as [ref|]; simpl;
      inv_bind Hr as u w2 Hop; inv_ret Hr; simpl in *.
    + rewrite Hu, Ha, <- app_assoc. auto.
    + rewrite Hu, Ha, <- app_assoc. auto.
Qed.

Lemma entry_description p rq items it :
  entry_at p rq items -> lookup_path p items = Some it ->
  item_description it = default EmptyString (req_description rq).
Proof.
  intros Hat Hl. apply entry_at_lookup in Hat as (it' & Hl' & Hrq).
  rewrite Hl in Hl'. injection Hl' as <-. unfold item_description. rewrite Hrq. reflexivity.
Qed.

(** The deprecation pass leaves in place an entry that carries the tag. *)
Lemma _mark_deprecated_stays p rq clock index ids :
  PyStr.contains deprecated_tag (default EmptyString (req_description rq)) = true ->
  forall deprecated w w',
    stays p rq clock w ->
    _mark_deprecated isoformat index ids w = Return deprecated w' ->
    stays p rq clock w'.
Proof.
  intros Htag deprecated w w'. unfold _mark_deprecated.
  apply (for_each_inv (fun _ w0 => stays p rq clock w0)).
  intros acc [uid ref] w0 acc' w0' Hin (Hclk & Hat) Hbody.
  destruct (str_mem uid ids); [inv_ret Hbody; split; assumption|].
  inv_bind Hbody as items w1 Hget. unfold get_items in Hget.
  injection Hget as Hitems Hw1. subst w1. fold (items_in w0) in Hitems. subst items.
  destruct (PyStr.contains deprecated_tag
              (from_option item_description EmptyString (lookup_path ref (items_in w0))))
    eqn:Hc; [inv_ret Hbody; split; assumption|].
  inv_bind Hbody as now w1 Hnow. unfold utcnow in Hnow. injection Hnow as Hn Hw1. subst w1.
  inv_bind Hbody as u w2 Hmod. inv_bind Hbody as u' w3 Hlog. inv_ret Hbody.
  unfold logger in Hlog. injection Hlog as Hw3. subst w3.
  unfold modify_items in Hmod. simpl in Hmod.
  assert (Hne : p <> ref).
  { intros <-. destruct (entry_at_lookup _ _ _ Hat) as (it & Hl & _).
    rewrite Hl in Hc. simpl in Hc.
    rewrite (entry_description _ _ _ _ Hat Hl) in Hc. congruence. }
  destruct (c_item (w_doc w0)) as [items|] eqn:Hitems.
  - unfold set_items in Hmod. injection Hmod as Hw2. subst w2.
    split; [exact Hclk|]. unfold items_in in *. simpl. rewrite Hitems in Hat. simpl in Hat.
    apply entry_at_alter_path;
      [apply it_item_mark_item | apply it_request_mark_item_None | exact Hne | exact Hat].
  - inv_ret Hmod. split; [exact Hclk|]. unfold items_in in *. simpl. exact Hat.
Qed.

(** The deprecation pass keeps at its path, with its request as it is, an
    entry with a property that only tagged requests have. *)
Lemma _mark_deprecated_tracks p (P : request -> Prop) clock index ids :
  (forall rq, P rq ->
     PyStr.contains deprecated_tag (default EmptyString (req_description rq)) = true) ->
  forall deprecated w w',
    tracks p P clock w ->
    _mark_deprecated isoformat index ids w = Return deprecated w' ->
    tracks p P clock w'.
Proof.
  intros Htag deprecated w w' (Hclk & rq & Hat & HP) Hrun.
  destruct (_mark_deprecated_stays p rq clock index ids (Htag rq HP)
              deprecated w w' (conj Hclk Hat) Hrun) as (Hclk' & Hat').
  split; [exact Hclk'|]. exists rq. auto.
Qed.


(** *** The expiry pass *)

Lemma is_stale_run cutoff it w :
  is_stale fromisoformat cutoff it w =
  match it_request it with
  | None => Return false w
  | Some rq =>
      match stamp_of fromisoformat rq with
      | Some (IsoAware _ _) =>
          Raise (TypeError "can't compare offset-naive and offset-aware datetimes") w
      | _ => Return (stale_request fromisoformat cutoff rq) w
      end
  end.
Proof.
  unfold is_stale, stale_request, stamp_of, item_description.
  destruct (it_request it) as [rq|]; [|reflexivity]. simpl_opt.
  destruct (PyStr.contains deprecated_tag (default EmptyString (req_description rq)));
    [|reflexivity].
  destruct (search_as_of (default EmptyString (req_description rq))) as [stamp|];
    [|reflexivity].
  simpl_opt. destruct (fromisoformat stamp); reflexivity.
Qed.

Lemma is_stale_inv cutoff it b w w' :
  is_stale fromisoformat cutoff it w = Return b w' ->
  w' = w /\ b = stale_item fromisoformat cutoff it.
Proof.
  rewrite is_stale_run. unfold stale_item.
  destruct (it_request it) as [rq|].
  - destruct (stamp_of fromisoformat rq) as [[t|t off|]|]; intros H;
      try discriminate; injection H as <- <-; auto.
  - intros H. injection H as <- <-. auto.
Qed.

Lemma process_item_unfold cutoff ref it removed w :
  process_item fromisoformat cutoff ref it removed w =
  (stale <- is_stale fromisoformat cutoff it ;;
   if stale : bool then
     rq <- subscript "request" (it_request it) ;;
     unique_id <- request_unique_id rq ;;
     logger (DebugRemovedOldDeprecated unique_id) ;;;
     ret ((removed ++ [unique_id])%list, None)
   else
     match it_item it with
     | Some children =>
         swept <- process_items fromisoformat cutoff ref O children removed [] ;;
         let '(removed, filtered) := swept in
         modify_items (alter_path (set_item (Some filtered)) ref) ;;;
         ret (removed, Some (set_item (Some filtered) it))
     | None => ret (removed, Some it)
     end) w.
Proof.
  destruct it as [n rq ev rs [children|]]; simpl; [|reflexivity].
  unfold bind. destruct (is_stale _ _ _ w) as [[|] w1|e w1]; [reflexivity| |reflexivity].
  match goal with
  | |- match ?F O children removed [] w1 with _ => _ end = _ =>
      assert (HF : forall l i rem fil w0,
                 F i l rem fil w0 = process_items fromisoformat cutoff ref i l rem fil w0)
  end.
  { induction l as [|x l IH]; intros i rem fil w0; simpl; [reflexivity|].
    unfold bind. destruct (process_item _ _ _ x rem w0) as [[rem1 kept] w2|e w2];
      [apply IH | reflexivity]. }
  rewrite HF. reflexivity.
Qed.

Lemma requests_in_app l1 l2 : requests_in (l1 ++ l2) = (requests_in l1 ++ requests_in l2)%list.
Proof. apply flat_map_app. Qed.

Lemma requests_of_entries i items : map snd (entries_from i items) = requests_in items.
Proof.
  revert i. induction items as [|x l IH]; intros i; simpl; [reflexivity|].
  rewrite map_app, map_map, IH. reflexivity.
Qed.

Lemma requests_of_item it :
  map snd (entries_of it) =
  (match it_request it with Some rq => [rq] | None => [] end
   ++ match it_item it with Some children => requests_in children | None => [] end)%list.
Proof.
  rewrite entries_of_unfold, map_app. f_equal.
  - destruct (it_request it); reflexivity.
  - destruct (it_item it); [apply requests_of_entries | reflexivity].
Qed.

Lemma all_fresh_single cutoff it :
  stale_item fromisoformat cutoff it = false ->
  match it_item it with Some children => no_stale_request fromisoformat cutoff children | None => True end ->
  no_stale_request fromisoformat cutoff [it].
Proof.
  intros Hs Hch. unfold no_stale_request.
  change (requests_in [it]) with (map snd (entries_of it) ++ [])%list.
  rewrite app_nil_r, requests_of_item. apply Forall_app. split.
  - unfold stale_item in Hs. destruct (it_request it); constructor; [exact Hs | constructor].
  - destruct (it_item it); [exact Hch | constructor].
Qed.

Lemma all_fresh_app cutoff l1 l2 :
  no_stale_request fromisoformat cutoff l1 -> no_stale_request fromisoformat cutoff l2 -> no_stale_request fromisoformat cutoff (l1 ++ l2).
Proof. unfold no_stale_request. rewrite requests_in_app. intros. apply Forall_app. auto. Qed.

Lemma drop_stale_inv it removed w (r : list string * option item) w' :
  (rq <- subscript "request" (it_request it) ;;
   unique_id <- request_unique_id rq ;;
   logger (DebugRemovedOldDeprecated unique_id) ;;;
   ret ((removed ++ [unique_id])%list, None)) w = Return r w' ->
  exists rq uid,
    it_request it = Some rq /\ unique_id_of rq = Some uid
    /\ r = ((removed ++ [uid])%list, None)
    /\ w_log w' = (w_log w ++ [DebugRemovedOldDeprecated uid])%list
    /\ w_clock w' = w_clock w.
Proof.
  intros H. inv_bind H as rq w2 Hrq. inv_bind H as uid w3 Hu. inv_bind H as u w4 Hlog.
  unfold subscript in Hrq. destruct (it_request it) as [rq0|]; [|discriminate].
  unfold ret in Hrq, H. inv_Return Hrq. inv_Return H.
  rewrite request_unique_id_run in Hu.
  destruct (unique_id_of rq) as [uid'|] eqn:Huid; [|discriminate].
  inv_Return Hu. unfold logger in Hlog. inv_Return Hlog.
  exists rq, uid. auto.
Qed.

(** One turn of the expiry loop, when it returns: either the item is a
    stale request, dropped, whose identity is recorded and logged; or it
    is kept, with its name and request, and no stale request is left
    below it. *)
Lemma process_item_spec cutoff it : forall ref removed w removed' kept w',
  process_item fromisoformat cutoff ref it removed w = Return (removed', kept) w' ->
  exists r,
    removed' = (removed ++ r)%list
    /\ w_log w' = (w_log w ++ map DebugRemovedOldDeprecated r)%list
    /\ w_clock w' = w_clock w
    /\ match kept with
       | None =>
           exists rq uid,
             it_request it = Some rq /\ stale_request fromisoformat cutoff rq = true
             /\ unique_id_of rq = Some uid /\ r = [uid]
       | Some it' =>
           stale_item fromisoformat cutoff it = false
           /\ it_request it' = it_request it /\ it_name it' = it_name it
           /\ no_stale_request fromisoformat cutoff [it']
       end.
Proof.
  induction it as [n rq ev rs|n rq ev rs children IH] using item_ind';
    intros ref removed w removed' kept w' H; rewrite process_item_unfold in H;
    inv_bind H as stale w1 Hst; apply is_stale_inv in Hst as (-> & ->).
  - (* no [item] key *)
    destruct (stale_item fromisoformat cutoff (Item n rq ev rs None)) eqn:Hs.
    + apply drop_stale_inv in H as (rq0 & uid & Hrq & Huid & Hr & Hlog & Hclk).
      injection Hr as -> ->. exists [uid]. split; [reflexivity|].
      split; [exact Hlog|]. split; [exact Hclk|].
      exists rq0, uid. unfold stale_item in Hs. rewrite Hrq in Hs. auto.
    + simpl in H. unfold ret in H; inv_Return H. exists []. simpl. rewrite !app_nil_r.
      split; [reflexivity|]. split; [reflexivity|]. split; [reflexivity|].
      split; [reflexivity|]. split; [reflexivity|]. split; [reflexivity|].
      apply all_fresh_single; [exact Hs | exact I].
  - (* a folder *)
    destruct (stale_item fromisoformat cutoff (Item n rq ev rs (Some children))) eqn:Hs.
    + apply drop_stale_inv in H as (rq0 & uid & Hrq & Huid & Hr & Hlog & Hclk).
      injection Hr as -> ->. exists [uid]. split; [reflexivity|].
      split; [exact Hlog|]. split; [exact Hclk|].
      exists rq0, uid. unfold stale_item in Hs. rewrite Hrq in Hs. auto.
    + simpl it_item in H. inv_bind H as swept w2 Hch. destruct swept as [removed1 filtered].
      inv_bind H as u w3 Hmod. unfold ret in H; inv_Return H.
      (* the children, from any position *)
      assert (Hlist : forall i rem fil w0 rem' fil' w0',
        process_items fromisoformat cutoff ref i children rem fil w0 = Return (rem', fil') w0' ->
        exists r f,
          rem' = (rem ++ r)%list /\ fil' = (fil ++ f)%list
          /\ w_log w0' = (w_log w0 ++ map DebugRemovedOldDeprecated r)%list
          /\ w_clock w0' = w_clock w0 /\ no_stale_request fromisoformat cutoff f).
      { clear Hch Hmod Hs. induction IH as [|x l Hx _ IHl]; intros i rem fil w0 rem' fil' w0' Hrun.
        - simpl in Hrun. unfold ret in Hrun; inv_Return Hrun. exists [], []. simpl.
          rewrite !app_nil_r. repeat split. constructor.
        - simpl in Hrun. inv_bind Hrun as turn w5 Hturn. destruct turn as [rem1 kept1].
          apply Hx in Hturn as (r1 & -> & Hlog1 & Hclk1 & Hk).
          apply IHl in Hrun as (r2 & f2 & -> & -> & Hlog2 & Hclk2 & Hf2).
          destruct kept1 as [x'|].
          + destruct Hk as (_ & _ & _ & Hfx).
            exists (r1 ++ r2)%list, (x' :: f2).
            rewrite Hlog2, Hlog1, map_app, <- !app_assoc. simpl.
            repeat split; [congruence|].
            apply (all_fresh_app cutoff [x'] f2); assumption.
          + exists (r1 ++ r2)%list, f2.
            rewrite Hlog2, Hlog1, map_app, <- !app_assoc.
            repeat split; [congruence | exact Hf2]. }
      apply Hlist in Hch as (r & f & -> & Hf & Hlog & Hclk & Hfresh). simpl in Hf. subst filtered.
      assert (Hw3 : w_log w' = w_log w2 /\ w_clock w' = w_clock w2).
      { unfold modify_items in Hmod. destruct (c_item (w_doc w2)).
        - unfold set_items in Hmod. inv_Return Hmod. auto.
        - unfold ret in Hmod; inv_Return Hmod. auto. }
      destruct Hw3 as (Hl3 & Hc3).
      exists r. split; [reflexivity|]. split; [congruence|]. split; [congruence|].
      split; [reflexivity|]. split; [reflexivity|]. split; [reflexivity|].
      apply all_fresh_single; [exact Hs | exact Hfresh].
Qed.


(** The expiry loop over an array, when it returns: it has appended to
    [removed] the identities it logged, and to [filtered] items none of
    whose requests is stale. *)
Lemma process_items_spec cutoff items : forall parent i removed filtered w removed' filtered' w',
  process_items fromisoformat cutoff parent i items removed filtered w
  = Return (removed', filtered') w' ->
  exists r f,
    removed' = (removed ++ r)%list /\ filtered' = (filtered ++ f)%list
    /\ w_log w' = (w_log w ++ map DebugRemovedOldDeprecated r)%list
    /\ w_clock w' = w_clock w /\ no_stale_request fromisoformat cutoff f.
Proof.
  induction items as [|x l IHl]; intros parent i rem fil w0 rem' fil' w0' Hrun.
  - simpl in Hrun. unfold ret in Hrun; inv_Return Hrun. exists [], []. simpl.
    rewrite !app_nil_r. repeat split. constructor.
  - simpl in Hrun. inv_bind Hrun as turn w5 Hturn. destruct turn as [rem1 kept1].
    apply process_item_spec in Hturn as (r1 & -> & Hlog1 & Hclk1 & Hk).
    apply IHl in Hrun as (r2 & f2 & -> & -> & Hlog2 & Hclk2 & Hf2).
    destruct kept1 as [x'|].
    + destruct Hk as (_ & _ & _ & Hfx).
      exists (r1 ++ r2)%list, (x' :: f2).
      rewrite Hlog2, Hlog1, map_app, <- !app_assoc. simpl.
      repeat split; [congruence|].
      apply (all_fresh_app cutoff [x'] f2); assumption.
    + exists (r1 ++ r2)%list, f2.
      rewrite Hlog2, Hlog1, map_app, <- !app_assoc.
      repeat split; [congruence | exact Hf2].
Qed.

(** The fate of an entry in the expiry loop, when it returns: stale, its
    identity is recorded; otherwise it is still an entry of the result. *)
Lemma process_items_entry cutoff rq : forall p items parent i removed filtered w removed' filtered' w',
  process_items fromisoformat cutoff parent i items removed filtered w
  = Return (removed', filtered') w' ->
  entry_at p rq items ->
  if stale_request fromisoformat cutoff rq
  then exists uid, unique_id_of rq = Some uid /\ In uid removed'
  else exists p', entry_at p' rq filtered'.
Proof.
  induction p as [|j q IHq]; intros items parent i removed filtered w removed' filtered' w' Hrun Hat;
    [destruct Hat|].
  revert j parent i removed filtered w Hrun Hat.
  induction items as [|x l IHl]; intros j parent i removed filtered w Hrun Hat;
    rewrite entry_at_cons in Hat; [destruct Hat|].
  simpl in Hrun. inv_bind Hrun as turn w1 Hturn. destruct turn as [removed1 kept].
  destruct j as [|j].
  - (* the entry is [x] or below it *)
    simpl in Hat.
    pose proof (process_items_spec _ _ _ _ _ _ _ _ _ _ Hrun) as (r2 & f2 & -> & -> & _).
    destruct q as [|k q].
    + pose proof (process_item_spec _ _ _ _ _ _ _ _ Hturn) as (r1 & -> & _ & _ & Hk).
      destruct kept as [x'|].
      * destruct Hk as (Hs & Hrq & _). unfold stale_item in Hs. rewrite Hat in Hs.
        rewrite Hs. exists [length filtered]. apply entry_at_app.
        rewrite entry_at_cons, list_lookup_middle by reflexivity. congruence.
      * destruct Hk as (rq0 & uid & Hrq & Hs & Hu & ->).
        assert (rq0 = rq) by congruence. subst rq0. rewrite Hs.
        exists uid. split; [exact Hu|]. rewrite !in_app_iff. simpl. auto.
    + destruct Hat as (Hnone & Hch).
      destruct (it_item x) as [children|] eqn:Hitem; [|destruct Hch].
      rewrite process_item_unfold in Hturn. inv_bind Hturn as stale w2 Hst.
      apply is_stale_inv in Hst as (-> & ->). unfold stale_item in Hturn.
      rewrite Hnone, Hitem in Hturn.
      inv_bind Hturn as swept w3 Hsw. destruct swept as [removed2 fch].
      inv_bind Hturn as u w4 Hmod. unfold ret in Hturn; inv_Return Hturn.
      pose proof (IHq _ _ _ _ _ _ _ _ _ Hsw Hch) as Hfate.
      destruct (stale_request fromisoformat cutoff rq).
      * destruct Hfate as (uid & Hu & Hin). exists uid. split; [exact Hu|].
        apply in_app_iff. auto.
      * destruct Hfate as (q' & Hq'). exists (length filtered :: q').
        apply entry_at_app. rewrite entry_at_cons, list_lookup_middle by reflexivity.
        destruct q' as [|k' q']; [destruct Hq'|].
        rewrite it_request_set_item, it_item_set_item. auto.
  - (* the entry is further in the array *)
    simpl in Hat. eapply IHl; [exact Hrun|]. rewrite entry_at_cons. exact Hat.
Qed.

(** What the expiry pass has done when it returns. *)
Lemma _remove_old_deprecated_inv removed w w' cutoff :
  cutoff = w_clock w (w_ticks w) - deprecation_days * us_per_day ->
  _remove_old_deprecated fromisoformat deprecation_days w = Return removed w' ->
  w_clock w' = w_clock w
  /\ w_log w' = (w_log w ++ map DebugRemovedOldDeprecated removed)%list
  /\ no_stale_request fromisoformat cutoff (items_in w')
  /\ forall p rq,
       entry_at p rq (items_in w) ->
       if stale_request fromisoformat cutoff rq
       then exists uid, unique_id_of rq = Some uid /\ In uid removed
       else exists p', entry_at p' rq (items_in w').
Proof.
  unfold _remove_old_deprecated. intros Hcutoff H. revert cutoff Hcutoff.
  inv_bind H as now w1 Hnow. unfold utcnow in Hnow. inv_Return Hnow.
  inv_bind H as cutoff' w2 Hcut.
  assert (Hc : cutoff' = w_clock w (w_ticks w) - deprecation_days * us_per_day
               /\ w2 = {| w_doc := w_doc w; w_clock := w_clock w;
                          w_ticks := S (w_ticks w); w_log := w_log w |}).
  { unfold minus_days in Hcut.
    destruct (999999999 <? Z.abs deprecation_days); [discriminate|].
    destruct ((0 <=? _) && (_ <? datetime_end)); [|discriminate].
    unfold ret in Hcut. inv_Return Hcut. auto. }
  destruct Hc as (Hc' & Hw2). clear Hcut. subst w2.
  inv_bind H as items w3 Hget. unfold get_items in Hget. inv_Return Hget.
  simpl w_doc in H. fold (items_in w) in H.
  inv_bind H as swept w4 Hsw. destruct swept as [removed0 filtered].
  inv_bind H as u w5 Hset. unfold ret in H; inv_Return H.
  unfold set_items in Hset. inv_Return Hset.
  pose proof (process_items_spec _ _ _ _ _ _ _ _ _ _ Hsw) as (r & f & Hr & Hf & Hlog & Hclk & Hfresh).
  simpl in Hr, Hf. subst removed filtered. unfold items_in at 1 3. simpl.
  intros cutoff ->.
  split; [exact Hclk|]. split; [exact Hlog|]. split; [exact Hfresh|].
  intros p rq Hat. exact (process_items_entry _ _ _ _ _ _ _ _ _ _ _ _ Hsw Hat).
Qed.


(** *** [merge], step by step *)

Lemma merge_inv routes res w w' :
  merge isoformat fromisoformat deprecation_days routes w = Return res w' ->
  exists w1 w2 w3 w4 w5 w6 res0 res1 deprecated removed,
    is_Some (c_item (w_doc w))
    /\ same_heap w w1
    /\ new_SyncResult w1 = Return res0 w2
    /\ _ensure_folders
         (map fst (_organize_by_folder
                     (List.filter
                        (fun r => negb (index_mem (unique_id r) (index_of (items_in w))))
                        routes))) w2 = Return tt w3
    /\ for_each routes (process_route isoformat (index_of (items_in w))) res0 w3
       = Return res1 w4
    /\ _mark_deprecated isoformat (index_of (items_in w)) (map unique_id routes) w4
       = Return deprecated w5
    /\ _remove_old_deprecated fromisoformat deprecation_days w5 = Return removed w6
    /\ res = extend_removed removed (extend_deprecated deprecated res1)
    /\ w_doc w' = w_doc w6 /\ w_clock w' = w_clock w6.
Proof.
  unfold merge, try_merger. intros H.
  match type of H with
  | match ?body w with _ => _ end = _ => destruct (body w) as [res' w''|e w''] eqn:Hbody
  end; [|discriminate].
  inv_Return H.
  inv_bind Hbody as u w0 Hval.
  assert (Hv : is_Some (c_item (w_doc w)) /\ w0 = w).
  { unfold validate_postman_collection in Hval.
    destruct (c_info (w_doc w)) as [info|]; [|discriminate].
    destruct (c_item (w_doc w)) as [items|]; [|discriminate].
    destruct (info_name info); [|discriminate].
    unfold ret in Hval. inv_Return Hval. split; [eexists; reflexivity | reflexivity]. }
  destruct Hv as (Hsome & ->). clear Hval.
  inv_bind Hbody as index w1 Hidx.
  destruct (_index_requests_spec w) as (w1' & Hheap & Hrun). rewrite Hrun in Hidx.
  destruct (methods_ok (entries_from 0 (items_in w))); [|discriminate].
  inv_Return Hidx.
  inv_bind Hbody as res0 w2 Hnew.
  inv_bind Hbody as u1 w3 Hens. destruct u1.
  inv_bind Hbody as res1 w4 Hloop.
  inv_bind Hbody as deprecated w5 Hmark.
  inv_bind Hbody as removed w6 Hrem.
  inv_bind Hbody as u2 w7 Hlog. unfold logger in Hlog. inv_Return Hlog.
  unfold ret in Hbody. inv_Return Hbody.
  exists w1, w2, w3, w4, w5, w6, res0, res1, deprecated, removed.
  repeat (split; [first [assumption | reflexivity]|]). split; reflexivity.
Qed.

Lemma same_heap_items w w' : same_heap w w' -> items_in w' = items_in w.
Proof. unfold same_heap, items_in. intros (-> & _). reflexivity. Qed.

(** Up to the expiry pass, [merge] leaves in place an entry that carries
    the tag and whose identity no route has. *)
Lemma merge_stays_until_expiry p rq routes w w1 w2 w3 w4 w5 res0 res1 deprecated :
  entry_at p rq (items_in w) ->
  PyStr.contains deprecated_tag (default EmptyString (req_description rq)) = true ->
  (forall r, In r routes -> unique_id_of rq <> Some (unique_id r)) ->
  same_heap w w1 ->
  new_SyncResult w1 = Return res0 w2 ->
  _ensure_folders
    (map fst (_organize_by_folder
                (List.filter
                   (fun r => negb (index_mem (unique_id r) (index_of (items_in w))))
                   routes))) w2 = Return tt w3 ->
  for_each routes (process_route isoformat (index_of (items_in w))) res0 w3
  = Return res1 w4 ->
  _mark_deprecated isoformat (index_of (items_in w)) (map unique_id routes) w4
  = Return deprecated w5 ->
  stays p rq (w_clock w) w5.
Proof.
  intros Hat Htag Hid Hheap Hnew Hens Hloop Hmark.
  assert (H1 : stays p rq (w_clock w) w1).
  { split; [apply Hheap | rewrite (same_heap_items _ _ Hheap); exact Hat]. }
  assert (H2 : stays p rq (w_clock w) w2).
  { apply new_SyncResult_inv in Hnew as (Hdoc & Hclk & _). destruct H1 as (Hc1 & Hat1).
    split; [congruence|]. unfold items_in in *. rewrite Hdoc. exact Hat1. }
  assert (H3 : stays p rq (w_clock w) w3).
  { apply _ensure_folders_inv in Hens as (created & Hc & _ & Hclk & _).
    destruct H2 as (Hc2 & Hat2). split; [congruence|].
    rewrite (items_in_Some _ _ Hc). apply entry_at_app. exact Hat2. }
  assert (H4 : stays p rq (w_clock w) w4).
  { revert Hloop. apply process_routes_stays; [|exact H3].
    intros r Hin Hget. apply index_of_sound in Hget as (it & rq' & Hl & Hrq & Hu).
    apply entry_at_lookup in Hat as (it' & Hl' & Hrq').
    apply (Hid r Hin). congruence. }
  revert Hmark. apply _mark_deprecated_stays; assumption.
Qed.

(** Up to the expiry pass, [merge] keeps at its path an entry with a
    property that only tagged requests have and that the updates of the
    routes with the entry's identity preserve. *)
Lemma merge_tracks_until_expiry p rq (P : request -> Prop)
    routes w w1 w2 w3 w4 w5 res0 res1 deprecated :
  entry_at p rq (items_in w) ->
  P rq ->
  (forall rq', P rq' ->
     PyStr.contains deprecated_tag (default EmptyString (req_description rq')) = true) ->
  (forall now r rq',
     In r routes -> unique_id_of rq = Some (unique_id r) ->
     P rq' -> P (update_request_dict isoformat now r rq')) ->
  same_heap w w1 ->
  new_SyncResult w1 = Return res0 w2 ->
  _ensure_folders
    (map fst (_organize_by_folder
                (List.filter
                   (fun r => negb (index_mem (unique_id r) (index_of (items_in w))))
                   routes))) w2 = Return tt w3 ->
  for_each routes (process_route isoformat (index_of (items_in w))) res0 w3
  = Return res1 w4 ->
  _mark_deprecated isoformat (index_of (items_in w)) (map unique_id routes) w4
  = Return deprecated w5 ->
  tracks p P (w_clock w) w5.
Proof.
  intros Hat HP Htag Hupd Hheap Hnew Hens Hloop Hmark.
  assert (H1 : stays p rq (w_clock w) w1).
  { split; [apply Hheap | rewrite (same_heap_items _ _ Hheap); exact Hat]. }
  assert (H2 : stays p rq (w_clock w) w2).
  { apply new_SyncResult_inv in Hnew as (Hdoc & Hclk & _). destruct H1 as (Hc1 & Hat1).
    split; [congruence|]. unfold items_in in *. rewrite Hdoc. exact Hat1. }
  assert (H3 : tracks p P (w_clock w) w3).
  { apply _ensure_folders_inv in Hens as (created & Hc & _ & Hclk & _).
    destruct H2 as (Hc2 & Hat2). split; [congruence|]. exists rq. split; [|exact HP].
    rewrite (items_in_Some _ _ Hc). apply entry_at_app. exact Hat2. }
  assert (H4 : tracks p P (w_clock w) w4).
  { revert Hloop. apply process_routes_tracks; [|exact H3].
    intros now r rq' Hin Hget. apply Hupd; [exact Hin|].
    apply index_of_sound in Hget as (it & rq0 & Hl & Hrq & Hu).
    apply entry_at_lookup in Hat as (it' & Hl' & Hrq'). congruence. }
  revert Hmark. apply _mark_deprecated_tracks; assumption.
Qed.

Lemma lookup_in_requests p it rq items :
  lookup_path p items = Some it -> it_request it = Some rq -> In rq (requests_in items).
Proof.
  intros Hl Hrq. rewrite <- (requests_of_entries O). apply in_map_iff.
  exists (p, rq). split; [reflexivity|]. apply in_entries_lookup. eauto.
Qed.

End MergerProperties.

(** ** The lifecycle of a deprecated entry *)

Lemma outcome_eta {A : Type} (d : A) (o : outcome A) :
  Scenario.is_return o = true -> o = Return (Scenario.result_of d o) (Scenario.final_world o).
Proof. destruct o; [reflexivity | discriminate]. Qed.

Section Lifecycle.

Variable isoformat : Z -> string.
Variable fromisoformat : string -> iso_parse.
Variable deprecation_days : Z.

(** C4. An entry (a request item reached through folders) whose description
    already carries the deprecation tag, and whose identity no route of the
    list has, comes out of [merge] with its request as it was, description
    and stamp included; the one way it can be missing is that the expiry
    pass removed it, and then its identity is in [routes_removed]. *)
Theorem deprecation_marker_kept (routes : list Route) (w w' : world) (res : SyncResult)
    (p : path_ref) (rq : request) :
  entry_at p rq (items_in w) ->
  PyStr.contains deprecated_tag (default EmptyString (req_description rq)) = true ->
  (forall r, In r routes -> unique_id_of rq <> Some (unique_id r)) ->
  merge isoformat fromisoformat deprecation_days routes w = Return res w' ->
  (exists p', entry_at p' rq (items_in w'))
  \/ (exists uid, unique_id_of rq = Some uid /\ In uid (routes_removed res)).
Proof.
  intros Hat Htag Hid Hmerge.
  apply merge_inv in Hmerge
    as (w1 & w2 & w3 & w4 & w5 & w6 & res0 & res1 & deprecated & removed
        & _ & Hheap & Hnew & Hens & Hloop & Hmark & Hrem & -> & Hdoc & _).
  pose proof (merge_stays_until_expiry _ _ _ _ _ _ _ _ _ _ _ _ _
                Hat Htag Hid Hheap Hnew Hens Hloop Hmark) as (_ & Hat5).
  pose proof (_remove_old_deprecated_inv _ _ _ _ _ _ eq_refl Hrem) as (_ & _ & _ & Hfate).
  specialize (Hfate p rq Hat5).
  destruct (stale_request fromisoformat _ rq).
  - right. destruct Hfate as (uid & Hu & Hin). exists uid. split; [exact Hu|].
    simpl. apply in_app_iff. auto.
  - left. unfold items_in in *. rewrite Hdoc. exact Hfate.
Qed.

(** C5. An entry whose description opens with the deprecation marker of a
    stamp that reads as the naive date [T], whatever the routes of the
    list. A [merge] run on the day that starts at
    [T + deprecation_days - 1 day] keeps it at some path, still marked with
    that stamp, its request as it was or as a route with its identity has
    rewritten it. A [merge] run on the day that starts at
    [T + deprecation_days + 1 day] leaves no request with that marker in
    the tree and records in [routes_removed] the identity the entry has
    when it is removed; that is the identity it had at the start when the
    URL built for every route with that identity reads back as the route's
    path. *)
Theorem expiry_boundary (routes : list Route) (w w' : world) (res : SyncResult)
    (p : path_ref) (rq : request) (stamp : string) (T : Z) :
  entry_at p rq (items_in w) ->
  marked_since stamp rq ->
  stamp <> EmptyString ->
  all_chars stamp_char stamp = true ->
  fromisoformat stamp = IsoNaive T ->
  merge isoformat fromisoformat deprecation_days routes w = Return res w' ->
  (runs_on_day w (T + (deprecation_days - 1) * us_per_day) ->
   exists p' rq', entry_at p' rq' (items_in w')
                  /\ marked_since stamp rq' /\ synced_from routes rq rq')
  /\ (runs_on_day w (T + (deprecation_days + 1) * us_per_day) ->
      (forall p' it rq', lookup_path p' (items_in w') = Some it ->
                         it_request it = Some rq' -> ~ marked_since stamp rq')
      /\ exists rq' uid,
           synced_from routes rq rq' /\ unique_id_of rq' = Some uid
           /\ In uid (routes_removed res)
           /\ ((forall r, In r routes -> unique_id_of rq = Some (unique_id r) ->
                          _extract_path (_build_url (full_path r)) = full_path r) ->
               unique_id_of rq = Some uid)).
Proof.
  intros Hat Hm Hne Hchars Hparse Hmerge.
  apply merge_inv in Hmerge
    as (w1 & w2 & w3 & w4 & w5 & w6 & res0 & res1 & deprecated & removed
        & _ & Hheap & Hnew & Hens & Hloop & Hmark & Hrem & -> & Hdoc & _).
  assert (Htr : tracks p (fun rq' => marked_since stamp rq' /\ synced_from routes rq rq')
                       (w_clock w) w5).
  { apply (merge_tracks_until_expiry isoformat p rq _ routes w w1 w2 w3 w4 w5
             res0 res1 deprecated); try assumption.
    - split; [exact Hm | left; reflexivity].
    - intros rq' (Hm' & _). exact (marked_tagged _ _ Hm').
    - intros now r rq' Hin Hid (Hm' & _). split.
      + apply update_request_dict_marked; assumption.
      + right. exists r. repeat split; assumption. }
  destruct Htr as (Hclk5 & rq5 & Hat5 & Hm5 & Hsync).
  pose proof (_remove_old_deprecated_inv _ _ _ _ _ _ eq_refl Hrem)
    as (_ & _ & Hfresh & Hfate).
  specialize (Hfate p rq5 Hat5).
  assert (Hst : forall cutoff rq', marked_since stamp rq' ->
                                   stale_request fromisoformat cutoff rq' = (T <? cutoff)).
  { intros cutoff rq' Hm'. unfold stale_request.
    rewrite (marked_stamp_of fromisoformat _ _ Hne Hchars Hm'), Hparse. reflexivity. }
  rewrite (Hst _ _ Hm5) in Hfate. rewrite Hclk5 in Hfate, Hfresh.
  assert (Hitems : items_in w' = items_in w6) by (unfold items_in; rewrite Hdoc; reflexivity).
  split; intros Hday; specialize (Hday (w_ticks w5)); unfold us_per_day in *.
  - destruct (T <? _) eqn:Hlt; [apply Z.ltb_lt in Hlt; lia|].
    destruct Hfate as (p' & Hat'). exists p', rq5. rewrite Hitems. auto.
  - destruct (T <? _) eqn:Hlt; [|apply Z.ltb_ge in Hlt; lia].
    split.
    + intros p' it rq' Hl Hrq Hm'. rewrite Hitems in Hl.
      pose proof (lookup_in_requests _ _ _ _ Hl Hrq) as Hin.
      unfold no_stale_request in Hfresh. rewrite Forall_forall in Hfresh.
      apply list_elem_of_In in Hin. apply Hfresh in Hin.
      rewrite (Hst _ _ Hm') in Hin. congruence.
    + destruct Hfate as (uid & Hu & Hin). exists rq5, uid.
      split; [exact Hsync|]. split; [exact Hu|]. split.
      * simpl. apply in_app_iff. auto.
      * intros Hround. destruct Hsync as [->|(r & Hin' & Hid & Hmeth & Hurl)]; [exact Hu|].
        rewrite Hid, <- Hu. unfold unique_id_of, unique_id. rewrite Hmeth, Hurl.
        cbn [fmap option_fmap option_map default from_option]. cbv [id].
        rewrite (Hround r Hin' Hid). reflexivity.
Qed.

(** C7, as the code has it. An entry whose description carries the tag but
    no stamp, or a stamp that [fromisoformat] rejects: the staleness check
    returns [false] for its item in the world it was run in (the
    [ValueError] is passed over: nothing is raised, nothing is logged), an
    expiry pass that returns has kept the entry, with its request as it
    was, and has logged its removals and nothing else, and a [merge] that
    returns, of routes none of which has the entry's identity, has kept the
    entry too. *)
Theorem unparsable_stamp_passed_over (w w' : world) (removed : list string)
    (p : path_ref) (rq : request) :
  entry_at p rq (items_in w) ->
  PyStr.contains deprecated_tag (default EmptyString (req_description rq)) = true ->
  search_as_of (default EmptyString (req_description rq)) = None
  \/ (exists stamp,
        search_as_of (default EmptyString (req_description rq)) = Some stamp
        /\ fromisoformat stamp = IsoValueError) ->
  (forall cutoff it w0,
     it_request it = Some rq -> is_stale fromisoformat cutoff it w0 = Return false w0)
  /\ (_remove_old_deprecated fromisoformat deprecation_days w = Return removed w' ->
      (exists p', entry_at p' rq (items_in w'))
      /\ w_log w' = (w_log w ++ map DebugRemovedOldDeprecated removed)%list)
  /\ (forall routes res w'',
        (forall r, In r routes -> unique_id_of rq <> Some (unique_id r)) ->
        merge isoformat fromisoformat deprecation_days routes w = Return res w'' ->
        exists p', entry_at p' rq (items_in w'')).
Proof.
  intros Hat Htag Hbad.
  assert (Hstamp : stamp_of fromisoformat rq = None
                   \/ stamp_of fromisoformat rq = Some IsoValueError).
  { unfold stamp_of. rewrite Htag.
    destruct Hbad as [->|(stamp & -> & Hv)]; [left; reflexivity|].
    right. simpl_opt. rewrite Hv. reflexivity. }
  assert (Hst : forall cutoff, stale_request fromisoformat cutoff rq = false).
  { intros cutoff. unfold stale_request. destruct Hstamp as [->| ->]; reflexivity. }
  split; [|split].
  - intros cutoff it w0 Hrq. rewrite is_stale_run, Hrq.
    destruct Hstamp as [->| ->]; rewrite ?Hst; reflexivity.
  - intros Hrem.
    pose proof (_remove_old_deprecated_inv _ _ _ _ _ _ eq_refl Hrem)
      as (_ & Hlog & _ & Hfate).
    specialize (Hfate p rq Hat). rewrite Hst in Hfate. auto.
  - intros routes res w'' Hid Hmerge.
    apply merge_inv in Hmerge
      as (w1 & w2 & w3 & w4 & w5 & w6 & res0 & res1 & deprecated & removed'
          & _ & Hheap & Hnew & Hens & Hloop & Hmark & Hrem & _ & Hdoc & _).
    pose proof (merge_stays_until_expiry _ _ _ _ _ _ _ _ _ _ _ _ _
                  Hat Htag Hid Hheap Hnew Hens Hloop Hmark) as (_ & Hat5).
    pose proof (_remove_old_deprecated_inv _ _ _ _ _ _ eq_refl Hrem) as (_ & _ & _ & Hfate).
    specialize (Hfate p rq Hat5). rewrite Hst in Hfate.
    unfold items_in in *. rewrite Hdoc. exact Hfate.
Qed.

(** C1, as the code has it. A [merge] of the routes into the document a
    first [merge] of the same routes has left reports every route again:
    as updated those whose identity the document indexes, as added the
    others; so its result has changes as soon as there is a route. *)
Theorem second_merge_reports_every_route (routes : list Route) (w w1 w2 : world)
    (res res' : SyncResult) :
  merge isoformat fromisoformat deprecation_days routes w = Return res w1 ->
  merge isoformat fromisoformat deprecation_days routes w1 = Return res' w2 ->
  routes_updated res'
  = List.filter (fun r => index_mem (unique_id r) (index_of (items_in w1))) routes
  /\ routes_added res'
     = List.filter (fun r => negb (index_mem (unique_id r) (index_of (items_in w1)))) routes
  /\ (routes <> [] -> has_changes res' = true).
Proof.
  intros _ Hmerge.
  apply merge_inv in Hmerge
    as (w1' & w2' & w3 & w4 & w5 & w6 & res0 & res1 & deprecated & removed
        & _ & _ & Hnew & _ & Hloop & _ & _ & -> & _).
  apply new_SyncResult_inv in Hnew as (_ & _ & Ha0 & Hu0 & _).
  apply process_routes_result in Hloop as (Hu & Ha & _).
  rewrite Hu0 in Hu. rewrite Ha0 in Ha. simpl in Hu, Ha. simpl.
  split; [exact Hu|]. split; [exact Ha|].
  intros Hne. unfold has_changes. simpl. rewrite Hu, Ha.
  destruct routes as [|r routes]; [congruence|]. simpl.
  destruct (index_mem (unique_id r) (index_of (items_in w1))); simpl;
    rewrite ?orb_true_r; reflexivity.
Qed.

End Lifecycle.

(** ** URLs *)

Lemma split_not_nil sep s : PyStr.split sep s <> [].
Proof.
  destruct s as [|c r]; simpl; [discriminate|].
  destruct (Ascii.eqb c sep); [discriminate|].
  destruct (PyStr.split sep r); discriminate.
Qed.

(** [sep.join(s.split(sep)) == s] *)
Lemma join_split sep s :
  PyStr.join (String sep EmptyString) (PyStr.split sep s) = s.
Proof.
  unfold PyStr.join. induction s as [|c r IH]; [reflexivity|]. simpl.
  destruct (Ascii.eqb_spec c sep) as [->|Hne].
  - pose proof (split_not_nil sep r) as Hnil.
    destruct (PyStr.split sep r) as [|h t]; [congruence|].
    simpl in *. rewrite IH. reflexivity.
  - pose proof (split_not_nil sep r) as Hnil.
    destruct (PyStr.split sep r) as [|h t]; [congruence|].
    simpl in *. destruct t as [|h' t]; rewrite <- IH; reflexivity.
Qed.

Lemma filter_nonempty_id (segs : list string) :
  Forall (fun seg => seg <> EmptyString) segs ->
  List.filter (fun p => negb (PyStr.is_empty p)) segs = segs.
Proof.
  induction 1 as [|seg segs Hseg _ IH]; [reflexivity|]. simpl.
  destruct seg; [exfalso; apply Hseg; reflexivity|]. simpl. rewrite IH. reflexivity.
Qed.

Lemma extract_build_url p :
  PyStr.startswith "/" p = true ->
  Forall (fun seg => seg <> EmptyString) (tail (PyStr.split "/" p)) ->
  _extract_path (_build_url p) = p.
Proof.
  intros Hstart Hsegs. destruct p as [|c r]; [discriminate|].
  unfold PyStr.startswith in Hstart.
  change (String.prefix "/" (String c r))
    with (if ascii_dec "/" c then String.prefix EmptyString r else false) in Hstart.
  destruct (ascii_dec "/" c) as [<-|]; [|discriminate]. clear Hstart.
  unfold _build_url, _extract_path. simpl_opt.
  change (PyStr.split "/" (String "/" r)) with (EmptyString :: PyStr.split "/" r) in *.
  simpl in Hsegs. simpl List.filter. rewrite (filter_nonempty_id _ Hsegs).
  cbv [id]. rewrite join_split. reflexivity.
Qed.

Lemma it_request_build_request_item route desc :
  it_request (build_request_item route desc)
  = Some {| req_method := Some (method_value (method route));
            req_header := [];
            req_url := Some (_build_url (full_path route));
            req_description := Some desc |}.
Proof.
  unfold build_request_item.
  destruct (nonempty (TestScriptGenerator.generate_test_script route));
    destruct (route_protected route);
    rewrite ?it_request_ensure_auth, ?it_request_set_event; reflexivity.
Qed.

(** C10. For a path that starts with "/" and whose segments after it are
    all non-empty, the path extracted from the URL built for it is the path
    itself; so the request item built for a route with such a [full_path]
    has the route's unique_id as its identity, and an index taken after
    [_add_request] has added it holds that unique_id. *)
Theorem build_url_extract_path_round_trip (isoformat : Z -> string) (p : string) :
  PyStr.startswith "/" p = true ->
  Forall (fun seg => seg <> EmptyString) (tail (PyStr.split "/" p)) ->
  _extract_path (_build_url p) = p
  /\ (forall route desc,
        full_path route = p ->
        it_request (build_request_item route desc) ≫= unique_id_of
        = Some (unique_id route))
  /\ (forall route w w' index w'',
        full_path route = p ->
        _add_request isoformat route w = Return tt w' ->
        _index_requests w' = Return index w'' ->
        index_mem (unique_id route) index = true).
Proof.
  intros Hstart Hsegs. pose proof (extract_build_url p Hstart Hsegs) as Hround.
  assert (Hid : forall route desc,
             full_path route = p ->
             it_request (build_request_item route desc) ≫= unique_id_of
             = Some (unique_id route)).
  { intros route desc Hp. rewrite it_request_build_request_item. simpl_opt.
    unfold unique_id_of, unique_id.
    cbn [req_method req_url fmap option_fmap option_map default from_option].
    cbv [id]. rewrite Hp, Hround. reflexivity. }
  split; [exact Hround|]. split; [exact Hid|].
  intros route w w' index w'' Hp Hadd Hidx.
  apply _add_request_inv in Hadd
    as (items0 & i & folder & desc & _ & _ & Hi & (children & Hch) & Hc & _).
  specialize (Hid route desc Hp). clear Hp Hround Hstart Hsegs.
  destruct (_index_requests_spec w') as (w1 & _ & Hrun). rewrite Hrun in Hidx.
  destruct (methods_ok (entries_from 0 (items_in w'))); [|discriminate].
  inv_Return Hidx.
  destruct (it_request (build_request_item route desc)) as [rq|] eqn:Hrq; [|discriminate].
  simpl_opt.
  apply (index_of_complete _ [i; length children] (build_request_item route desc) rq);
    [|exact Hrq|exact Hid].
  rewrite (items_in_Some _ _ Hc), lookup_path_cons, list_lookup_alter_eq, Hi. simpl_opt.
  unfold folder_append. rewrite it_item_set_item, Hch. simpl_opt.
  apply list_lookup_middle. reflexivity.
Qed.

(** ** The frame of an update *)

Lemma folders_append_keys folder route folders name :
  In name (map fst (folders_append folder route folders)) ->
  name = folder \/ In name (map fst folders).
Proof.
  induction folders as [|[k v] rest IH]; simpl.
  - intros [<-|[]]. left. reflexivity.
  - destruct (String.eqb k folder); simpl; [tauto|].
    intros [<-|H]; [tauto|]. apply IH in H. tauto.
Qed.

Lemma _organize_by_folder_keys routes name :
  In name (map fst (_organize_by_folder routes)) ->
  exists r, In r routes /\ folder_name r = name.
Proof.
  unfold _organize_by_folder.
  assert (H : forall acc,
             In name (map fst (fold_left
                                 (fun folders route =>
                                    folders_append (folder_name route) route folders)
                                 routes acc)) ->
             In name (map fst acc) \/ exists r, In r routes /\ folder_name r = name).
  { induction routes as [|r routes IH]; intros acc Hin; simpl in Hin; [left; exact Hin|].
    apply IH in Hin as [Hin|(r' & Hr' & Hn)].
    - apply folders_append_keys in Hin as [->|Hin]; [|left; exact Hin].
      right. exists r. split; [left; reflexivity | reflexivity].
    - right. exists r'. split; [right; exact Hr' | exact Hn]. }
  intros Hin. apply H in Hin as [[]|Hin]. exact Hin.
Qed.

Lemma ensure_auth_frame it :
  it_name (_ensure_auth_prerequest it) = it_name it
  /\ it_response (_ensure_auth_prerequest it) = it_response it
  /\ exists extra,
       default [] (it_event (_ensure_auth_prerequest it))
       = (default [] (it_event it) ++ extra)%list
       /\ (extra = []
           \/ (extra = [auth_event]
               /\ existsb is_prerequest (default [] (it_event it)) = false)).
Proof.
  unfold _ensure_auth_prerequest.
  destruct (existsb is_prerequest (default [] (it_event it))) eqn:Hpre;
    destruct it as [n rq ev rs ch]; simpl.
  - split; [reflexivity|]. split; [reflexivity|]. exists []. rewrite app_nil_r. auto.
  - split; [reflexivity|]. split; [reflexivity|]. exists [auth_event]. auto.
Qed.

Lemma length_alter_path f : forall p items, length (alter_path f p items) = length items.
Proof.
  intros [|i [|j q]] items; [reflexivity | apply length_alter | apply length_alter].
Qed.

(** C9. [_update_request] always returns, and what it does to the
    collection is a mutation of the one item its reference leads to, which
    stays at that reference; that mutation keeps the item's name, its
    responses, its children and its request's headers, and it keeps the
    events there were, after which it may put one event, the auth
    prerequest hook, when the route is protected and no prerequest event
    was there; the top-level array keeps its length. The folders [merge]
    asks for are named by routes the index does not hold, and
    [_ensure_folders] appends folders only, each named by a name it was
    asked for. *)
Theorem update_request_frame (isoformat : Z -> string) (ref : path_ref) (route : Route)
    (w : world) :
  exists w',
    _update_request isoformat ref route w = Return tt w'
    /\ items_in w'
       = alter_path (update_item isoformat (w_clock w (w_ticks w)) route) ref (items_in w)
    /\ lookup_path ref (items_in w')
       = update_item isoformat (w_clock w (w_ticks w)) route <$> lookup_path ref (items_in w)
    /\ length (items_in w') = length (items_in w)
    /\ (forall now it,
          let it' := update_item isoformat now route it in
          it_name it' = it_name it
          /\ it_response it' = it_response it
          /\ it_item it' = it_item it
          /\ (req_header <$> it_request it') = (req_header <$> it_request it)
          /\ exists extra,
               default [] (it_event it') = (default [] (it_event it) ++ extra)%list
               /\ (extra = []
                   \/ (extra = [auth_event]
                       /\ route_protected route = true
                       /\ existsb is_prerequest (default [] (it_event it)) = false)))
    /\ (forall index routes name,
          In name (map fst (_organize_by_folder
                              (List.filter (fun r => negb (index_mem (unique_id r) index))
                                           routes))) ->
          exists r, In r routes /\ index_mem (unique_id r) index = false
                    /\ folder_name r = name)
    /\ (forall folder_names w0 w0',
          _ensure_folders folder_names w0 = Return tt w0' ->
          exists created,
            c_item (w_doc w0') = Some (items_in w0 ++ map new_folder created)%list
            /\ forall name, In name created -> In name folder_names).
Proof.
  destruct (_update_request_run isoformat ref route w) as (w' & Hrun & Hitems & _).
  exists w'. split; [exact Hrun|]. split; [exact Hitems|].
  split; [rewrite Hitems; apply lookup_path_alter_path|].
  split; [rewrite Hitems; apply length_alter_path|].
  split; [|split].
  - intros now it it'. subst it'. unfold update_item.
    set (it1 := set_request (update_request_dict isoformat now route <$> it_request it) it).
    assert (H1 : it_name it1 = it_name it /\ it_response it1 = it_response it
                 /\ it_item it1 = it_item it /\ it_event it1 = it_event it
                 /\ (req_header <$> it_request it1) = (req_header <$> it_request it)).
    { subst it1. destruct it as [n [rq|] ev rs ch]; simpl; auto 6. }
    destruct H1 as (Hn & Hr & Hi & He & Hh).
    destruct (route_protected route).
    + destruct (ensure_auth_frame it1) as (Hn' & Hr' & extra & Hev & Hextra).
      rewrite it_item_ensure_auth, it_request_ensure_auth, Hn', Hr', Hn, Hr, Hi, Hh.
      repeat (split; [reflexivity|]). exists extra. rewrite Hev, He.
      split; [reflexivity|]. destruct Hextra as [->|(-> & Hpre)]; [left; reflexivity|].
      right. rewrite <- He. auto.
    + rewrite Hn, Hr, Hi, Hh. repeat (split; [reflexivity|]).
      exists []. rewrite app_nil_r, He. auto.
  - intros index routes name Hin.
    apply _organize_by_folder_keys in Hin as (r & Hr & Hname).
    apply filter_In in Hr as (Hr & Hnew). exists r.
    split; [exact Hr|]. split; [|exact Hname].
    destruct (index_mem (unique_id r) index); [discriminate | reflexivity].
  - intros folder_names w0 w0' Hens.
    apply _ensure_folders_inv in Hens as (created & Hc & Hsub & _).
    exists created. auto.
Qed.

(** ** The theorems at the scenarios *)

Lemma deprecation_marker_kept_witness :
  let run := Scenario.merger [Scenario.token_route] Scenario.day_before in
  (exists p', entry_at p' (Scenario.users_request Scenario.deprecated_desc)
                       (items_in (Scenario.final_world run)))
  \/ (exists uid,
        unique_id_of (Scenario.users_request Scenario.deprecated_desc) = Some uid
        /\ In uid (routes_removed (Scenario.result_of Scenario.empty_result run))).
Proof.
  intros run.
  apply (deprecation_marker_kept PyDatetime.isoformat PyDatetime.fromisoformat 30
           [Scenario.token_route] Scenario.day_before _ _ [O; O]).
  - simpl. split; reflexivity.
  - vm_compute. reflexivity.
  - intros r [<-|[]]. vm_compute. discriminate.
  - apply outcome_eta. vm_compute. reflexivity.
Defined.

Lemma expiry_boundary_witness :
  let routes := [Scenario.token_route; Scenario.delete_user_route] in
  let rq := Scenario.users_request Scenario.deprecated_desc in
  let stamp := "2024-01-01T00:00:00" in
  let before := Scenario.merger routes Scenario.day_before in
  let after := Scenario.merger routes Scenario.day_after in
  (exists p' rq', entry_at p' rq' (items_in (Scenario.final_world before))
                  /\ marked_since stamp rq' /\ synced_from routes rq rq')
  /\ (forall p' it rq',
        lookup_path p' (items_in (Scenario.final_world after)) = Some it ->
        it_request it = Some rq' -> ~ marked_since stamp rq')
  /\ exists uid,
       unique_id_of rq = Some uid
       /\ In uid (routes_removed (Scenario.result_of Scenario.empty_result after)).
Proof.
  intros routes rq stamp before after.
  assert (Hmarked : marked_since stamp rq).
  { exists (PyStr.nl ++ PyStr.nl ++ "Deletes a user"). reflexivity. }
  assert (Hparse : PyDatetime.fromisoformat stamp = IsoNaive Scenario.new_year).
  { vm_compute. reflexivity. }
  split.
  - apply (expiry_boundary PyDatetime.isoformat PyDatetime.fromisoformat 30
             routes Scenario.day_before (Scenario.final_world before)
             (Scenario.result_of Scenario.empty_result before) [O; O] rq
             stamp Scenario.new_year).
    + simpl. split; reflexivity.
    + exact Hmarked.
    + discriminate.
    + reflexivity.
    + exact Hparse.
    + unfold before, Scenario.merger.
      apply (outcome_eta Scenario.empty_result). vm_compute. reflexivity.
    + intros k. unfold Scenario.day_before, Scenario.frozen_world, us_per_day. simpl. lia.
  - destruct (expiry_boundary PyDatetime.isoformat PyDatetime.fromisoformat 30
                routes Scenario.day_after (Scenario.final_world after)
                (Scenario.result_of Scenario.empty_result after) [O; O] rq
                stamp Scenario.new_year) as (_ & Hafter).
    + simpl. split; reflexivity.
    + exact Hmarked.
    + discriminate.
    + reflexivity.
    + exact Hparse.
    + unfold after, Scenario.merger.
      apply (outcome_eta Scenario.empty_result). vm_compute. reflexivity.
    + destruct Hafter as (Hgone & rq' & uid & _ & _ & Hin & Hsame).
      * intros k. unfold Scenario.day_after, Scenario.frozen_world, us_per_day. simpl. lia.
      * split; [exact Hgone|]. exists uid. split; [|exact Hin]. apply Hsame.
        intros r [<-|[<-|[]]] _; reflexivity.
Defined.

Lemma unparsable_stamp_passed_over_witness :
  let run := Scenario.expiry_pass Scenario.unreadable in
  (forall cutoff it w0,
     it_request it = Some (Scenario.users_request Scenario.bad_date_desc) ->
     is_stale PyDatetime.fromisoformat cutoff it w0 = Return false w0)
  /\ (exists p', entry_at p' (Scenario.users_request Scenario.bad_date_desc)
                          (items_in (Scenario.final_world run)))
  /\ w_log (Scenario.final_world run)
     = (w_log Scenario.unreadable
        ++ map DebugRemovedOldDeprecated (Scenario.result_of [] run))%list.
Proof.
  intros run.
  destruct (unparsable_stamp_passed_over PyDatetime.isoformat PyDatetime.fromisoformat 30
              Scenario.unreadable (Scenario.final_world run) (Scenario.result_of [] run)
              [O; O] (Scenario.users_request Scenario.bad_date_desc))
    as (Hcheck & Hpass & _).
  - simpl. split; reflexivity.
  - vm_compute. reflexivity.
  - right. exists "2024-13-45". split; vm_compute; reflexivity.
  - split; [exact Hcheck|]. apply Hpass.
    apply (outcome_eta []). vm_compute. reflexivity.
Defined.

(** C7, refuted at an input. The expiry pass over a collection whose two
    entries carry the tag, one with a date that is none and one with no
    stamp, returns, keeps the two entries as they were, and logs nothing. *)
Lemma expiry_pass_logs_nothing :
  let run := Scenario.expiry_pass Scenario.unreadable in
  Scenario.returned run = Some []
  /\ items_in (Scenario.final_world run) = items_in Scenario.unreadable
  /\ w_log (Scenario.final_world run) = [].
Proof. intros run. vm_compute. repeat split; reflexivity. Qed.

Lemma second_merge_reports_every_route_witness :
  let first := Scenario.merger [Scenario.token_route]
                 (Scenario.world_at Scenario.new_year (Some [])) in
  let second := Scenario.merger [Scenario.token_route] (Scenario.final_world first) in
  let res' := Scenario.result_of Scenario.empty_result second in
  routes_updated res'
  = List.filter (fun r => index_mem (unique_id r)
                                    (index_of (items_in (Scenario.final_world first))))
                [Scenario.token_route]
  /\ routes_added res'
     = List.filter (fun r => negb (index_mem (unique_id r)
                                             (index_of (items_in (Scenario.final_world first)))))
                   [Scenario.token_route]
  /\ ([Scenario.token_route] <> [] -> has_changes res' = true).
Proof.
  intros first second res'.
  apply (second_merge_reports_every_route PyDatetime.isoformat PyDatetime.fromisoformat 30
           [Scenario.token_route] (Scenario.world_at Scenario.new_year (Some []))
           (Scenario.final_world first) (Scenario.final_world second)
           (Scenario.result_of Scenario.empty_result first)).
  - apply (outcome_eta Scenario.empty_result). vm_compute. reflexivity.
  - apply (outcome_eta Scenario.empty_result). vm_compute. reflexivity.
Defined.

Lemma build_url_extract_path_round_trip_witness :
  _extract_path (_build_url "/api/users/:id") = "/api/users/:id"
  /\ (it_request (build_request_item Scenario.token_route "Issues a token") ≫= unique_id_of)
     = Some (unique_id Scenario.token_route).
Proof.
  split.
  - apply (build_url_extract_path_round_trip PyDatetime.isoformat "/api/users/:id").
    + reflexivity.
    + simpl. repeat constructor; discriminate.
  - apply (build_url_extract_path_round_trip PyDatetime.isoformat "/api/auth/token").
    + reflexivity.
    + simpl. repeat constructor; discriminate.
    + reflexivity.
Defined.
(** ** Concrete runs *)

(** The examples in the comments of [folder_name] and [request_name] that
    the code does follow. *)
Example folder_name_examples :
  folder_name Scenario.token_route = "Auth"
  /\ folder_name
       {| method := GET; path := "/users"; full_path := "/api/users";
          handler_name := "listUsers"; description := None; schema := None;
          metadata := Some {| file_path := "src/routes/user-management.ts";
                              file_name := "user-management.ts"; line_number := 3;
                              is_protected := true; rate_limit := None;
                              extracted_at := Scenario.new_year |} |}
     = "User Management".
Proof. split; reflexivity. Qed.

Example request_name_health :
  request_name
    {| method := GET; path := "/health"; full_path := "/api/health";
       handler_name := "health"; description := None; schema := None;
       metadata := None |}
  = "Health Check".
Proof. reflexivity. Qed.

(** C3, at the scenario's input. From an empty collection and the one route
    POST /api/auth/token of auth.ts, [merge] makes one group "Auth" with one
    entry, whose test hook checks for the token and saves it, and reports
    one added route; but the entry is named "Generate Auth Token", not
    "Generate Token". *)
Theorem merge_token_route_scenario :
  let run := Scenario.merger [Scenario.token_route]
               (Scenario.world_at Scenario.new_year (Some [])) in
  exists res entry test_script,
    Scenario.returned run = Some res
    /\ c_item (w_doc (Scenario.final_world run))
       = Some [Item (Some "Auth") None None None (Some [entry])]
    /\ it_name entry = Some "Generate Auth Token"
    /\ it_name entry <> Some "Generate Token"
    /\ it_event entry = Some [test_event test_script]
    /\ In ("    pm.expect(jsonData).to.have.property(" ++ PyStr.quoted "token" ++ ");")
          test_script
    /\ In ("    pm.collectionVariables.set(" ++ PyStr.quoted "jwtToken" ++ ", jsonData.token);")
          test_script
    /\ length (routes_added res) = 1%nat.
Proof.
  intros run.
  assert (Hres : exists res,
             Scenario.returned run = Some res /\ length (routes_added res) = 1%nat).
  { vm_compute. eexists. split; reflexivity. }
  destruct Hres as (res & Hres & Hlen).
  assert (Hdoc : exists entry,
             c_item (w_doc (Scenario.final_world run))
             = Some [Item (Some "Auth") None None None (Some [entry])]
             /\ it_name entry = Some "Generate Auth Token"
             /\ exists test_script,
                 it_event entry = Some [test_event test_script]
                 /\ In ("    pm.expect(jsonData).to.have.property("
                        ++ PyStr.quoted "token" ++ ");") test_script
                 /\ In ("    pm.collectionVariables.set("
                        ++ PyStr.quoted "jwtToken" ++ ", jsonData.token);") test_script).
  { vm_compute. eexists. split; [reflexivity|]. split; [reflexivity|].
    eexists. split; [reflexivity|]. simpl; tauto. }
  destruct Hdoc as (entry & Hdoc & Hname & script & Hev & Hin1 & Hin2).
  exists res, entry, script. rewrite Hname.
  repeat split; try assumption. discriminate.
Qed.

(** C2, at a failing input. Two routes with one unique_id that the
    collection does not hold yet are both added: the index consulted in the
    loop is the one built before it, so the second occurrence is not an
    update of the entry made for the first, and the folder ends with two
    entries of that identity. *)
Theorem merge_duplicate_new_routes :
  let run := Scenario.merger [Scenario.token_route; Scenario.token_route]
               (Scenario.world_at Scenario.new_year (Some [])) in
  exists res e1 e2,
    Scenario.returned run = Some res
    /\ c_item (w_doc (Scenario.final_world run))
       = Some [Item (Some "Auth") None None None (Some [e1; e2])]
    /\ (it_request e1 ≫= unique_id_of) = Some (unique_id Scenario.token_route)
    /\ (it_request e2 ≫= unique_id_of) = Some (unique_id Scenario.token_route)
    /\ routes_added res = [Scenario.token_route; Scenario.token_route]
    /\ routes_updated res = [].
Proof.
  intros run.
  assert (Hres : exists res,
             Scenario.returned run = Some res
             /\ routes_added res = [Scenario.token_route; Scenario.token_route]
             /\ routes_updated res = []).
  { vm_compute. eexists. repeat split; reflexivity. }
  destruct Hres as (res & Hres & Hadd & Hupd).
  assert (Hdoc : exists e1 e2,
             c_item (w_doc (Scenario.final_world run))
             = Some [Item (Some "Auth") None None None (Some [e1; e2])]
             /\ (it_request e1 ≫= unique_id_of) = Some (unique_id Scenario.token_route)
             /\ (it_request e2 ≫= unique_id_of) = Some (unique_id Scenario.token_route)).
  { vm_compute. do 2 eexists. repeat split; reflexivity. }
  destruct Hdoc as (e1 & e2 & Hdoc & H1 & H2).
  exists res, e1, e2. repeat split; assumption.
Qed.

(** C1, refuted at an input. After a first [merge] of the route POST
    /api/auth/token into an empty collection, a second [merge] of the same
    route returns a result that has changes (the route is reported as
    updated), and it leaves another document: the entry's description
    carries the time of the second run. *)
Lemma merge_twice_not_a_noop :
  let first := Scenario.merger [Scenario.token_route]
                 (Scenario.world_at Scenario.new_year (Some [])) in
  let second := Scenario.merger [Scenario.token_route] (Scenario.final_world first) in
  exists res res',
    Scenario.returned first = Some res
    /\ Scenario.returned second = Some res'
    /\ has_changes res' = true
    /\ routes_updated res' = [Scenario.token_route]
    /\ w_doc (Scenario.final_world second) <> w_doc (Scenario.final_world first).
Proof.
  intros first second.
  assert (H1 : exists res, Scenario.returned first = Some res).
  { vm_compute. eexists. reflexivity. }
  destruct H1 as (res & H1).
  assert (H2 : exists res', Scenario.returned second = Some res'
                            /\ has_changes res' = true
                            /\ routes_updated res' = [Scenario.token_route]).
  { vm_compute. eexists. repeat split; reflexivity. }
  destruct H2 as (res' & H2 & Hc & Hu).
  exists res, res'. repeat split; try assumption.
  vm_compute. discriminate.
Qed.

(** ** More of the merger: events, folders, descriptions *)

Lemma existsb_filter_length {A : Type} (p : A -> bool) (l : list A) :
  existsb p l = negb (Nat.eqb (length (List.filter p l)) 0).
Proof.
  induction l as [|x l IH]; [reflexivity|]. simpl. destruct (p x); [reflexivity | exact IH].
Qed.

(** [_ensure_auth_prerequest] leaves an item with a pre-request event,
    changes nothing when called again, and keeps the events as they are
    when one of them already listens to "prerequest", whatever its script;
    otherwise it appends the one auth event. *)
Theorem ensure_auth_prerequest_idempotent (it : item) :
  existsb is_prerequest (default [] (it_event (_ensure_auth_prerequest it))) = true
  /\ _ensure_auth_prerequest (_ensure_auth_prerequest it) = _ensure_auth_prerequest it
  /\ (existsb is_prerequest (default [] (it_event it)) = true ->
      it_event (_ensure_auth_prerequest it) = Some (default [] (it_event it)))
  /\ (existsb is_prerequest (default [] (it_event it)) = false ->
      it_event (_ensure_auth_prerequest it) = Some (default [] (it_event it) ++ [auth_event])%list)
  /\ length (List.filter is_prerequest (default [] (it_event (_ensure_auth_prerequest it))))
     = Nat.max 1 (length (List.filter is_prerequest (default [] (it_event it)))).
Proof.
  destruct it as [n rq ev rs c]. unfold _ensure_auth_prerequest. simpl it_event.
  destruct (existsb is_prerequest (default [] ev)) eqn:Hex.
  - simpl. rewrite Hex. simpl. repeat split; try reflexivity; try discriminate.
    rewrite existsb_filter_length in Hex.
    destruct (length (List.filter is_prerequest (default [] ev))); [discriminate | reflexivity].
  - simpl. rewrite existsb_app. simpl. rewrite orb_true_r. simpl.
    repeat split; try reflexivity; try discriminate.
    rewrite List.filter_app, length_app. simpl.
    rewrite existsb_filter_length in Hex.
    destruct (length (List.filter is_prerequest (default [] ev))); [reflexivity | discriminate].
Qed.

Lemma generate_test_script_nonempty route :
  nonempty (TestScriptGenerator.generate_test_script route) = true.
Proof.
  unfold TestScriptGenerator.generate_test_script.
  destruct (TestScriptGenerator.has_success_schema route); destruct (method route); reflexivity.
Qed.

(** The item [_add_request] builds: named by [request_name], with no
    saved response and no children, its request holding the route's method
    and built URL and no header, and with exactly one test event that holds
    the generated script, followed by the auth pre-request event exactly
    when the route is protected. *)
Theorem build_request_item_events (route : Route) (desc : string) :
  it_name (build_request_item route desc) = Some (request_name route)
  /\ it_request (build_request_item route desc)
     = Some {| req_method := Some (method_value (method route)); req_header := [];
               req_url := Some (_build_url (full_path route));
               req_description := Some desc |}
  /\ it_response (build_request_item route desc) = Some []
  /\ it_item (build_request_item route desc) = None
  /\ it_event (build_request_item route desc)
     = Some (test_event (TestScriptGenerator.generate_test_script route)
             :: if route_protected route then [auth_event] else []).
Proof.
  unfold build_request_item. rewrite generate_test_script_nonempty.
  destruct (route_protected route); repeat split; reflexivity.
Qed.

Lemma folders_append_fst folder route folders :
  map fst (folders_append folder route folders)
  = if str_mem folder (map fst folders) then map fst folders
    else (map fst folders ++ [folder])%list.
Proof.
  unfold str_mem. induction folders as [|[k v] rest IH]; [reflexivity|]. simpl.
  rewrite (String.eqb_sym folder k).
  destruct (String.eqb k folder); simpl; [reflexivity|].
  rewrite IH. destruct (existsb (String.eqb folder) (map fst rest)); reflexivity.
Qed.

Lemma str_mem_In x names : str_mem x names = true <-> In x names.
Proof.
  unfold str_mem. rewrite existsb_exists. split.
  - intros (y & Hin & Heq). apply String.eqb_eq in Heq. subst. exact Hin.
  - intros Hin. exists x. split; [exact Hin | apply String.eqb_refl].
Qed.

Lemma folders_append_In folder route folders k v :
  NoDup (map fst folders) ->
  In (k, v) (folders_append folder route folders) ->
  (k <> folder /\ In (k, v) folders)
  \/ (k = folder
      /\ ((exists v0, In (k, v0) folders /\ v = (v0 ++ [route])%list)
          \/ (~ In k (map fst folders) /\ v = [route]))).
Proof.
  induction folders as [|[k0 v0] rest IH]; simpl; intros Hnd H.
  - destruct H as [H|[]]. injection H as <- <-. right. split; [reflexivity|]. right. tauto.
  - apply NoDup_cons in Hnd as (Hk0 & Hnd). rewrite list_elem_of_In in Hk0.
    destruct (String.eqb_spec k0 folder) as [->|Hne]; simpl in H.
    + destruct H as [H|H].
      * injection H as <- <-. right. split; [reflexivity|]. left. exists v0. auto.
      * left. split; [|auto]. intros ->. apply Hk0. apply in_map_iff. exists (folder, v). auto.
    + destruct H as [H|H].
      * injection H as <- <-. left. auto.
      * apply (IH Hnd) in H as [(Hk & Hin)|(-> & [(v1 & Hin & ->)|(Hnot & ->)])].
        -- left. auto.
        -- right. split; [reflexivity|]. left. exists v1. auto.
        -- right. split; [reflexivity|]. right. split; [|reflexivity].
           intros [Heq|Hin]; [congruence | contradiction].
Qed.

Lemma filter_snoc {A : Type} (p : A -> bool) (l : list A) (x : A) :
  List.filter p (l ++ [x]) = (List.filter p l ++ if p x then [x] else [])%list.
Proof. rewrite List.filter_app. simpl. destruct (p x); reflexivity. Qed.

Lemma filter_none {A : Type} (p : A -> bool) (l : list A) :
  (forall x, In x l -> p x = false) -> List.filter p l = [].
Proof.
  induction l as [|x l IH]; intros H; [reflexivity|]. simpl.
  rewrite (H x (or_introl eq_refl)). apply IH. intros y Hy. apply H. right. exact Hy.
Qed.

Lemma organize_fold_spec routes : forall processed folders,
  NoDup (map fst folders) ->
  (forall k v, In (k, v) folders ->
     v <> [] /\ v = List.filter (fun r => String.eqb (folder_name r) k) processed) ->
  (forall r, In r processed -> In (folder_name r) (map fst folders)) ->
  let folders' :=
    fold_left (fun folders route => folders_append (folder_name route) route folders)
              routes folders in
  NoDup (map fst folders')
  /\ (forall k v, In (k, v) folders' ->
        v <> [] /\ v = List.filter (fun r => String.eqb (folder_name r) k)
                                   (processed ++ routes)%list)
  /\ (forall r, In r (processed ++ routes)%list -> In (folder_name r) (map fst folders')).
Proof.
  induction routes as [|r routes IH]; intros processed folders Hnd Hgroups Hkeys; simpl.
  - rewrite app_nil_r. auto.
  - replace (processed ++ r :: routes)%list with ((processed ++ [r]) ++ routes)%list
      by (rewrite <- app_assoc; reflexivity).
    apply IH.
    + rewrite folders_append_fst.
      destruct (str_mem (folder_name r) (map fst folders)) eqn:Hmem; [exact Hnd|].
      apply NoDup_app. split; [exact Hnd|]. split; [|apply NoDup_singleton].
      intros x Hx Hx'. apply list_elem_of_In in Hx. apply list_elem_of_In in Hx'.
      destruct Hx' as [<-|[]]. apply str_mem_In in Hx. congruence.
    + intros k v Hin. rewrite filter_snoc.
      apply (folders_append_In _ _ _ _ _ Hnd) in Hin
        as [(Hk & Hin)|(-> & [(v0 & Hin & ->)|(Hnot & ->)])].
      * destruct (Hgroups k v Hin) as (Hv & Heq). split; [exact Hv|].
        destruct (String.eqb_spec (folder_name r) k); [congruence|].
        rewrite app_nil_r. exact Heq.
      * destruct (Hgroups _ v0 Hin) as (Hv & Heq). rewrite String.eqb_refl.
        split; [destruct v0; discriminate | congruence].
      * rewrite String.eqb_refl. split; [discriminate|].
        assert (Hnone : List.filter (fun r0 => String.eqb (folder_name r0) (folder_name r))
                                    processed = []).
        { apply filter_none. intros r0 Hr0.
          destruct (String.eqb_spec (folder_name r0) (folder_name r)) as [Heq|]; [|reflexivity].
          exfalso. apply Hnot. rewrite <- Heq. apply Hkeys. exact Hr0. }
        rewrite Hnone. reflexivity.
    + intros r0 Hin. rewrite folders_append_fst.
      destruct (str_mem (folder_name r) (map fst folders)) eqn:Hmem.
      * apply in_app_iff in Hin as [Hin|[<-|[]]]; [apply Hkeys; exact Hin|].
        apply str_mem_In. exact Hmem.
      * apply in_app_iff. apply in_app_iff in Hin as [Hin|[<-|[]]].
        -- left. apply Hkeys. exact Hin.
        -- right. left. reflexivity.
Qed.

(** [_organize_by_folder] partitions the routes by [folder_name]: the
    folder names are distinct, every route's folder name is one of them,
    and the group under a name is, in the order of the routes, the routes
    with that folder name, at least one. *)
Theorem organize_by_folder_partition (routes : list Route) :
  NoDup (map fst (_organize_by_folder routes))
  /\ (forall r, In r routes -> In (folder_name r) (map fst (_organize_by_folder routes)))
  /\ (forall name group,
        In (name, group) (_organize_by_folder routes) ->
        group <> []
        /\ group = List.filter (fun r => String.eqb (folder_name r) name) routes).
Proof.
  destruct (organize_fold_spec routes [] []) as (Hnd & Hgroups & Hkeys).
  - apply NoDup_nil. trivial.
  - intros k v [].
  - intros r [].
  - unfold _organize_by_folder. simpl in Hgroups, Hkeys. auto.
Qed.









Section UpdateDescription.

Variable isoformat : Z -> string.





End UpdateDescription.

(** ** Which runs return *)


Lemma try_merger_bind {A B : Type} (m : M A) (k : A -> M B) (w w1 : world) (a : A) :
  m w = Return a w1 -> try_merger (bind m k) w = try_merger (k a) w1.
Proof. unfold try_merger, bind. intros ->. reflexivity. Qed.

Lemma try_merger_raise {A B : Type} (m : M A) (k : A -> M B) (w w1 : world) (e : exn) :
  m w = Raise e w1 -> try_merger (bind m k) w = Raise (MergerError e) w1.
Proof. unfold try_merger, bind. intros ->. reflexivity. Qed.


Lemma existing_folders_raise (items : list item) : forall names w,
  Exists (fun it => is_Some (it_item it) /\ it_name it = None) items ->
  for_each items
    (fun names it =>
       match it_item it with
       | Some _ => name <- subscript "name" (it_name it) ;; ret (names ++ [name])%list
       | None => ret names
       end) names w = Raise (KeyError "name") w.
Proof.
  induction items as [|x l IH]; intros names w Hex; [inversion Hex|].
  simpl. unfold bind at 1.
  destruct (it_item x) as [c|] eqn:Hc.
  - destruct (it_name x) as [n|] eqn:Hn.
    + simpl. apply IH. apply Exists_cons in Hex as [(_ & Hx)|Hl]; [congruence | exact Hl].
    + reflexivity.
  - simpl. apply IH. apply Exists_cons in Hex as [((c & Hx) & _)|Hl]; [congruence | exact Hl].
Qed.

Lemma _ensure_folders_start (w : world) items :
  c_item (w_doc w) = Some items ->
  (fun w => match c_item (w_doc w) with
            | None => set_items [] w
            | Some _ => ret tt w
            end) w = Return tt w
  /\ items_subscript w = Return items w.
Proof. intros Hc. unfold items_subscript, subscript. rewrite Hc. split; reflexivity. Qed.


Lemma _ensure_folders_unnamed folder_names w items :
  c_item (w_doc w) = Some items ->
  Exists (fun it => is_Some (it_item it) /\ it_name it = None) items ->
  _ensure_folders folder_names w = Raise (KeyError "name") w.
Proof.
  intros Hc Hex. destruct (_ensure_folders_start w items Hc) as (Hinit & Hsub).
  unfold _ensure_folders.
  rewrite (bind_Return_intro _ _ _ _ _ Hinit), (bind_Return_intro _ _ _ _ _ Hsub).
  apply bind_Raise_intro. apply existing_folders_raise. exact Hex.
Qed.

Section Runs.

Variable isoformat : Z -> string.
Variable fromisoformat : string -> iso_parse.
Variable deprecation_days : Z.




End Runs.

Lemma methods_ok_false items p it rq :
  lookup_path p items = Some it -> it_request it = Some rq -> req_method rq = None ->
  methods_ok (entries_from O items) = false.
Proof.
  intros Hl Hrq Hm.
  assert (Hin : In (p, rq) (entries_from O items)) by (apply in_entries_lookup; eauto).
  destruct (methods_ok (entries_from 0 items)) eqn:Hok; [|reflexivity].
  unfold methods_ok in Hok. rewrite forallb_forall in Hok. specialize (Hok _ Hin).
  simpl in Hok. rewrite Hm in Hok. apply bool_decide_eq_true in Hok as (m & Hm'). discriminate.
Qed.

Section MergeErrors.

Variable isoformat : Z -> string.
Variable fromisoformat : string -> iso_parse.
Variable deprecation_days : Z.

Lemma validate_run (w : world) info name items :
  c_info (w_doc w) = Some info -> info_name info = Some name ->
  c_item (w_doc w) = Some items ->
  (fun w => validate_postman_collection (w_doc w) w) w = Return tt w.
Proof. intros Hi Hn Hc. unfold validate_postman_collection. rewrite Hi, Hc, Hn. reflexivity. Qed.


(** A request without the key [method], anywhere in the tree, makes
    [merge] fail with the [KeyError] of the indexer wrapped in
    [MergerError], before anything in the document is touched. *)
Theorem merge_request_without_method (routes : list Route) (w : world)
    (info : info_object) (name : string) (items : list item)
    (p : path_ref) (it : item) (rq : request) :
  c_info (w_doc w) = Some info -> info_name info = Some name ->
  c_item (w_doc w) = Some items ->
  lookup_path p items = Some it -> it_request it = Some rq -> req_method rq = None ->
  exists w',
    merge isoformat fromisoformat deprecation_days routes w
    = Raise (MergerError (KeyError "method")) w'
    /\ w_doc w' = w_doc w.
Proof.
  intros Hi Hn Hc Hl Hrq Hm. unfold merge.
  rewrite (try_merger_bind _ _ _ _ _ (validate_run w info name items Hi Hn Hc)).
  destruct (_index_requests_spec w) as (w1 & Hheap & Hidx).
  rewrite (items_in_Some _ _ Hc), (methods_ok_false _ _ _ _ Hl Hrq Hm) in Hidx.
  exists w1. split; [apply try_merger_raise; exact Hidx | apply Hheap].
Qed.

(** A top-level folder without the key [name] makes [merge] fail with a
    [KeyError] wrapped in [MergerError], whatever the routes, before
    anything in the document is touched. *)
Theorem merge_unnamed_folder (routes : list Route) (w : world)
    (info : info_object) (name : string) (items : list item) :
  c_info (w_doc w) = Some info -> info_name info = Some name ->
  c_item (w_doc w) = Some items ->
  methods_ok (entries_from O items) = true ->
  Exists (fun it => is_Some (it_item it) /\ it_name it = None) items ->
  exists w',
    merge isoformat fromisoformat deprecation_days routes w
    = Raise (MergerError (KeyError "name")) w'
    /\ w_doc w' = w_doc w.
Proof.
  intros Hi Hn Hc Hok Hex. unfold merge.
  rewrite (try_merger_bind _ _ _ _ _ (validate_run w info name items Hi Hn Hc)).
  destruct (_index_requests_spec w) as (w1 & Hheap & Hidx).
  rewrite (items_in_Some _ _ Hc), Hok in Hidx.
  rewrite (try_merger_bind _ _ _ _ _ Hidx).
  assert (Hnew : exists res0 w2, new_SyncResult w1 = Return res0 w2 /\ w_doc w2 = w_doc w1).
  { eexists _, _. split; reflexivity. }
  destruct Hnew as (res0 & w2 & Hnew & Hdoc2).
  rewrite (try_merger_bind _ _ _ _ _ Hnew).
  destruct Hheap as (Hdoc1 & _).
  assert (Hc2 : c_item (w_doc w2) = Some items) by congruence.
  exists w2. split; [|congruence].
  apply try_merger_raise. apply (_ensure_folders_unnamed _ _ items Hc2 Hex).
Qed.


End MergeErrors.

(** ** The expiry pass as a sweep *)

Lemma sweep_item_unfold fromisoformat cutoff it :
  sweep_item fromisoformat cutoff it =
  if stale_item fromisoformat cutoff it then None
  else match it_item it with
       | Some children => Some (set_item (Some (sweep_items fromisoformat cutoff children)) it)
       | None => Some it
       end.
Proof.
  destruct it as [n rq ev rs [children|]]; simpl;
    destruct (stale_item fromisoformat cutoff _); try reflexivity.
  do 3 f_equal. induction children as [|x l IH]; [reflexivity|].
  simpl. rewrite IH. reflexivity.
Qed.

Lemma swept_ids_unfold fromisoformat cutoff it :
  swept_ids fromisoformat cutoff it =
  if stale_item fromisoformat cutoff it
  then match it_request it ≫= unique_id_of with Some uid => [uid] | None => [] end
  else match it_item it with
       | Some children => swept_ids_of fromisoformat cutoff children
       | None => []
       end.
Proof.
  destruct it as [n rq ev rs [children|]]; simpl;
    destruct (stale_item fromisoformat cutoff _); reflexivity.
Qed.

Lemma sweep_frame_refl w : sweep_frame [] w w.
Proof. unfold sweep_frame. simpl. rewrite app_nil_r. auto. Qed.

Lemma sweep_frame_trans r1 r2 w1 w2 w3 :
  sweep_frame r1 w1 w2 -> sweep_frame r2 w2 w3 -> sweep_frame (r1 ++ r2) w1 w3.
Proof.
  unfold sweep_frame. intros (Hc1 & Ht1 & Hi1 & Hl1) (Hc2 & Ht2 & Hi2 & Hl2).
  rewrite map_app, app_assoc, <- Hl1. repeat split; congruence.
Qed.

Lemma modify_items_frame f w :
  exists w', modify_items f w = Return tt w' /\ sweep_frame [] w w'.
Proof.
  unfold modify_items. destruct (c_item (w_doc w)).
  - eexists. split; [reflexivity|]. unfold sweep_frame. simpl. rewrite app_nil_r. auto.
  - exists w. split; [reflexivity | apply sweep_frame_refl].
Qed.

Section Sweep.

Variable fromisoformat : string -> iso_parse.
Variable deprecation_days : Z.

Lemma process_items_run_from cutoff (items : list item) :
  Forall (fun it => forall ref removed w,
            Forall (sweepable fromisoformat cutoff) (map snd (entries_of it)) ->
            exists w',
              process_item fromisoformat cutoff ref it removed w
              = Return ((removed ++ swept_ids fromisoformat cutoff it)%list,
                        sweep_item fromisoformat cutoff it) w'
              /\ sweep_frame (swept_ids fromisoformat cutoff it) w w') items ->
  forall parent i removed filtered w,
    Forall (sweepable fromisoformat cutoff) (requests_in items) ->
    exists w',
      process_items fromisoformat cutoff parent i items removed filtered w
      = Return ((removed ++ swept_ids_of fromisoformat cutoff items)%list,
                (filtered ++ sweep_items fromisoformat cutoff items)%list) w'
      /\ sweep_frame (swept_ids_of fromisoformat cutoff items) w w'.
Proof.
  induction items as [|x l IHl]; intros HP parent i removed filtered w Hok.
  - exists w. simpl. rewrite !app_nil_r. split; [reflexivity | apply sweep_frame_refl].
  - apply Forall_cons in HP as (Hx & Hl).
    change (requests_in (x :: l)) with (map snd (entries_of x) ++ requests_in l)%list in Hok.
    apply Forall_app in Hok as (Hokx & Hokl).
    destruct (Hx (parent ++ [i])%list removed w Hokx) as (w1 & Hrun1 & Hf1).
    simpl process_items. rewrite (bind_Return_intro _ _ _ _ _ Hrun1).
    destruct (IHl Hl parent (S i) (removed ++ swept_ids fromisoformat cutoff x)%list
                (match sweep_item fromisoformat cutoff x with
                 | Some x' => (filtered ++ [x'])%list
                 | None => filtered
                 end) w1 Hokl) as (w2 & Hrun2 & Hf2).
    exists w2. split; [|exact (sweep_frame_trans _ _ _ _ _ Hf1 Hf2)].
    rewrite Hrun2. unfold swept_ids_of. simpl. rewrite <- !app_assoc.
    destruct (sweep_item fromisoformat cutoff x); [rewrite <- app_assoc|]; reflexivity.
Qed.

Lemma process_item_run cutoff it : forall ref removed w,
  Forall (sweepable fromisoformat cutoff) (map snd (entries_of it)) ->
  exists w',
    process_item fromisoformat cutoff ref it removed w
    = Return ((removed ++ swept_ids fromisoformat cutoff it)%list,
              sweep_item fromisoformat cutoff it) w'
    /\ sweep_frame (swept_ids fromisoformat cutoff it) w w'.
Proof.
  induction it as [n rq ev rs|n rq ev rs children IH] using item_ind';
    intros ref removed w Hok; rewrite process_item_unfold, sweep_item_unfold, swept_ids_unfold;
    rewrite requests_of_item in Hok; apply Forall_app in Hok as (Hown & Hbelow);
    unfold bind at 1; rewrite is_stale_run; unfold stale_item;
    cbn [it_request it_item] in *.
  - destruct rq as [r|].
    + apply Forall_cons in Hown as ((Hnaive & Hmeth) & _).
      destruct (stamp_of fromisoformat r) as [[t|t off|]|] eqn:Hst;
        try (exfalso; exact (Hnaive _ _ eq_refl)).
      all: destruct (stale_request fromisoformat cutoff r) eqn:Hs.
      all: try (exists w; rewrite app_nil_r; split; [reflexivity | apply sweep_frame_refl]).
      all: destruct (Hmeth eq_refl) as (m & Hm).
      all: unfold bind, subscript, ret, request_unique_id, logger; cbn [it_request];
        rewrite Hm; simpl; unfold unique_id_of; rewrite Hm; simpl.
      all: eexists; split; [reflexivity|]; unfold sweep_frame; simpl; auto.
    + exists w. rewrite app_nil_r. split; [reflexivity | apply sweep_frame_refl].
  - assert (Hkids : forall removed0 w0,
               exists w',
                 process_items fromisoformat cutoff ref O children removed0 [] w0
                 = Return ((removed0 ++ swept_ids_of fromisoformat cutoff children)%list,
                           sweep_items fromisoformat cutoff children) w'
                 /\ sweep_frame (swept_ids_of fromisoformat cutoff children) w0 w').
    { intros removed0 w0.
      destruct (process_items_run_from cutoff children IH ref O removed0 [] w0 Hbelow)
        as (w' & Hrun & Hf). exists w'. split; [exact Hrun | exact Hf]. }
    assert (Hfolder : exists w',
               (swept <- process_items fromisoformat cutoff ref O children removed [] ;;
                let '(removed, filtered) := swept in
                modify_items (alter_path (set_item (Some filtered)) ref) ;;;
                ret (removed, Some (set_item (Some filtered) (Item n rq ev rs (Some children))))) w
               = Return ((removed ++ swept_ids_of fromisoformat cutoff children)%list,
                         Some (set_item (Some (sweep_items fromisoformat cutoff children))
                                        (Item n rq ev rs (Some children)))) w'
               /\ sweep_frame (swept_ids_of fromisoformat cutoff children) w w').
    { destruct (Hkids removed w) as (w1 & Hrun & Hf).
      rewrite (bind_Return_intro _ _ _ _ _ Hrun).
      destruct (modify_items_frame
                  (alter_path (set_item (Some (sweep_items fromisoformat cutoff children))) ref) w1)
        as (w2 & Hmod & Hf2).
      rewrite (bind_Return_intro _ _ _ _ _ Hmod). exists w2. split; [reflexivity|].
      rewrite <- (app_nil_r (swept_ids_of fromisoformat cutoff children)).
      exact (sweep_frame_trans _ _ _ _ _ Hf Hf2). }
    destruct rq as [r|].
    + apply Forall_cons in Hown as ((Hnaive & Hmeth) & _).
      destruct (stamp_of fromisoformat r) as [[t|t off|]|] eqn:Hst;
        try (exfalso; exact (Hnaive _ _ eq_refl)).
      all: destruct (stale_request fromisoformat cutoff r) eqn:Hs; try exact Hfolder.
      all: destruct (Hmeth eq_refl) as (m & Hm).
      all: unfold bind, subscript, ret, request_unique_id, logger; cbn [it_request];
        rewrite Hm; simpl; unfold unique_id_of; rewrite Hm; simpl.
      all: eexists; split; [reflexivity|]; unfold sweep_frame; simpl; auto.
    + exact Hfolder.
Qed.

Lemma process_items_run cutoff items parent i removed filtered w :
  Forall (sweepable fromisoformat cutoff) (requests_in items) ->
  exists w',
    process_items fromisoformat cutoff parent i items removed filtered w
    = Return ((removed ++ swept_ids_of fromisoformat cutoff items)%list,
              (filtered ++ sweep_items fromisoformat cutoff items)%list) w'
    /\ sweep_frame (swept_ids_of fromisoformat cutoff items) w w'.
Proof.
  apply process_items_run_from. apply Forall_forall. intros it _ ref removed0 w0.
  apply process_item_run.
Qed.

End Sweep.

Lemma sweep_nothing fromisoformat cutoff it :
  Forall (fun rq => stale_request fromisoformat cutoff rq = false) (map snd (entries_of it)) ->
  sweep_item fromisoformat cutoff it = Some it /\ swept_ids fromisoformat cutoff it = [].
Proof.
  induction it as [n rq ev rs|n rq ev rs children IH] using item_ind'; intros Hfresh;
    rewrite sweep_item_unfold, swept_ids_unfold; rewrite requests_of_item in Hfresh;
    apply Forall_app in Hfresh as (Hown & Hbelow); unfold stale_item;
    cbn [it_request it_item] in *.
  - destruct rq as [r|]; [apply Forall_cons in Hown as (-> & _)|]; auto.
  - assert (Hkids : sweep_items fromisoformat cutoff children = children
                    /\ swept_ids_of fromisoformat cutoff children = []).
    { clear Hown. induction children as [|x l IHl]; [auto|].
      apply Forall_cons in IH as (Hx & Hl).
      change (requests_in (x :: l)) with (map snd (entries_of x) ++ requests_in l)%list
        in Hbelow.
      apply Forall_app in Hbelow as (Hbx & Hbl).
      destruct (Hx Hbx) as (Hsx & Hix). destruct (IHl Hl Hbl) as (Hsl & Hil).
      unfold swept_ids_of in *. simpl. rewrite Hsx, Hix, Hsl, Hil. auto. }
    destruct Hkids as (-> & ->).
    destruct rq as [r|]; [apply Forall_cons in Hown as (-> & _)|]; auto.
Qed.

Lemma sweep_nothing_items fromisoformat cutoff items :
  Forall (fun rq => stale_request fromisoformat cutoff rq = false) (requests_in items) ->
  sweep_items fromisoformat cutoff items = items
  /\ swept_ids_of fromisoformat cutoff items = [].
Proof.
  induction items as [|x l IH]; intros Hfresh; [auto|].
  change (requests_in (x :: l)) with (map snd (entries_of x) ++ requests_in l)%list in Hfresh.
  apply Forall_app in Hfresh as (Hx & Hl).
  destruct (sweep_nothing fromisoformat cutoff x Hx) as (Hsx & Hix).
  destruct (IH Hl) as (Hsl & Hil).
  unfold swept_ids_of in *. simpl. rewrite Hsx, Hix, Hsl, Hil. auto.
Qed.

Section SweepContract.

Variable fromisoformat : string -> iso_parse.
Variable deprecation_days : Z.

(** [_remove_old_deprecated] is a sweep of the tree. When the cutoff date
    can be represented, no stamp reads as an aware date and the stale
    requests have a method, it returns; the tree it leaves is the tree it
    found without the stale requests, the others in their order and as
    they were, and it returns and logs the identities of the dropped
    requests in the order it met them. When no request is stale, it
    returns the empty list and leaves the tree as it was. *)
Theorem remove_old_deprecated_sweeps (w : world) (cutoff : Z) :
  cutoff = w_clock w (w_ticks w) - deprecation_days * us_per_day ->
  Z.abs deprecation_days <= 999999999 ->
  0 <= cutoff < datetime_end ->
  Forall (sweepable fromisoformat cutoff) (requests_in (items_in w)) ->
  exists w',
    _remove_old_deprecated fromisoformat deprecation_days w
    = Return (swept_ids_of fromisoformat cutoff (items_in w)) w'
    /\ c_item (w_doc w') = Some (sweep_items fromisoformat cutoff (items_in w))
    /\ c_info (w_doc w') = c_info (w_doc w)
    /\ w_log w'
       = (w_log w ++ map DebugRemovedOldDeprecated
                         (swept_ids_of fromisoformat cutoff (items_in w)))%list
    /\ (Forall (fun rq => stale_request fromisoformat cutoff rq = false)
               (requests_in (items_in w)) ->
        swept_ids_of fromisoformat cutoff (items_in w) = []
        /\ c_item (w_doc w') = Some (items_in w)).
Proof.
  intros Hcut Hdays Hrange Hok. unfold _remove_old_deprecated.
  set (w1 := {| w_doc := w_doc w; w_clock := w_clock w;
                w_ticks := S (w_ticks w); w_log := w_log w |}).
  assert (Hnow : utcnow w = Return (w_clock w (w_ticks w)) w1) by reflexivity.
  assert (Hmin : minus_days (w_clock w (w_ticks w)) deprecation_days w1 = Return cutoff w1).
  { unfold minus_days.
    destruct (999999999 <? Z.abs deprecation_days) eqn:Hbig; [apply Z.ltb_lt in Hbig; lia|].
    rewrite <- Hcut.
    destruct ((0 <=? cutoff) && (cutoff <? datetime_end)) eqn:Hin; [reflexivity|].
    apply andb_false_iff in Hin as [H|H]; [apply Z.leb_gt in H | apply Z.ltb_ge in H]; lia. }
  assert (Hget : get_items w1 = Return (items_in w) w1) by reflexivity.
  destruct (process_items_run fromisoformat cutoff (items_in w) [] O [] [] w1 Hok)
    as (w2 & Hrun & Hc & Ht & Hi & Hl).
  simpl in Hrun.
  rewrite (bind_Return_intro _ _ _ _ _ Hnow), (bind_Return_intro _ _ _ _ _ Hmin),
    (bind_Return_intro _ _ _ _ _ Hget), (bind_Return_intro _ _ _ _ _ Hrun).
  unfold bind, set_items, ret. eexists. split; [reflexivity|]. simpl in *.
  split; [reflexivity|]. split; [exact Hi|]. split; [exact Hl|].
  intros Hfresh. destruct (sweep_nothing_items fromisoformat cutoff _ Hfresh) as (-> & ->).
  auto.
Qed.

End SweepContract.

(** ** A stamp with a UTC offset *)

Section AwareStamp.

Variable isoformat : Z -> string.
Variable fromisoformat : string -> iso_parse.
Variable deprecation_days : Z.

Lemma process_items_naive cutoff rq :
  forall p items parent i removed filtered w removed' filtered' w',
    process_items fromisoformat cutoff parent i items removed filtered w
    = Return (removed', filtered') w' ->
    entry_at p rq items ->
    forall t off, stamp_of fromisoformat rq <> Some (IsoAware t off).
Proof.
  induction p as [|j q IHq];
    intros items parent i removed filtered w removed' filtered' w' Hrun Hat; [destruct Hat|].
  revert j parent i removed filtered w Hrun Hat.
  induction items as [|x l IHl]; intros j parent i removed filtered w Hrun Hat;
    rewrite entry_at_cons in Hat; [destruct Hat|].
  simpl in Hrun. inv_bind Hrun as turn w1 Hturn. destruct turn as [removed1 kept].
  destruct j as [|j].
  - simpl in Hat. rewrite process_item_unfold in Hturn. inv_bind Hturn as stale w2 Hst.
    destruct q as [|k q].
    + rewrite is_stale_run, Hat in Hst. intros t off Haware. rewrite Haware in Hst.
      discriminate.
    + destruct Hat as (Hnone & Hch).
      destruct (it_item x) as [children|] eqn:Hitem; [|destruct Hch].
      apply is_stale_inv in Hst as (-> & ->). unfold stale_item in Hturn.
      rewrite Hnone in Hturn.
      inv_bind Hturn as swept w3 Hsw. destruct swept as [removed2 fch].
      exact (IHq _ _ _ _ _ _ _ _ _ Hsw Hch).
  - simpl in Hat. eapply IHl; [exact Hrun|]. rewrite entry_at_cons. exact Hat.
Qed.

Lemma _remove_old_deprecated_naive removed w w' p rq :
  _remove_old_deprecated fromisoformat deprecation_days w = Return removed w' ->
  entry_at p rq (items_in w) ->
  forall t off, stamp_of fromisoformat rq <> Some (IsoAware t off).
Proof.
  unfold _remove_old_deprecated. intros H Hat.
  inv_bind H as now w1 Hnow. unfold utcnow in Hnow. inv_Return Hnow.
  inv_bind H as cutoff w2 Hcut.
  assert (Hw2 : w_doc w2 = w_doc w).
  { unfold minus_days in Hcut.
    destruct (999999999 <? Z.abs deprecation_days); [discriminate|].
    destruct ((0 <=? _) && (_ <? datetime_end)); [|discriminate].
    unfold ret in Hcut. inv_Return Hcut. reflexivity. }
  inv_bind H as items w3 Hget. unfold get_items in Hget. inv_Return Hget.
  rewrite Hw2 in H. fold (items_in w) in H.
  inv_bind H as swept w4 Hsw. destruct swept as [removed0 filtered].
  exact (process_items_naive _ _ _ _ _ _ _ _ _ _ _ _ Hsw Hat).
Qed.

(** A deprecation stamp that reads as a date with a UTC offset is not
    passed over like one that does not parse: the comparison with the
    cutoff raises, and a [merge] of routes none of which has the entry's
    identity fails with a [MergerError]. *)
Theorem merge_aware_stamp_fails (routes : list Route) (w : world)
    (p : path_ref) (rq : request) (t off : Z) :
  entry_at p rq (items_in w) ->
  stamp_of fromisoformat rq = Some (IsoAware t off) ->
  (forall r, In r routes -> unique_id_of rq <> Some (unique_id r)) ->
  (forall cutoff it w0,
     it_request it = Some rq ->
     is_stale fromisoformat cutoff it w0
     = Raise (TypeError "can't compare offset-naive and offset-aware datetimes") w0)
  /\ exists e w',
       merge isoformat fromisoformat deprecation_days routes w = Raise (MergerError e) w'.
Proof.
  intros Hat Haware Hid. split.
  { intros cutoff it w0 Hrq. rewrite is_stale_run, Hrq, Haware. reflexivity. }
  destruct (merge isoformat fromisoformat deprecation_days routes w) as [res w'|e w'] eqn:Hm.
  - exfalso.
    assert (Htag : PyStr.contains deprecated_tag (default EmptyString (req_description rq))
                   = true).
    { unfold stamp_of in Haware.
      destruct (PyStr.contains deprecated_tag (default EmptyString (req_description rq)));
        [reflexivity | discriminate]. }
    apply merge_inv in Hm
      as (w1 & w2 & w3 & w4 & w5 & w6 & res0 & res1 & deprecated & removed
          & _ & Hheap & Hnew & Hens & Hloop & Hmark & Hrem & _).
    pose proof (merge_stays_until_expiry _ _ _ _ _ _ _ _ _ _ _ _ _
                  Hat Htag Hid Hheap Hnew Hens Hloop Hmark) as (_ & Hat5).
    exact (_remove_old_deprecated_naive _ _ _ _ _ Hrem Hat5 _ _ Haware).
  - revert Hm. unfold merge, try_merger.
    match goal with
    | |- match ?body w with _ => _ end = _ -> _ => destruct (body w) as [a w1|e1 w1]
    end; intros H; [discriminate|].
    inv_Return H. eauto.
Qed.

End AwareStamp.

(** ** The deprecation pass *)

Lemma index_mem_false_keys u (index : index_t) :
  index_mem u index = false -> ~ In u (map fst index).
Proof.
  unfold index_mem. induction index as [|[k v] rest IH]; simpl; [tauto|].
  destruct (String.eqb_spec k u) as [->|Hne]; [discriminate|].
  intros H [Heq|Hin]; [congruence | exact (IH H Hin)].
Qed.

Lemma index_fold_keys es : forall index,
  NoDup (map fst index) -> NoDup (map fst (index_fold index es)).
Proof.
  induction es as [|e es IH]; intros index Hnd; [exact Hnd|].
  unfold index_fold in *. simpl. apply IH. unfold index_add.
  destruct (unique_id_of (snd e)) as [u|]; [|exact Hnd].
  destruct (index_mem u index) eqn:Hmem; [exact Hnd|].
  rewrite map_app. apply NoDup_app. split; [exact Hnd|]. split; [|apply NoDup_singleton].
  intros x Hx Hx'. apply list_elem_of_In in Hx. apply list_elem_of_In in Hx'.
  destruct Hx' as [<-|[]]. exact (index_mem_false_keys _ _ Hmem Hx).
Qed.

Lemma index_of_keys items : NoDup (map fst (index_of items)).
Proof. apply index_fold_keys. apply NoDup_nil. trivial. Qed.

Lemma index_get_In uid p (index : index_t) :
  NoDup (map fst index) -> In (uid, p) index -> index_get uid index = Some p.
Proof.
  induction index as [|[k v] rest IH]; simpl; intros Hnd Hin; [destruct Hin|].
  apply NoDup_cons in Hnd as (Hk & Hnd). rewrite list_elem_of_In in Hk.
  destruct Hin as [Heq|Hin].
  - injection Heq as -> ->. rewrite String.eqb_refl. reflexivity.
  - destruct (String.eqb_spec k uid) as [->|Hne]; [|exact (IH Hnd Hin)].
    exfalso. apply Hk. apply in_map_iff. exists (uid, p). auto.
Qed.

Lemma index_get_Some_In uid p (index : index_t) :
  index_get uid index = Some p -> In (uid, p) index.
Proof.
  induction index as [|[k v] rest IH]; simpl; [discriminate|].
  destruct (String.eqb_spec k uid) as [->|Hne].
  - intros H. injection H as ->. left. reflexivity.
  - intros H. right. exact (IH H).
Qed.

Lemma for_each_app {A S : Type} (body : S -> A -> M S) (l1 l2 : list A) : forall acc w,
  for_each (l1 ++ l2)%list body acc w
  = (acc1 <- for_each l1 body acc ;; for_each l2 body acc1) w.
Proof.
  induction l1 as [|x l1 IH]; intros acc w; simpl; [reflexivity|].
  unfold bind. destruct (body acc x w) as [acc1 w1|e w1] eqn:Hx; [|reflexivity].
  rewrite IH. reflexivity.
Qed.

Section MarkPass.

Variable isoformat : Z -> string.
Variable fromisoformat : string -> iso_parse.
Variable deprecation_days : Z.

Lemma it_request_mark_item now it :
  it_request (mark_item isoformat now it)
  = (fun rq => {| req_method := req_method rq; req_header := req_header rq;
                  req_url := req_url rq;
                  req_description :=
                    Some (deprecated_tag ++ " (as of " ++ isoformat now ++ ")" ++ PyStr.nl
                          ++ PyStr.nl ++ item_description it) |}) <$> it_request it.
Proof. unfold mark_item. apply it_request_set_request. Qed.

Lemma marked_request_eq now it rq :
  it_request it = Some rq ->
  it_request (mark_item isoformat now it) = Some (marked_request isoformat now rq).
Proof.
  intros Hrq. rewrite it_request_mark_item, Hrq. simpl_opt. unfold marked_request.
  do 2 f_equal. unfold item_description. rewrite Hrq. simpl_opt.
  unfold deprecation_marker. rewrite !append_assoc. reflexivity.
Qed.

(** The loop of [_mark_deprecated] over references other than [p] leaves
    the entry at [p] as it is. *)
Lemma mark_loop_other p rq clock ids (l : index_t) :
  (forall u r, In (u, r) l -> r <> p) ->
  forall acc w acc' w',
    stays p rq clock w ->
    for_each l
      (fun deprecated '(unique_id, request_item) =>
         if str_mem unique_id ids then ret deprecated
         else
           items <- get_items ;;
           let desc := from_option item_description EmptyString
                                   (lookup_path request_item items) in
           if PyStr.contains deprecated_tag desc then ret deprecated
           else
             now <- utcnow ;;
             modify_items (alter_path (mark_item isoformat now) request_item) ;;;
             logger (DebugMarkedDeprecated unique_id) ;;;
             ret (deprecated ++ [unique_id])%list)
      acc w = Return acc' w' ->
    stays p rq clock w' /\ (forall x, In x acc -> In x acc') /\ (w_ticks w <= w_ticks w')%nat.
Proof.
  intros Hother acc w acc' w' Hstay.
  apply (for_each_inv (fun acc0 w0 =>
           stays p rq clock w0 /\ (forall x, In x acc -> In x acc0)
           /\ (w_ticks w <= w_ticks w0)%nat)); [|auto].
  intros acc0 [uid ref] w0 acc1 w1 Hin ((Hclk & Hat) & Hacc & Hticks) Hbody.
  destruct (str_mem uid ids); [inv_ret Hbody; repeat split; assumption|].
  inv_bind Hbody as its wa Hget. unfold get_items in Hget.
  injection Hget as Hits Hwa. subst wa its. cbv zeta in Hbody.
  destruct (PyStr.contains deprecated_tag _); [inv_ret Hbody; repeat split; assumption|].
  inv_bind Hbody as now wn Hnow. unfold utcnow in Hnow. injection Hnow as Hnw Hwn. subst wn.
  inv_bind Hbody as u wb Hmod. inv_bind Hbody as u' wc Hlog. inv_ret Hbody.
  unfold logger in Hlog. injection Hlog as Hwc. subst wc.
  unfold modify_items in Hmod. simpl in Hmod.
  assert (Hne : p <> ref).
  { intros Heq. apply (Hother uid ref Hin). symmetry. exact Heq. }
  split; [|split].
  - destruct (c_item (w_doc w0)) as [items|] eqn:Hitems.
    + unfold set_items in Hmod. injection Hmod as Hwb. subst wb.
      split; [exact Hclk|]. unfold items_in in *. simpl. rewrite Hitems in Hat. simpl in Hat.
      apply entry_at_alter_path;
        [apply it_item_mark_item | apply it_request_mark_item_None | exact Hne | exact Hat].
    + inv_ret Hmod. split; [exact Hclk|]. unfold items_in in *. simpl. exact Hat.
  - intros x Hx. apply in_app_iff. left. apply Hacc. exact Hx.
  - destruct (c_item (w_doc w0)); [unfold set_items in Hmod; injection Hmod as Hwb
                                  | unfold ret in Hmod; injection Hmod as Hwb];
      subst wb; simpl; lia.
Qed.

(** The turn of the loop at an entry without the tag whose identity is not
    among the routes'. *)
Lemma mark_turn p rq clock ids uid acc w acc' w' :
  str_mem uid ids = false ->
  PyStr.contains deprecated_tag (default EmptyString (req_description rq)) = false ->
  stays p rq clock w ->
  (items <- get_items ;;
   let desc := from_option item_description EmptyString (lookup_path p items) in
   if PyStr.contains deprecated_tag desc then ret acc
   else
     now <- utcnow ;;
     modify_items (alter_path (mark_item isoformat now) p) ;;;
     logger (DebugMarkedDeprecated uid) ;;;
     ret (acc ++ [uid])%list) w = Return acc' w' ->
  stays p (marked_request isoformat (clock (w_ticks w)) rq) clock w'
  /\ acc' = (acc ++ [uid])%list /\ w_ticks w' = S (w_ticks w).
Proof.
  intros Hmem Htag (Hclk & Hat) Hbody.
  inv_bind Hbody as its wa Hget. unfold get_items in Hget.
  injection Hget as Hits Hwa. subst wa its. cbv zeta in Hbody. fold (items_in w) in Hbody.
  destruct (entry_at_lookup _ _ _ Hat) as (it & Hl & Hrq).
  rewrite Hl in Hbody. simpl in Hbody.
  rewrite (entry_description _ _ _ _ Hat Hl), Htag in Hbody.
  inv_bind Hbody as now wn Hnow. unfold utcnow in Hnow. injection Hnow as Hnw Hwn. subst wn.
  inv_bind Hbody as u wb Hmod. inv_bind Hbody as u' wc Hlog. inv_ret Hbody.
  unfold logger in Hlog. injection Hlog as Hwc. subst wc.
  unfold modify_items in Hmod. simpl in Hmod.
  assert (Hsome : c_item (w_doc w) = Some (items_in w)).
  { unfold items_in in Hat |- *. destruct (c_item (w_doc w)); [reflexivity|].
    exfalso. destruct p as [|i q]; exact Hat. }
  rewrite Hsome in Hmod. unfold set_items in Hmod. injection Hmod as Hwb. subst wb.
  simpl. split; [|auto]. split; [exact Hclk|]. unfold items_in at 1. simpl.
  subst now. rewrite Hclk.
  apply (entry_at_alter_path_here _ rq); [|exact Hat].
  intros it0 Hrq0. rewrite <- Hclk. apply marked_request_eq. exact Hrq0.
Qed.

End MarkPass.

Lemma _ensure_folders_ticks folder_names w w' :
  _ensure_folders folder_names w = Return tt w' -> w_ticks w' = w_ticks w.
Proof.
  unfold _ensure_folders. intros H. inv_bind H as u wa Hinit.
  assert (Hta : w_ticks wa = w_ticks w).
  { destruct (c_item (w_doc w)); [unfold ret in Hinit|unfold set_items in Hinit];
      inv_Return Hinit; reflexivity. }
  inv_bind H as its wb Hsub. unfold items_subscript, subscript in Hsub.
  destruct (c_item (w_doc wa)); [|discriminate]. unfold ret in Hsub. inv_Return Hsub.
  inv_bind H as existing wc Hex.
  assert (Htc : w_ticks wc = w_ticks wb).
  { revert Hex. apply (for_each_inv (fun _ w0 => w_ticks w0 = w_ticks wb)); [|reflexivity].
    intros acc x w0 acc' w0' _ Ht Hbody.
    destruct (it_item x); [|unfold ret in Hbody; inv_Return Hbody; exact Ht].
    inv_bind Hbody as nm wn Hname. unfold ret in Hbody. inv_Return Hbody.
    unfold subscript in Hname. destruct (it_name x); [|discriminate].
    unfold ret in Hname. inv_Return Hname. exact Ht. }
  assert (Htf : w_ticks w' = w_ticks wc).
  { revert H. apply (for_each_inv (fun _ w0 => w_ticks w0 = w_ticks wc)); [|reflexivity].
    intros acc name w0 acc' w0' _ Ht Hbody.
    destruct (str_mem name existing); [unfold ret in Hbody; inv_Return Hbody; exact Ht|].
    inv_bind Hbody as u1 wx Happ. unfold logger in Hbody. inv_Return Hbody.
    unfold items_append in Happ.
    inv_bind Happ as items1 wy Hs. unfold items_subscript, subscript in Hs.
    destruct (c_item (w_doc w0)); [|discriminate]. unfold ret in Hs. inv_Return Hs.
    unfold set_items in Happ. inv_Return Happ. simpl. exact Ht. }
  congruence.
Qed.

Section Ticks.

Variable isoformat : Z -> string.

Lemma _update_request_ticks ref route w w' :
  _update_request isoformat ref route w = Return tt w' -> w_ticks w' = S (w_ticks w).
Proof.
  unfold _update_request, bind, utcnow, modify_items, set_items, logger, ret. simpl.
  destruct (c_item (w_doc w)); intros H; inv_Return H; reflexivity.
Qed.

Lemma _add_request_ticks route w w' :
  _add_request isoformat route w = Return tt w' -> (w_ticks w <= w_ticks w')%nat.
Proof.
  unfold _add_request. intros Hadd. inv_bind Hadd as its wg Hget.
  unfold get_items in Hget. inv_Return Hget.
  inv_bind Hadd as i wb Hfold.
  assert (Htb : w_ticks wb = w_ticks wg).
  { destruct (find_folder _ _ _); [unfold ret in Hfold; inv_Return Hfold; reflexivity|].
    inv_bind Hfold as items wx Hsub. unfold items_subscript, subscript in Hsub.
    destruct (c_item (w_doc wg)); [|discriminate]. unfold ret in Hsub. inv_Return Hsub.
    inv_bind Hfold as u' wy Hset. unfold set_items in Hset.
    inv_Return Hset. unfold ret in Hfold. inv_Return Hfold. reflexivity. }
  inv_bind Hadd as desc wc Hdesc.
  assert (Htc : (w_ticks wb <= w_ticks wc)%nat).
  { destruct (str_truthy (description route)); [unfold ret in Hdesc; inv_Return Hdesc; lia|].
    inv_bind Hdesc as now wx Hnow. unfold utcnow in Hnow. inv_Return Hnow.
    unfold ret in Hdesc. inv_Return Hdesc. simpl. lia. }
  inv_bind Hadd as u1 wd Hmod. unfold logger in Hadd. inv_Return Hadd.
  unfold modify_items in Hmod.
  destruct (c_item (w_doc wc)); [unfold set_items in Hmod|unfold ret in Hmod];
    inv_Return Hmod; simpl; lia.
Qed.

End Ticks.

Section MarkMerge.

Variable isoformat : Z -> string.
Variable fromisoformat : string -> iso_parse.
Variable deprecation_days : Z.

(** Up to the deprecation pass, [merge] leaves in place an entry that no
    route's reference leads to. *)
Lemma merge_stays_until_marking p rq routes w w1 w2 w3 w4 res0 res1 :
  entry_at p rq (items_in w) ->
  (forall r, In r routes -> index_get (unique_id r) (index_of (items_in w)) <> Some p) ->
  same_heap w w1 ->
  new_SyncResult w1 = Return res0 w2 ->
  _ensure_folders
    (map fst (_organize_by_folder
                (List.filter
                   (fun r => negb (index_mem (unique_id r) (index_of (items_in w))))
                   routes))) w2 = Return tt w3 ->
  for_each routes (process_route isoformat (index_of (items_in w))) res0 w3
  = Return res1 w4 ->
  stays p rq (w_clock w) w4
  /\ (w_ticks w <= w_ticks w4)%nat
  /\ routes_deprecated res1 = [].
Proof.
  intros Hat Hne Hheap Hnew Hens Hloop.
  assert (H1 : stays p rq (w_clock w) w1).
  { split; [apply Hheap | rewrite (same_heap_items _ _ Hheap); exact Hat]. }
  assert (H2 : stays p rq (w_clock w) w2 /\ (w_ticks w <= w_ticks w2)%nat
               /\ routes_deprecated res0 = []).
  { destruct Hheap as (_ & _ & Ht1). unfold new_SyncResult, bind, utcnow, ret in Hnew.
    inv_Return Hnew. destruct H1 as (Hc1 & Hat1). simpl.
    repeat split; [exact Hc1 | exact Hat1 | lia]. }
  destruct H2 as (H2 & Ht2 & Hd0).
  assert (H3 : stays p rq (w_clock w) w3 /\ (w_ticks w2 <= w_ticks w3)%nat).
  { split; [|rewrite (_ensure_folders_ticks _ _ _ Hens); lia].
    apply _ensure_folders_inv in Hens as (created & Hc & _ & Hclk & _).
    destruct H2 as (Hc2 & Hat2). split; [congruence|].
    rewrite (items_in_Some _ _ Hc). apply entry_at_app. exact Hat2. }
  destruct H3 as (H3 & Ht3).
  split; [revert Hloop; apply process_routes_stays; assumption|].
  revert Hloop.
  apply (for_each_inv (fun res w0 => (w_ticks w <= w_ticks w0)%nat
                                     /\ routes_deprecated res = [])); [|split; [lia|exact Hd0]].
  intros acc r w0 acc' w0' _ (Ht & Hd) Hbody. unfold process_route in Hbody.
  destruct (index_get (unique_id r) (index_of (items_in w))) as [ref|].
  - inv_bind Hbody as u wa Hupd. destruct u. apply _update_request_ticks in Hupd.
    unfold ret in Hbody. inv_Return Hbody. split; [lia | exact Hd].
  - inv_bind Hbody as u wa Hadd. destruct u. apply _add_request_ticks in Hadd.
    unfold ret in Hbody. inv_Return Hbody. split; [lia | exact Hd].
Qed.

(** A route gone missing. An entry that is the first of its identity,
    whose description does not carry the tag and whose identity no route
    has, comes out of a [merge] that returns with its identity in
    [routes_deprecated] and the marker of a clock reading of the run put
    before its description, the rest of its request as it was; unless the
    expiry pass of the same run removed it, its identity then being in
    [routes_removed]. *)
Theorem merge_marks_missing_route (routes : list Route) (w w' : world) (res : SyncResult)
    (p : path_ref) (rq : request) (uid : string) :
  entry_at p rq (items_in w) ->
  unique_id_of rq = Some uid ->
  index_get uid (index_of (items_in w)) = Some p ->
  (forall r, In r routes -> unique_id r <> uid) ->
  PyStr.contains deprecated_tag (default EmptyString (req_description rq)) = false ->
  merge isoformat fromisoformat deprecation_days routes w = Return res w' ->
  In uid (routes_deprecated res)
  /\ exists k,
       (w_ticks w <= k)%nat
       /\ ((exists p', entry_at p' (marked_request isoformat (w_clock w k) rq) (items_in w'))
           \/ In uid (routes_removed res)).
Proof.
  intros Hat Huid Hget Hid Htag Hmerge.
  apply merge_inv in Hmerge
    as (w1 & w2 & w3 & w4 & w5 & w6 & res0 & res1 & deprecated & removed
        & _ & Hheap & Hnew & Hens & Hloop & Hmark & Hrem & -> & Hdoc & _).
  destruct (merge_stays_until_marking p rq routes w w1 w2 w3 w4 res0 res1 Hat)
    as (Hstay4 & Ht4 & Hd1); try assumption.
  { intros r Hin Hgr. apply index_of_sound in Hgr as (it & rq' & Hl & Hrq & Hu).
    destruct (entry_at_lookup _ _ _ Hat) as (it' & Hl' & Hrq').
    apply (Hid r Hin). congruence. }
  (* the deprecation pass *)
  set (index := index_of (items_in w)) in *.
  assert (Hnd : NoDup (map fst index)) by apply index_of_keys.
  destruct (in_split _ _ (index_get_Some_In _ _ _ Hget)) as (l1 & l2 & Hsplit).
  assert (Hother : forall u r, In (u, r) (l1 ++ l2)%list -> r <> p).
  { intros u r Hin ->.
    assert (Hin' : In (u, p) index).
    { rewrite Hsplit. apply in_app_iff. apply in_app_iff in Hin as [H|H]; [left|right; right]; exact H. }
    pose proof (index_get_In _ _ _ Hnd Hin') as Hgu.
    apply index_of_sound in Hgu as (it & rq0 & Hl & Hrq & Hu).
    destruct (entry_at_lookup _ _ _ Hat) as (it' & Hl' & Hrq').
    assert (u = uid) by congruence. subst u.
    rewrite Hsplit, map_app in Hnd. simpl in Hnd.
    apply NoDup_app in Hnd as (_ & Hdisj & Hnd2).
    apply NoDup_cons in Hnd2 as (Hnot2 & _).
    apply in_app_iff in Hin as [H|H].
    - apply (Hdisj uid).
      + apply list_elem_of_In. apply in_map_iff. exists (uid, p). auto.
      + left.
    - apply Hnot2. apply list_elem_of_In. apply in_map_iff. exists (uid, p). auto. }
  assert (Hmem : str_mem uid (map unique_id routes) = false).
  { destruct (str_mem uid (map unique_id routes)) eqn:Hm; [|reflexivity].
    apply str_mem_In in Hm. apply in_map_iff in Hm as (r & Hr & Hin).
    exfalso. exact (Hid r Hin Hr). }
  unfold _mark_deprecated in Hmark. rewrite Hsplit, for_each_app in Hmark.
  inv_bind Hmark as acc1 wa Hl1. simpl in Hmark. inv_bind Hmark as acc2 wb Hturn.
  rewrite Hmem in Hturn.
  assert (Hother1 : forall u r, In (u, r) l1 -> r <> p).
  { intros u r Hin. apply (Hother u r). apply in_app_iff. left. exact Hin. }
  assert (Hother2 : forall u r, In (u, r) l2 -> r <> p).
  { intros u r Hin. apply (Hother u r). apply in_app_iff. right. exact Hin. }
  pose proof (mark_loop_other isoformat p rq (w_clock w) (map unique_id routes) l1
                Hother1 _ _ _ _ Hstay4 Hl1) as (Hstaya & _ & Hta).
  pose proof (mark_turn isoformat p rq (w_clock w) (map unique_id routes) uid
                _ _ _ _ Hmem Htag Hstaya Hturn) as (Hstayb & -> & Htb).
  pose proof (mark_loop_other isoformat p _ (w_clock w) (map unique_id routes) l2
                Hother2 _ _ _ _ Hstayb Hmark) as (Hstay5 & Hacc & _).
  split.
  { simpl. rewrite Hd1. simpl. apply Hacc. apply in_app_iff. right. left. reflexivity. }
  exists (w_ticks wa). split; [lia|].
  destruct Hstay5 as (Hclk5 & Hat5).
  pose proof (_remove_old_deprecated_inv _ _ _ _ _ _ eq_refl Hrem) as (_ & _ & _ & Hfate).
  specialize (Hfate p _ Hat5).
  destruct (stale_request fromisoformat _ _).
  - right. destruct Hfate as (uid' & Hu' & Hin).
    assert (uid' = uid) by (unfold unique_id_of, marked_request in *; simpl in *; congruence).
    subst uid'. simpl. apply in_app_iff. auto.
  - left. unfold items_in in *. rewrite Hdoc. exact Hfate.
Qed.

(** A duplicate is out of reach. An entry whose identity the index holds
    for another, earlier entry, and whose description does not carry the
    tag, comes out of a [merge] that returns with its request as it was:
    no route updates it, also not one with its identity, and the
    deprecation pass does not mark it, also not when no route has its
    identity. *)
Theorem merge_leaves_duplicates (routes : list Route) (w w' : world) (res : SyncResult)
    (p p0 : path_ref) (rq : request) (uid : string) :
  entry_at p rq (items_in w) ->
  unique_id_of rq = Some uid ->
  index_get uid (index_of (items_in w)) = Some p0 ->
  p0 <> p ->
  PyStr.contains deprecated_tag (default EmptyString (req_description rq)) = false ->
  merge isoformat fromisoformat deprecation_days routes w = Return res w' ->
  exists p', entry_at p' rq (items_in w').
Proof.
  intros Hat Huid Hget Hp0 Htag Hmerge.
  apply merge_inv in Hmerge
    as (w1 & w2 & w3 & w4 & w5 & w6 & res0 & res1 & deprecated & removed
        & _ & Hheap & Hnew & Hens & Hloop & Hmark & Hrem & -> & Hdoc & _).
  assert (Hunreached : forall u, index_get u (index_of (items_in w)) <> Some p).
  { intros u Hgu. pose proof Hgu as Hgu'.
    apply index_of_sound in Hgu' as (it & rq' & Hl & Hrq & Hu).
    destruct (entry_at_lookup _ _ _ Hat) as (it' & Hl' & Hrq').
    assert (u = uid) by congruence. subst u. congruence. }
  destruct (merge_stays_until_marking p rq routes w w1 w2 w3 w4 res0 res1 Hat)
    as (Hstay4 & _ & _); try assumption.
  { intros r _. apply Hunreached. }
  assert (Hother : forall u r, In (u, r) (index_of (items_in w)) -> r <> p).
  { intros u r Hin ->. apply (Hunreached u).
    apply index_get_In; [apply index_of_keys | exact Hin]. }
  unfold _mark_deprecated in Hmark.
  pose proof (mark_loop_other isoformat p rq (w_clock w) (map unique_id routes) _
                Hother _ _ _ _ Hstay4 Hmark) as ((Hclk5 & Hat5) & _ & _).
  pose proof (_remove_old_deprecated_inv _ _ _ _ _ _ eq_refl Hrem) as (_ & _ & _ & Hfate).
  specialize (Hfate p rq Hat5).
  assert (Hfresh : forall cutoff, stale_request fromisoformat cutoff rq = false).
  { intros cutoff. unfold stale_request, stamp_of. rewrite Htag. reflexivity. }
  rewrite Hfresh in Hfate. unfold items_in in *. rewrite Hdoc. exact Hfate.
Qed.

End MarkMerge.

(** ** Folders *)

Lemma existing_folders_names (items : list item) : forall names w,
  Forall (fun it => is_Some (it_item it) -> is_Some (it_name it)) items ->
  for_each items
    (fun names it =>
       match it_item it with
       | Some _ => name <- subscript "name" (it_name it) ;; ret (names ++ [name])%list
       | None => ret names
       end) names w = Return (names ++ folder_names_of items)%list w.
Proof.
  induction items as [|x l IH]; intros names w Hall; simpl.
  - rewrite app_nil_r. reflexivity.
  - apply Forall_cons in Hall as (Hx & Hl). unfold bind at 1.
    destruct (it_item x) as [c|].
    + destruct (Hx (ex_intro _ c eq_refl)) as (n & ->). simpl.
      rewrite (IH _ _ Hl), <- app_assoc. reflexivity.
    + simpl. apply IH. exact Hl.
Qed.

Lemma create_folders_run existing : forall names cur w,
  c_item (w_doc w) = Some cur ->
  exists w',
    for_each names
      (fun (_ : unit) folder_name =>
         if str_mem folder_name existing then ret tt
         else items_append (new_folder folder_name) ;;;
              logger (DebugCreatedFolder folder_name)) tt w = Return tt w'
    /\ c_item (w_doc w')
       = Some (cur ++ map new_folder
                        (List.filter (fun n => negb (str_mem n existing)) names))%list
    /\ c_info (w_doc w') = c_info (w_doc w).
Proof.
  induction names as [|n names IH]; intros cur w Hc; simpl.
  - exists w. rewrite app_nil_r. auto.
  - unfold bind at 1. destruct (str_mem n existing); simpl.
    + apply IH. exact Hc.
    + unfold bind at 1, items_append, bind at 1, items_subscript, subscript. rewrite Hc.
      unfold ret at 1, set_items, logger. simpl.
      match goal with
      | |- exists w', for_each _ _ _ ?w1 = _ /\ _ => 
          destruct (IH (cur ++ [new_folder n])%list w1 eq_refl) as (w' & Hrun & Hitems & Hinfo)
      end.
      exists w'. split; [exact Hrun|]. rewrite Hitems, <- app_assoc. auto.
Qed.

Lemma folder_names_of_app l1 l2 :
  folder_names_of (l1 ++ l2) = (folder_names_of l1 ++ folder_names_of l2)%list.
Proof. apply flat_map_app. Qed.

Lemma folder_names_of_new names : folder_names_of (map new_folder names) = names.
Proof. induction names as [|n l IH]; [reflexivity|]. simpl. f_equal. exact IH. Qed.

Lemma str_mem_app x l1 l2 : str_mem x (l1 ++ l2) = str_mem x l1 || str_mem x l2.
Proof. apply existsb_app. Qed.

Lemma filter_created_again existing names :
  List.filter
    (fun n => negb (str_mem n (existing
                               ++ List.filter (fun n => negb (str_mem n existing)) names)))
    names = [].
Proof.
  apply filter_none. intros n Hin. rewrite str_mem_app.
  destruct (str_mem n existing) eqn:Hex; [reflexivity|]. simpl.
  apply negb_false_iff. apply str_mem_In. apply filter_In. rewrite Hex. auto.
Qed.

(** [_ensure_folders] on a collection whose top-level folders all have a
    name: it returns; it appends, in the order of the names it is given,
    an empty folder for each name that no top-level folder has, and
    touches nothing else; every name it was given is then the name of a
    top-level folder; and a second call with the same names changes
    nothing. *)
Theorem ensure_folders_contract (folder_names : list string) (w : world) :
  Forall (fun it => is_Some (it_item it) -> is_Some (it_name it)) (items_in w) ->
  exists w',
    _ensure_folders folder_names w = Return tt w'
    /\ c_item (w_doc w')
       = Some (items_in w
               ++ map new_folder
                    (List.filter (fun n => negb (str_mem n (folder_names_of (items_in w))))
                                 folder_names))%list
    /\ c_info (w_doc w') = c_info (w_doc w)
    /\ (forall n, In n folder_names -> In n (folder_names_of (items_in w')))
    /\ exists w'', _ensure_folders folder_names w' = Return tt w'' /\ w_doc w'' = w_doc w'.
Proof.
  intros Hnamed.
  assert (Hgen : forall w0 items,
             c_item (w_doc w0) = Some items ->
             Forall (fun it => is_Some (it_item it) -> is_Some (it_name it)) items ->
             exists w',
               _ensure_folders folder_names w0 = Return tt w'
               /\ c_item (w_doc w')
                  = Some (items
                          ++ map new_folder
                               (List.filter (fun n => negb (str_mem n (folder_names_of items)))
                                            folder_names))%list
               /\ c_info (w_doc w') = c_info (w_doc w0)).
  { intros w0 items Hc Hall.
    destruct (_ensure_folders_start w0 items Hc) as (Hinit & Hsub).
    unfold _ensure_folders.
    rewrite (bind_Return_intro _ _ _ _ _ Hinit), (bind_Return_intro _ _ _ _ _ Hsub),
      (bind_Return_intro _ _ _ _ _ (existing_folders_names items [] w0 Hall)).
    simpl app. apply create_folders_run. exact Hc. }
  assert (Hfirst : exists w',
             _ensure_folders folder_names w = Return tt w'
             /\ c_item (w_doc w')
                = Some (items_in w
                        ++ map new_folder
                             (List.filter
                                (fun n => negb (str_mem n (folder_names_of (items_in w))))
                                folder_names))%list
             /\ c_info (w_doc w') = c_info (w_doc w)).
  { destruct (c_item (w_doc w)) as [items|] eqn:Hc.
    - rewrite (items_in_Some _ _ Hc) in *. apply Hgen; assumption.
    - assert (Hnil : items_in w = []) by (unfold items_in; rewrite Hc; reflexivity).
      rewrite Hnil in *.
      set (w0 := with_doc {| c_info := c_info (w_doc w); c_item := Some [] |} w).
      destruct (Hgen w0 [] eq_refl (Forall_nil_2 _)) as (w' & Hrun & Hitems & Hinfo).
      exists w'. split; [|auto]. rewrite <- Hrun. unfold _ensure_folders, bind at 1 3.
      rewrite Hc. reflexivity. }
  destruct Hfirst as (w' & Hrun & Hitems & Hinfo).
  exists w'. split; [exact Hrun|]. split; [exact Hitems|]. split; [exact Hinfo|].
  set (created := List.filter (fun n => negb (str_mem n (folder_names_of (items_in w))))
                              folder_names) in *.
  assert (Hnames' : folder_names_of (items_in w') = (folder_names_of (items_in w) ++ created)%list).
  { rewrite (items_in_Some _ _ Hitems), folder_names_of_app, folder_names_of_new. reflexivity. }
  split.
  - intros n Hin. rewrite Hnames'. apply in_app_iff.
    destruct (str_mem n (folder_names_of (items_in w))) eqn:Hex.
    + left. apply str_mem_In. exact Hex.
    + right. apply filter_In. rewrite Hex. auto.
  - destruct (Hgen w' _ Hitems) as (w'' & Hrun2 & Hitems2 & Hinfo2).
    + apply Forall_app. split; [exact Hnamed|].
      apply Forall_forall. intros it Hin _. apply list_elem_of_In in Hin.
      apply in_map_iff in Hin as (n & <- & _). eexists. reflexivity.
    + exists w''. split; [exact Hrun2|].
      rewrite <- (items_in_Some _ _ Hitems), Hnames' in Hitems2.
      unfold created in Hitems2. rewrite filter_created_again in Hitems2.
      simpl in Hitems2. rewrite app_nil_r, (items_in_Some _ _ Hitems) in Hitems2.
      destruct (w_doc w'') as [i2 c2], (w_doc w') as [i1 c1]. simpl in *. congruence.
Qed.

(** ** What the deprecation pass writes, the expiry pass reads *)

Section ReadBack.

Variable isoformat : Z -> string.
Variable fromisoformat : string -> iso_parse.

Lemma marked_request_marked now rq :
  marked_since (isoformat now) (marked_request isoformat now rq).
Proof. eexists. reflexivity. Qed.

(** The stamp the deprecation pass writes is the stamp the expiry pass
    finds, whatever the description was before, also one that has other
    text of the form "(as of ...)": when [isoformat] yields a non-empty
    text of digits and of the characters [-T:.], the expiry pass gives
    [fromisoformat] exactly that text; and when that reads back as the date
    it was written for, the marked request is stale exactly when that date
    is before the cutoff. *)
Theorem marker_read_back (now : Z) (rq : request) :
  isoformat now <> EmptyString ->
  all_chars stamp_char (isoformat now) = true ->
  PyStr.contains deprecated_tag
    (default EmptyString (req_description (marked_request isoformat now rq))) = true
  /\ search_as_of (default EmptyString (req_description (marked_request isoformat now rq)))
     = Some (isoformat now)
  /\ stamp_of fromisoformat (marked_request isoformat now rq)
     = Some (fromisoformat (isoformat now))
  /\ (fromisoformat (isoformat now) = IsoNaive now ->
      forall cutoff,
        stale_request fromisoformat cutoff (marked_request isoformat now rq)
        = (now <? cutoff)).
Proof.
  intros Hne Hchars. pose proof (marked_request_marked now rq) as Hm.
  split; [exact (marked_tagged _ _ Hm)|].
  split.
  { destruct (marked_description _ _ Hm) as (rest & ->).
    apply search_as_of_marker; assumption. }
  pose proof (marked_stamp_of fromisoformat _ _ Hne Hchars Hm) as Hst.
  split; [exact Hst|].
  intros Hback cutoff. unfold stale_request. rewrite Hst, Hback. reflexivity.
Qed.

End ReadBack.

(** ** Insertion *)

Section Insertion.

Variable isoformat : Z -> string.

(** [_add_request] on a collection that has the key [item]: it returns;
    the request item it builds becomes the last child of the first
    top-level folder with the route's folder name (a top-level item with
    that name and the key [item]), or, when there is none, the only child
    of a new folder appended to the top level; nothing else in the tree
    changes. The description of the new request is the route's own when it
    has one, with no sync note, and otherwise the line of method and path
    followed by the sync note of the clock reading. *)
Theorem add_request_contract (route : Route) (w : world) (items : list item) :
  c_item (w_doc w) = Some items ->
  exists w' desc,
    _add_request isoformat route w = Return tt w'
    /\ desc = (if str_truthy (description route)
               then default EmptyString (description route)
               else method_value (method route) ++ " " ++ full_path route
                    ++ sync_note isoformat (w_clock w (w_ticks w)))
    /\ c_item (w_doc w')
       = Some (match find_folder (folder_name route) O items with
               | Some i => alter (folder_append (build_request_item route desc)) i items
               | None =>
                   (items ++ [Item (Some (folder_name route)) None None None
                                (Some [build_request_item route desc])])%list
               end)
    /\ c_info (w_doc w') = c_info (w_doc w)
    /\ w_log w' = (w_log w ++ [DebugAddedRequest (unique_id route)])%list
    /\ (forall i, find_folder (folder_name route) O items = Some i ->
          exists folder,
            items !! i = Some folder /\ it_name folder = Some (folder_name route)
            /\ lookup_path [i; length (default [] (it_item folder))] (items_in w')
               = Some (build_request_item route desc)).
Proof.
  intros Hc. unfold _add_request, bind at 1, get_items. rewrite Hc. simpl default.
  destruct (find_folder (folder_name route) 0 items) as [i|] eqn:Hfind.
  - unfold bind at 1, ret at 1.
    assert (Hlast : forall desc w',
               c_item (w_doc w')
               = Some (alter (folder_append (build_request_item route desc)) i items) ->
               forall i0, Some i = Some i0 ->
                 exists folder,
                   items !! i0 = Some folder /\ it_name folder = Some (folder_name route)
                   /\ lookup_path [i0; length (default [] (it_item folder))] (items_in w')
                      = Some (build_request_item route desc)).
    { intros desc w' Hc' i0 Hi. injection Hi as <-.
      apply find_folder_Some in Hfind as (j & f & -> & Hj & Hn & (children & Hch)).
      change (0 + j)%nat with j in *. exists f. split; [exact Hj|]. split; [exact Hn|].
      rewrite (items_in_Some _ _ Hc'), lookup_path_cons, list_lookup_alter_eq, Hj. simpl_opt.
      unfold folder_append. rewrite it_item_set_item, Hch. simpl_opt.
      apply list_lookup_middle. reflexivity. }
    destruct (str_truthy (description route)).
    + unfold bind at 1, ret at 1. unfold bind, modify_items. rewrite Hc.
      unfold set_items, logger. simpl. eexists _, _. split; [reflexivity|].
      split; [reflexivity|]. simpl. repeat split. apply Hlast. reflexivity.
    + unfold bind at 1. unfold bind at 1, utcnow, ret at 1.
      unfold bind, modify_items. simpl. rewrite Hc.
      unfold set_items, logger. simpl. eexists _, _. split; [reflexivity|].
      split; [reflexivity|]. simpl. repeat split. apply Hlast. reflexivity.
  - unfold bind at 1. unfold bind at 1, items_subscript, subscript. rewrite Hc. unfold ret at 1.
    unfold bind at 1, set_items, ret at 1.
    assert (Hnew : forall desc,
               alter (folder_append (build_request_item route desc)) (length items)
                     (items ++ [new_folder (folder_name route)])%list
               = (items ++ [Item (Some (folder_name route)) None None None
                              (Some [build_request_item route desc])])%list).
    { intros desc. rewrite alter_app_r_alt by lia. rewrite Nat.sub_diag. reflexivity. }
    destruct (str_truthy (description route)).
    + unfold bind at 1, ret at 1. unfold bind, modify_items. simpl.
      unfold set_items, logger. simpl. eexists _, _. split; [reflexivity|].
      split; [reflexivity|]. simpl. rewrite Hnew. repeat split. discriminate.
    + unfold bind at 1. unfold bind at 1, utcnow, ret at 1.
      unfold bind, modify_items. simpl.
      unfold set_items, logger. simpl. eexists _, _. split; [reflexivity|].
      split; [reflexivity|]. simpl. rewrite Hnew. repeat split. discriminate.
Qed.

End Insertion.

(** ** The paths that survive [_build_url] *)

Lemma split_no_sep (c : ascii) s :
  all_chars (fun x => negb (Ascii.eqb x c)) s = true -> PyStr.split c s = [s].
Proof.
  induction s as [|x s IH]; [reflexivity|]. simpl. intros H.
  apply andb_prop in H as (Hx & Hs). apply negb_true_iff in Hx. rewrite Hx, (IH Hs).
  reflexivity.
Qed.

Lemma split_app_sep (c : ascii) a s :
  all_chars (fun x => negb (Ascii.eqb x c)) a = true ->
  PyStr.split c (a ++ String c s) = a :: PyStr.split c s.
Proof.
  induction a as [|x a IH]; simpl; intros H.
  - rewrite Ascii.eqb_refl. reflexivity.
  - apply andb_prop in H as (Hx & Ha). apply negb_true_iff in Hx. rewrite Hx, (IH Ha).
    reflexivity.
Qed.

Lemma split_join (c : ascii) (l : list string) :
  l <> [] ->
  Forall (fun s => all_chars (fun x => negb (Ascii.eqb x c)) s = true) l ->
  PyStr.split c (PyStr.join (String c EmptyString) l) = l.
Proof.
  unfold PyStr.join. intros Hne Hall. induction Hall as [|s l Hs Hl IH]; [congruence|].
  destruct l as [|s' l].
  - simpl. apply split_no_sep. exact Hs.
  - change (String.concat (String c "") (s :: s' :: l))
      with (s ++ String c (String.concat (String c "") (s' :: l))).
    rewrite (split_app_sep c s _ Hs), IH by discriminate. reflexivity.
Qed.

Lemma split_parts (c : ascii) s :
  Forall (fun s => all_chars (fun x => negb (Ascii.eqb x c)) s = true) (PyStr.split c s).
Proof.
  induction s as [|x s IH]; simpl; [repeat constructor|].
  destruct (Ascii.eqb x c) eqn:Hx; [constructor; [reflexivity | exact IH]|].
  destruct (PyStr.split c s) as [|h t].
  - repeat constructor. simpl. rewrite Hx. reflexivity.
  - apply Forall_cons in IH as (Hh & Ht). constructor; [|exact Ht].
    simpl. rewrite Hx, Hh. reflexivity.
Qed.

Lemma Forall_filter_keep {A : Type} (P : A -> Prop) (f : A -> bool) (l : list A) :
  Forall P l -> Forall P (List.filter f l).
Proof.
  induction 1 as [|x l Hx _ IH]; simpl; [constructor|].
  destruct (f x); [constructor; assumption | exact IH].
Qed.

Lemma filter_nonempty_all (l : list string) :
  Forall (fun seg => seg <> EmptyString) (List.filter (fun p => negb (PyStr.is_empty p)) l).
Proof.
  induction l as [|s l IH]; simpl; [constructor|].
  destruct s; simpl; [exact IH|]. constructor; [discriminate | exact IH].
Qed.

Lemma extract_build_url_shape p :
  _extract_path (_build_url p)
  = "/" ++ PyStr.join "/" (List.filter (fun s => negb (PyStr.is_empty s)) (PyStr.split "/" p)).
Proof. reflexivity. Qed.

(** The round trip through [_build_url] and [_extract_path] holds for the
    path "/" and for the paths that start with "/" and have no empty
    segment after it, and for no other path: not for one without the
    leading "/", with a doubled "/" or with a "/" at its end. What the
    round trip makes of any path is a path for which it holds. *)
Theorem extract_build_url_iff (p : string) :
  (_extract_path (_build_url p) = p
   <-> PyStr.startswith "/" p = true
       /\ (p = "/" \/ Forall (fun seg => seg <> EmptyString) (tail (PyStr.split "/" p))))
  /\ _extract_path (_build_url (_extract_path (_build_url p)))
     = _extract_path (_build_url p).
Proof.
  assert (Hback : forall q,
             PyStr.startswith "/" q = true
             /\ (q = "/" \/ Forall (fun seg => seg <> EmptyString) (tail (PyStr.split "/" q))) ->
             _extract_path (_build_url q) = q).
  { intros q (Hstart & [->|Hsegs]); [reflexivity | apply extract_build_url; assumption]. }
  assert (Hshape : forall q,
             let parts := List.filter (fun s => negb (PyStr.is_empty s)) (PyStr.split "/" q) in
             PyStr.startswith "/" ("/" ++ PyStr.join "/" parts) = true
             /\ ("/" ++ PyStr.join "/" parts = "/"
                 \/ Forall (fun seg => seg <> EmptyString)
                           (tail (PyStr.split "/" ("/" ++ PyStr.join "/" parts))))).
  { intros q parts. split; [apply (prefix_append "/")|].
    destruct parts as [|s l] eqn:Hparts; [left; reflexivity|]. right.
    change (PyStr.split "/" ("/" ++ PyStr.join "/" (s :: l)))
      with (EmptyString :: PyStr.split "/" (PyStr.join "/" (s :: l))).
    cbn [tail]. rewrite (split_join "/" (s :: l)); [| discriminate |].
    - rewrite <- Hparts. apply filter_nonempty_all.
    - rewrite <- Hparts. apply Forall_filter_keep. apply split_parts. }
  split; [split|].
  - intros Hround. rewrite <- Hround, extract_build_url_shape. apply Hshape.
  - apply Hback.
  - apply Hback. rewrite extract_build_url_shape. apply Hshape.
Qed.

(** ** The other validators, and the summary *)

(** [validate_route_path] raises nothing but [ValidationError], touches
    nothing, and accepts exactly the non-empty paths that start with "/"
    and hold no space, tab or line feed: a doubled "/" or a "/" at the end
    are accepted, other blanks too. *)
Theorem validate_route_path_accepts (path : string) (w : world) :
  (validate_route_path path w = Return tt w
   \/ exists msg, validate_route_path path w = Raise (ValidationError msg) w)
  /\ (validate_route_path path w = Return tt w
      <-> path <> EmptyString
          /\ PyStr.startswith "/" path = true
          /\ has_char " " path = false
          /\ has_char tab path = false
          /\ has_char newline path = false).
Proof.
  unfold validate_route_path. destruct path as [|c r].
  { simpl. split; [right; eexists; reflexivity|].
    split; [discriminate | intros (H & _); congruence]. }
  cbn [PyStr.is_empty]. destruct (PyStr.startswith "/" (String c r)) eqn:Hs; cbn [negb].
  2:{ split; [right; eexists; reflexivity|].
      split; [discriminate | intros (_ & H & _); discriminate]. }
  cbn [for_each]. unfold bind.
  destruct (has_char " " (String c r)) eqn:H1.
  { split; [right; eexists; reflexivity|].
    split; [discriminate | intros (_ & _ & H & _); discriminate]. }
  destruct (has_char tab (String c r)) eqn:H2.
  { split; [right; eexists; reflexivity|].
    split; [discriminate | intros (_ & _ & _ & H & _); discriminate]. }
  destruct (has_char newline (String c r)) eqn:H3.
  { split; [right; eexists; reflexivity|].
    split; [discriminate | intros (_ & _ & _ & _ & H); discriminate]. }
  split; [left; reflexivity|]. split; [|reflexivity].
  intros _. repeat split; discriminate.
Qed.

Lemma str_mem_valid_methods s :
  str_mem s valid_methods = true <-> exists m : HttpMethod, s = method_value m.
Proof.
  rewrite str_mem_In. unfold valid_methods. simpl. split.
  - intros [<-|[<-|[<-|[<-|[<-|[<-|[<-|[]]]]]]]];
      [exists GET | exists POST | exists PUT | exists PATCH | exists DELETE
       | exists OPTIONS | exists HEAD]; reflexivity.
  - intros ([] & ->); simpl; tauto.
Qed.

(** [validate_http_method] and the enumeration [HttpMethod] agree: an
    ASCII text is accepted exactly when its upper case is the value of one
    of the seven methods, so every method is accepted in any letter case;
    what is raised otherwise is a [ValidationError], and nothing is
    touched. *)
Theorem validate_http_method_accepts (method : string) (w : world) :
  is_ascii_text method = true ->
  (validate_http_method method w = Return tt w
   <-> exists m : HttpMethod, upper method = method_value m)
  /\ (validate_http_method method w = Return tt w
      \/ exists msg, validate_http_method method w = Raise (ValidationError msg) w).
Proof.
  intros _. unfold validate_http_method.
  destruct (str_mem (upper method) valid_methods) eqn:Hmem.
  - split; [|left; reflexivity]. split; [|reflexivity].
    intros _. apply str_mem_valid_methods. exact Hmem.
  - split; [|right; eexists; reflexivity]. split; [discriminate|].
    intros H. apply str_mem_valid_methods in H. congruence.
Qed.

(** [summary] is "  No changes" exactly when the four lists of changes and
    the list of errors are all empty. *)
Theorem summary_no_changes (r : SyncResult) :
  summary r = "  No changes" <-> has_changes r = false /\ has_errors r = false.
Proof.
  destruct r as [ra ru rd rr er sa]. unfold summary, has_changes, has_errors.
  cbn [routes_added routes_updated routes_deprecated routes_removed errors].
  destruct ra as [|a ra]; destruct ru as [|u ru]; destruct rd as [|d rd];
    destruct rr as [|x rr]; destruct er as [|e er]; cbn [nonempty app orb];
    (split; [|intros (H1 & H2); try discriminate; reflexivity]);
    try (intros _; split; reflexivity);
    unfold PyStr.join, PyStr.nl; cbn [String.concat append]; intros H; discriminate H.
Qed.

(** ** The sync engine *)

(** Reduce the engine's combinators, and nothing of the merger. *)
Ltac engine_step :=
  cbv beta iota zeta
      delta [SyncEngine.run_sync SyncEngine.try_except SyncEngine.and_then
             SyncEngine.reading SyncEngine.calling SyncEngine.pure SyncEngine.raising
             SyncEngine.report_failure SyncEngine.new_result SyncEngine.is_sync_failure
             SyncEngine.is_Exception nonempty negb andb orb state_of
             update_attempted stage_attempted];
  cbn [SyncEngine.calls SyncEngine.ticks SyncEngine.clock].

Ltac calls_done := cbn [app]; rewrite <- ?app_assoc; cbn [app]; reflexivity.

Ltac outcome_done :=
  first
    [ exact I
    | left; eexists; split; reflexivity
    | right; split; [reflexivity|];
      first [ left; first [assumption | reflexivity]
            | right; left; first [assumption | reflexivity]
            | right; right; left; first [assumption | reflexivity]
            | right; right; right; left; first [assumption | reflexivity]
            | right; right; right; right; first [assumption | reflexivity] ] ].

Ltac engine_exn e :=
  destruct e as [?m|[?m|?k|?m|?m|?c]|?m|?m|?m|?m| |?m].

Section Engine.

Variable isoformat : Z -> string.
Variable fromisoformat : string -> iso_parse.

Import SyncEngine.

(** A [merge] of at least one route that returns reports a change. *)
Lemma merge_reports_changes deprecation_days routes w w' res :
  routes <> [] ->
  merge isoformat fromisoformat deprecation_days routes w = Return res w' ->
  has_changes res = true.
Proof.
  intros Hne Hmerge.
  apply merge_inv in Hmerge
    as (w1 & w2 & w3 & w4 & w5 & w6 & res0 & res1 & deprecated & removed
        & _ & _ & Hnew & _ & Hloop & _ & _ & -> & _).
  apply new_SyncResult_inv in Hnew as (_ & _ & Ha0 & Hu0 & _).
  apply process_routes_result in Hloop as (Hu & Ha & _).
  rewrite Hu0 in Hu. rewrite Ha0 in Ha. simpl in Hu, Ha.
  unfold has_changes. simpl. rewrite Hu, Ha.
  destruct routes as [|r routes]; [congruence|]. simpl.
  destruct (index_mem (unique_id r) (index_of (items_in w))); simpl;
    [rewrite orb_true_r | ]; reflexivity.
Qed.

(** Every way out of [run_sync]: it returns a result, or it raises
    [SyncError], which it does only when [fail_on_error] is set, or it lets
    through what is not an [Exception] (a [KeyboardInterrupt], a
    [SystemExit]) raised by one of the calls outside. With [fail_on_error]
    unset and no such interruption it always returns. *)
Theorem run_sync_outcomes (config : Config) (env : Environment) (s : state) :
  match run_sync isoformat fromisoformat config env s with
  | Returns _ _ => True
  | Raises e _ =>
      (exists msg, e = SyncError msg /\ fail_on_error config = true)
      \/ (is_Exception e = false
          /\ (parse_directory env = inl e \/ load_collection env = inl e
              \/ write_collection_raises env = Some e
              \/ update_collection_raises env = Some e
              \/ stage_files_raises env = Some e))
  end.
Proof.
  engine_step.
  destruct (parse_directory env) as [e|routes] eqn:Hparse.
  { engine_exn e; engine_step; destruct (fail_on_error config); engine_step; outcome_done. }
  destruct routes as [|r routes]; engine_step; [exact I|].
  destruct (collection_file_exists env); engine_step.
  2:{ destruct (fail_on_error config); engine_step; outcome_done. }
  destruct (load_collection env) as [e|local] eqn:Hload.
  { engine_exn e; engine_step; destruct (fail_on_error config); engine_step; outcome_done. }
  unfold merging.
  destruct (merge _ _ _ _ _) as [res w'|e w'] eqn:Hmerge; engine_step.
  2:{ destruct e as [m|k|m|m|c]; engine_step; destruct (fail_on_error config);
        engine_step; outcome_done. }
  destruct (has_changes res); engine_step; [|exact I].
  destruct (write_collection_raises env) as [e|] eqn:Hwrite.
  { engine_exn e; engine_step; destruct (fail_on_error config); engine_step; outcome_done. }
  destruct (PyStr.is_empty (postman_collection_id config)); engine_step.
  - destruct (auto_stage config); engine_step; [|exact I].
    destruct (stage_files_raises env) as [e|] eqn:Hstage; engine_step; [|exact I].
    engine_exn e; engine_step; destruct (fail_on_error config); engine_step; outcome_done.
  - destruct (update_collection_raises env) as [e|] eqn:Hupdate; engine_step.
    + engine_exn e; engine_step; destruct (fail_on_error config) eqn:Hfail; engine_step;
        try outcome_done.
      destruct (auto_stage config); engine_step; [|exact I].
      destruct (stage_files_raises env) as [e|] eqn:Hstage; engine_step; [|exact I].
      engine_exn e; engine_step; rewrite ?Hfail; engine_step; outcome_done.
    + destruct (auto_stage config); engine_step; [|exact I].
      destruct (stage_files_raises env) as [e|] eqn:Hstage; engine_step; [|exact I].
      engine_exn e; engine_step; destruct (fail_on_error config); engine_step; outcome_done.
Qed.

End Engine.

Section EngineCalls.

Variable isoformat : Z -> string.
Variable fromisoformat : string -> iso_parse.

Import SyncEngine.

(** A sync that does not get through the merge touches nothing outside:
    when the parser raises or finds no route, when the collection file is
    missing or cannot be loaded, or when [merge] raises, [run_sync] makes
    no call that writes the file, updates the collection on Postman or
    stages anything. *)
Theorem run_sync_untouched_on_failure (config : Config) (env : Environment) (s : state) :
  (exists e, parse_directory env = inl e)
  \/ parse_directory env = inr []
  \/ collection_file_exists env = false
  \/ (exists e, load_collection env = inl e)
  \/ (exists routes local e w',
        parse_directory env = inr routes /\ load_collection env = inr local
        /\ merge isoformat fromisoformat (deprecation_days config) routes
                 (merge_world local s) = Raise e w') ->
  calls (state_of (run_sync isoformat fromisoformat config env s)) = calls s.
Proof.
  intros H. engine_step.
  destruct (parse_directory env) as [e|routes] eqn:Hparse.
  { engine_exn e; engine_step; destruct (fail_on_error config); reflexivity. }
  destruct routes as [|r routes]; engine_step; [reflexivity|].
  destruct (collection_file_exists env) eqn:Hex; engine_step.
  2:{ destruct (fail_on_error config); reflexivity. }
  destruct (load_collection env) as [e|local] eqn:Hload.
  { engine_exn e; engine_step; destruct (fail_on_error config); reflexivity. }
  destruct H as [(e & H)|[H|[H|[(e & H)|(routes' & local' & e & w' & Hp & Hl & Hm)]]]];
    try discriminate.
  injection Hp as <-. injection Hl as <-.
  unfold merging. fold (merge_world local s). rewrite Hm. engine_step.
  destruct e as [m|k|m|m|c]; engine_step; destruct (fail_on_error config); reflexivity.
Qed.

(** A sync that gets through the merge: with at least one route parsed and
    the collection loaded, a [merge] that returns has always changes to
    report, so [run_sync] never leaves by its "no changes" exit: it writes
    the merged collection to the file, then calls the API when a
    collection id is configured and the write did not raise, then stages
    the file when that is configured and nothing has stopped the run; and
    when none of these calls raises it returns the result of [merge]. *)
Theorem run_sync_calls (config : Config) (env : Environment) (s : state)
    (routes : list Route) (local : collection) (res : SyncResult) (w' : world) :
  parse_directory env = inr routes ->
  routes <> [] ->
  collection_file_exists env = true ->
  load_collection env = inr local ->
  merge isoformat fromisoformat (deprecation_days config) routes (merge_world local s)
  = Return res w' ->
  calls (state_of (run_sync isoformat fromisoformat config env s))
  = (calls s
     ++ WriteCollection (collection_file config) (w_doc w')
        :: (if update_attempted config env
            then [UpdateCollection (postman_collection_id config) (w_doc w')] else [])
        ++ (if stage_attempted config env
            then [StageFiles [collection_file config]] else []))%list
  /\ (write_collection_raises env = None ->
      update_collection_raises env = None ->
      stage_files_raises env = None ->
      exists s', run_sync isoformat fromisoformat config env s = Returns res s').
Proof.
  intros Hparse Hne Hex Hload Hmerge.
  pose proof (merge_reports_changes isoformat fromisoformat _ _ _ _ _ Hne Hmerge) as Hch.
  engine_step. rewrite Hparse.
  destruct routes as [|r routes]; [congruence|]. engine_step.
  rewrite Hex, Hload. unfold merging. fold (merge_world local s).
  rewrite Hmerge, Hch. engine_step.
  destruct (write_collection_raises env) as [e|] eqn:Hwrite; engine_step.
  { split; [|discriminate].
    engine_exn e; engine_step; destruct (fail_on_error config); calls_done. }
  destruct (PyStr.is_empty (postman_collection_id config)); engine_step.
  - destruct (auto_stage config); engine_step.
    2:{ split; [calls_done | intros; eexists; reflexivity]. }
    destruct (stage_files_raises env) as [e|] eqn:Hstage; engine_step.
    2:{ split; [calls_done | intros; eexists; reflexivity]. }
    split; [|discriminate].
    engine_exn e; engine_step; destruct (fail_on_error config); calls_done.
  - destruct (update_collection_raises env) as [e|] eqn:Hupdate; engine_step.
    + split; [|discriminate].
      engine_exn e; engine_step; destruct (fail_on_error config) eqn:Hfail; engine_step;
        try (destruct (auto_stage config); calls_done).
      destruct (auto_stage config); engine_step; [|calls_done].
      destruct (stage_files_raises env) as [e|] eqn:Hstage; engine_step; [|calls_done].
      engine_exn e; engine_step; rewrite ?Hfail; calls_done.
    + destruct (auto_stage config); engine_step.
      2:{ split; [calls_done | intros; eexists; reflexivity]. }
      destruct (stage_files_raises env) as [e|] eqn:Hstage; engine_step.
      2:{ split; [calls_done | intros; eexists; reflexivity]. }
      split; [|discriminate].
      engine_exn e; engine_step; destruct (fail_on_error config); calls_done.
Qed.

(** The API fails after the file is written. When the call to the API
    raises [PostmanAPIError], the merged collection is already in the
    file. With [fail_on_error] set, what leaves [run_sync] is a
    [SyncError] whose message carries both prefixes, "Unexpected error
    during sync: Postman API error: ...", the [SyncError] raised for the
    API error having been caught again by the engine's own [except
    Exception]; the file is not staged. With [fail_on_error] unset, the
    run goes on to stage the file, and when staging does not raise it
    returns the result of [merge] with the API error as its one error. *)
Theorem run_sync_api_failure (config : Config) (env : Environment) (s : state)
    (routes : list Route) (local : collection) (res : SyncResult) (w' : world)
    (msg : string) :
  parse_directory env = inr routes ->
  routes <> [] ->
  collection_file_exists env = true ->
  load_collection env = inr local ->
  merge isoformat fromisoformat (deprecation_days config) routes (merge_world local s)
  = Return res w' ->
  write_collection_raises env = None ->
  PyStr.is_empty (postman_collection_id config) = false ->
  update_collection_raises env = Some (PostmanAPIError msg) ->
  (fail_on_error config = true ->
   exists s',
     run_sync isoformat fromisoformat config env s
     = Raises (SyncError ("Unexpected error during sync: Postman API error: " ++ msg)) s'
     /\ calls s' = (calls s ++ [WriteCollection (collection_file config) (w_doc w');
                                UpdateCollection (postman_collection_id config) (w_doc w')])%list)
  /\ (fail_on_error config = false ->
      stage_files_raises env = None ->
      (exists s',
         run_sync isoformat fromisoformat config env s
         = Returns (append_error ("Postman API error: " ++ msg) res) s')
      /\ errors (append_error ("Postman API error: " ++ msg) res)
         = ["Postman API error: " ++ msg]).
Proof.
  intros Hparse Hne Hex Hload Hmerge Hwrite Hid Hupdate.
  pose proof (merge_reports_changes isoformat fromisoformat _ _ _ _ _ Hne Hmerge) as Hch.
  assert (Herr : errors res = []).
  { apply merge_inv in Hmerge
      as (w1 & w2 & w3 & w4 & w5 & w6 & res0 & res1 & deprecated & removed
          & _ & _ & Hnew & _ & Hloop & _ & _ & -> & _).
    simpl. revert Hloop.
    apply (for_each_inv (fun r _ => errors r = [])).
    - intros acc r w0 acc' w0' _ Hacc Hbody. unfold process_route in Hbody.
      destruct (index_get _ _); inv_bind Hbody as u wa Hop; unfold ret in Hbody;
        inv_Return Hbody; exact Hacc.
    - unfold new_SyncResult, bind, utcnow, ret in Hnew. inv_Return Hnew. reflexivity. }
  engine_step. rewrite Hparse.
  destruct routes as [|r routes]; [congruence|]. engine_step.
  rewrite Hex, Hload. unfold merging. fold (merge_world local s).
  rewrite Hmerge, Hch. engine_step. rewrite Hwrite. engine_step. rewrite Hid. engine_step.
  rewrite Hupdate. engine_step.
  split; intros Hfail; rewrite Hfail; engine_step.
  - eexists. split; [reflexivity | calls_done].
  - intros Hstage. split; [|unfold append_error; simpl; rewrite Herr; reflexivity].
    destruct (auto_stage config); engine_step; [rewrite Hstage|]; eexists; reflexivity.
Qed.

End EngineCalls.
Section EngineMergeFailure.

Variable isoformat : Z -> string.
Variable fromisoformat : string -> iso_parse.

Import SyncEngine.

(** Whatever goes wrong in [merge] leaves it as a [MergerError]. *)
Lemma merge_raises_MergerError deprecation_days routes w e w' :
  merge isoformat fromisoformat deprecation_days routes w = Raise e w' ->
  exists cause, e = MergerError cause.
Proof.
  unfold merge, try_merger. intros H.
  match type of H with
  | match ?body with _ => _ end = _ => destruct body as [a wa|c wc]
  end; [discriminate|].
  inversion H. eexists. reflexivity.
Qed.

(** A collection without the key [item] fails the validation, whatever
    else it holds. *)
Lemma merge_without_item deprecation_days routes w info :
  c_info (w_doc w) = Some info -> c_item (w_doc w) = None ->
  merge isoformat fromisoformat deprecation_days routes w
  = Raise (MergerError (ValidationError "Collection missing 'item' field")) w.
Proof.
  intros Hi Hc. unfold merge, try_merger, bind, validate_postman_collection.
  rewrite Hi, Hc. reflexivity.
Qed.

(** A failure of the merger, as the engine reports it. Whatever [merge]
    raises is a [MergerError], also when the validation of the collection
    is what failed, so the engine's first handler takes it: with
    [fail_on_error] set, [run_sync] raises [SyncError] with the message
    "Sync failed: Failed to merge collection: ..." and the text of the
    cause; with it unset, it returns a fresh result that has this message
    as its one error and reports no change. A collection file without the
    key [item] is reported as "Sync failed: Failed to merge collection:
    Collection missing 'item' field". *)
Theorem run_sync_merge_failure (config : Config) (env : Environment) (s : state)
    (routes : list Route) (local : collection) (e : exn) (w' : world) :
  parse_directory env = inr routes ->
  routes <> [] ->
  collection_file_exists env = true ->
  load_collection env = inr local ->
  merge isoformat fromisoformat (deprecation_days config) routes (merge_world local s)
  = Raise e w' ->
  exists cause,
    e = MergerError cause
    /\ (fail_on_error config = true ->
        exists s',
          run_sync isoformat fromisoformat config env s
          = Raises (SyncError ("Sync failed: Failed to merge collection: " ++ exn_str cause)) s')
    /\ (fail_on_error config = false ->
        exists r s',
          run_sync isoformat fromisoformat config env s = Returns r s'
          /\ errors r = ["Sync failed: Failed to merge collection: " ++ exn_str cause]
          /\ has_changes r = false)
    /\ (is_Some (c_info local) -> c_item local = None ->
        cause = ValidationError "Collection missing 'item' field").
Proof.
  intros Hparse Hne Hex Hload Hmerge.
  destruct (merge_raises_MergerError _ _ _ _ _ Hmerge) as (cause & ->).
  exists cause. split; [reflexivity|].
  assert (Hrun : run_sync isoformat fromisoformat config env s
                 = report_failure config ("Sync failed: Failed to merge collection: " ++ exn_str cause)
                     {| clock := clock s; ticks := w_ticks w'; calls := calls s |}).
  { engine_step. rewrite Hparse.
    destruct routes as [|r routes]; [congruence|]. engine_step.
    rewrite Hex. engine_step. rewrite Hload. engine_step.
    unfold merging. fold (merge_world local s). rewrite Hmerge. engine_step.
    reflexivity. }
  split; [|split].
  - intros Hf. rewrite Hrun. unfold report_failure. rewrite Hf. eexists. reflexivity.
  - intros Hf. rewrite Hrun. unfold report_failure. rewrite Hf. eexists _, _.
    split; [reflexivity|]. split; reflexivity.
  - intros (info & Hi) Hc.
    rewrite (merge_without_item _ routes (merge_world local s) info Hi Hc) in Hmerge.
    inversion Hmerge. reflexivity.
Qed.

End EngineMergeFailure.


(** ** The further properties at the scenarios *)


Lemma merge_request_without_method_witness :
  exists w',
    Scenario.merger [Scenario.token_route]
      (Scenario.frozen_world Scenario.new_year (Some Fixture.no_method_items))
    = Raise (MergerError (KeyError "method")) w'
    /\ w_doc w' = w_doc (Scenario.frozen_world Scenario.new_year (Some Fixture.no_method_items)).
Proof.
  apply (merge_request_without_method PyDatetime.isoformat PyDatetime.fromisoformat 30
           [Scenario.token_route]
           (Scenario.frozen_world Scenario.new_year (Some Fixture.no_method_items))
           {| info_name := Some "Tracker API"; info_description := None |} "Tracker API"
           Fixture.no_method_items [O; O]
           (Item (Some "List Users") (Some Fixture.no_method_request) None None None)
           Fixture.no_method_request); reflexivity.
Defined.

Lemma merge_unnamed_folder_witness :
  exists w',
    Scenario.merger [Scenario.token_route]
      (Scenario.frozen_world Scenario.new_year (Some Fixture.unnamed_folder_items))
    = Raise (MergerError (KeyError "name")) w'
    /\ w_doc w'
       = w_doc (Scenario.frozen_world Scenario.new_year (Some Fixture.unnamed_folder_items)).
Proof.
  apply (merge_unnamed_folder PyDatetime.isoformat PyDatetime.fromisoformat 30
           [Scenario.token_route]
           (Scenario.frozen_world Scenario.new_year (Some Fixture.unnamed_folder_items))
           {| info_name := Some "Tracker API"; info_description := None |} "Tracker API"
           Fixture.unnamed_folder_items); try reflexivity.
  apply Exists_cons_tl. apply Exists_cons_hd. split; [eexists|]; reflexivity.
Defined.


Lemma remove_old_deprecated_sweeps_witness :
  let cutoff := Scenario.new_year + us_per_day in
  exists w',
    Scenario.expiry_pass Scenario.day_after
    = Return (swept_ids_of PyDatetime.fromisoformat cutoff (items_in Scenario.day_after)) w'
    /\ c_item (w_doc w')
       = Some (sweep_items PyDatetime.fromisoformat cutoff (items_in Scenario.day_after))
    /\ c_info (w_doc w') = c_info (w_doc Scenario.day_after)
    /\ w_log w'
       = (w_log Scenario.day_after
          ++ map DebugRemovedOldDeprecated
               (swept_ids_of PyDatetime.fromisoformat cutoff (items_in Scenario.day_after)))%list.
Proof.
  intros cutoff.
  destruct (remove_old_deprecated_sweeps PyDatetime.fromisoformat 30 Scenario.day_after cutoff)
    as (w' & Hrun & Hitems & Hinfo & Hlog & _).
  - vm_compute. reflexivity.
  - vm_compute. discriminate.
  - split; vm_compute; [discriminate | reflexivity].
  - repeat constructor; try (intros t off; vm_compute; discriminate); eexists; reflexivity.
  - exists w'. auto.
Defined.

Lemma merge_aware_stamp_fails_witness :
  exists e w',
    Scenario.merger [Scenario.token_route]
      (Scenario.frozen_world (Scenario.new_year + 400 * us_per_day)
         (Some (Scenario.users_folder Fixture.offset_desc)))
    = Raise (MergerError e) w'.
Proof.
  apply (merge_aware_stamp_fails PyDatetime.isoformat PyDatetime.fromisoformat 30
           [Scenario.token_route]
           (Scenario.frozen_world (Scenario.new_year + 400 * us_per_day)
              (Some (Scenario.users_folder Fixture.offset_desc)))
           [O; O] (Scenario.users_request Fixture.offset_desc)
           (Scenario.new_year) (-18000000000)).
  - simpl. split; reflexivity.
  - vm_compute. reflexivity.
  - intros r [<-|[]]. vm_compute. discriminate.
Defined.

Lemma merge_marks_missing_route_witness :
  let w := Scenario.frozen_world Scenario.new_year
             (Some (Scenario.users_folder "Deletes a user")) in
  let run := Scenario.merger [Scenario.token_route] w in
  let res := Scenario.result_of Scenario.empty_result run in
  In "DELETE:/api/users/:id" (routes_deprecated res)
  /\ exists k,
       (w_ticks w <= k)%nat
       /\ ((exists p', entry_at p'
                         (marked_request PyDatetime.isoformat (w_clock w k)
                            (Scenario.users_request "Deletes a user"))
                         (items_in (Scenario.final_world run)))
           \/ In "DELETE:/api/users/:id" (routes_removed res)).
Proof.
  intros w run res.
  apply (merge_marks_missing_route PyDatetime.isoformat PyDatetime.fromisoformat 30
           [Scenario.token_route] w (Scenario.final_world run) res [O; O]
           (Scenario.users_request "Deletes a user") "DELETE:/api/users/:id").
  - simpl. split; reflexivity.
  - reflexivity.
  - vm_compute. reflexivity.
  - intros r [<-|[]]. vm_compute. discriminate.
  - reflexivity.
  - unfold res, run, Scenario.merger.
    apply (outcome_eta Scenario.empty_result). vm_compute. reflexivity.
Defined.

Lemma merge_leaves_duplicates_witness :
  let w := Scenario.frozen_world Scenario.new_year (Some Scenario.nested_items) in
  let run := Scenario.merger [Scenario.token_route] w in
  exists p', entry_at p' {| req_method := Some "GET"; req_header := [];
                            req_url := Some (UrlString "/api/users");
                            req_description := Some "Lists the users" |}
                      (items_in (Scenario.final_world run)).
Proof.
  intros w run.
  apply (merge_leaves_duplicates PyDatetime.isoformat PyDatetime.fromisoformat 30
           [Scenario.token_route] w (Scenario.final_world run)
           (Scenario.result_of Scenario.empty_result run) [O; 1%nat] [O; O; O] _
           "GET:/api/users").
  - simpl. split; reflexivity.
  - reflexivity.
  - vm_compute. reflexivity.
  - discriminate.
  - reflexivity.
  - unfold run, Scenario.merger.
    apply (outcome_eta Scenario.empty_result). vm_compute. reflexivity.
Defined.

Lemma ensure_folders_contract_witness :
  let w := Scenario.frozen_world Scenario.new_year
             (Some (Scenario.users_folder "Deletes a user")) in
  exists w',
    _ensure_folders ["Auth"; "Users"] w = Return tt w'
    /\ c_item (w_doc w')
       = Some (Scenario.users_folder "Deletes a user" ++ [new_folder "Auth"])%list
    /\ exists w'', _ensure_folders ["Auth"; "Users"] w' = Return tt w'' /\ w_doc w'' = w_doc w'.
Proof.
  intros w.
  destruct (ensure_folders_contract ["Auth"; "Users"] w)
    as (w' & Hrun & Hitems & _ & _ & Hagain).
  - repeat constructor; intros _; eexists; reflexivity.
  - exists w'. split; [exact Hrun|]. split; [exact Hitems | exact Hagain].
Defined.

Lemma marker_read_back_witness :
  let rq := marked_request PyDatetime.isoformat Scenario.new_year
              {| req_method := Some "GET"; req_header := []; req_url := None;
                 req_description := Some "Moved (as of 2019-05-05) to the admin API" |} in
  search_as_of (default EmptyString (req_description rq)) = Some "2024-01-01T00:00:00"
  /\ stale_request PyDatetime.fromisoformat (Scenario.new_year + 1) rq = true.
Proof.
  intros rq.
  destruct (marker_read_back PyDatetime.isoformat PyDatetime.fromisoformat Scenario.new_year
              {| req_method := Some "GET"; req_header := []; req_url := None;
                 req_description := Some "Moved (as of 2019-05-05) to the admin API" |})
    as (_ & Hsearch & _ & Hstale).
  - vm_compute. discriminate.
  - vm_compute. reflexivity.
  - split; [exact Hsearch|]. unfold rq. rewrite Hstale; vm_compute; reflexivity.
Defined.

Lemma add_request_contract_witness :
  let w := Scenario.frozen_world Scenario.new_year
             (Some (Scenario.users_folder "Deletes a user")) in
  exists w' desc,
    _add_request PyDatetime.isoformat Scenario.delete_user_route w = Return tt w'
    /\ desc = "DELETE /api/users/:id" ++ sync_note PyDatetime.isoformat Scenario.new_year
    /\ lookup_path [O; 1%nat] (items_in w')
       = Some (build_request_item Scenario.delete_user_route desc).
Proof.
  intros w.
  destruct (add_request_contract PyDatetime.isoformat Scenario.delete_user_route w
              (Scenario.users_folder "Deletes a user") eq_refl)
    as (w' & desc & Hrun & Hdesc & _ & _ & _ & Hlast).
  destruct (Hlast O eq_refl) as (folder & Hfolder & _ & Hlook).
  injection Hfolder as <-.
  exists w', desc. split; [exact Hrun|]. split; [exact Hdesc | exact Hlook].
Defined.

Lemma validate_http_method_accepts_witness :
  validate_http_method "delete" Scenario.day_before = Return tt Scenario.day_before.
Proof.
  destruct (validate_http_method_accepts "delete" Scenario.day_before eq_refl) as (Hiff & _).
  apply Hiff. exists DELETE. reflexivity.
Defined.

(** The merge of the scenario with a request that has no method. *)
Lemma broken_file_merge :
  exists w',
    merge PyDatetime.isoformat PyDatetime.fromisoformat 30 [Scenario.token_route]
      (merge_world {| c_info := Some {| info_name := Some "Tracker API";
                                        info_description := None |};
                      c_item := Some Fixture.no_method_items |}
                   EngineFixture.start)
    = Raise (MergerError (KeyError "method")) w'.
Proof.
  match goal with
  | |- exists w', ?run = _ =>
      assert (H : match run with Raise e _ => Some e | Return _ _ => None end
                  = Some (MergerError (KeyError "method")))
        by (vm_compute; reflexivity);
      destruct run as [a wa|e we]; [discriminate|]
  end.
  injection H as ->. eexists. reflexivity.
Qed.

Lemma run_sync_untouched_on_failure_witness :
  SyncEngine.calls
    (state_of (SyncEngine.run_sync PyDatetime.isoformat PyDatetime.fromisoformat
                 (EngineFixture.config false) EngineFixture.broken_file EngineFixture.start))
  = [].
Proof.
  apply (run_sync_untouched_on_failure PyDatetime.isoformat PyDatetime.fromisoformat
           (EngineFixture.config false) EngineFixture.broken_file EngineFixture.start).
  right. right. right. right.
  destruct broken_file_merge as (w' & Hraise).
  eexists _, _, _, w'. split; [reflexivity|]. split; [reflexivity|]. exact Hraise.
Defined.

Lemma run_sync_calls_witness :
  let run := SyncEngine.run_sync PyDatetime.isoformat PyDatetime.fromisoformat
               (EngineFixture.config true) EngineFixture.all_up EngineFixture.start in
  let merged := EngineFixture.merged true in
  let updated := w_doc (Scenario.final_world merged) in
  SyncEngine.calls (state_of run)
  = [ SyncEngine.WriteCollection "postman/tracker-backend-api.postman_collection.json" updated;
      SyncEngine.UpdateCollection "12345678-tracker" updated;
      SyncEngine.StageFiles ["postman/tracker-backend-api.postman_collection.json"] ]
  /\ exists s', run = SyncEngine.Returns (Scenario.result_of Scenario.empty_result merged) s'.
Proof.
  intros run merged updated.
  destruct (run_sync_calls PyDatetime.isoformat PyDatetime.fromisoformat
              (EngineFixture.config true) EngineFixture.all_up EngineFixture.start
              [Scenario.token_route] EngineFixture.local_collection
              (Scenario.result_of Scenario.empty_result merged)
              (Scenario.final_world merged)) as (Hcalls & Hret).
  - reflexivity.
  - discriminate.
  - reflexivity.
  - reflexivity.
  - unfold merged, EngineFixture.merged.
    apply (outcome_eta Scenario.empty_result). vm_compute. reflexivity.
  - split; [exact Hcalls | apply Hret; reflexivity].
Defined.

Lemma run_sync_api_failure_witness :
  let merged := EngineFixture.merged true in
  let updated := w_doc (Scenario.final_world merged) in
  exists s',
    SyncEngine.run_sync PyDatetime.isoformat PyDatetime.fromisoformat
      (EngineFixture.config true) EngineFixture.api_down EngineFixture.start
    = SyncEngine.Raises
        (SyncEngine.SyncError
           "Unexpected error during sync: Postman API error: HTTP 500: Internal Server Error")
        s'
    /\ SyncEngine.calls s'
       = [ SyncEngine.WriteCollection "postman/tracker-backend-api.postman_collection.json"
             updated;
           SyncEngine.UpdateCollection "12345678-tracker" updated ].
Proof.
  intros merged updated.
  destruct (run_sync_api_failure PyDatetime.isoformat PyDatetime.fromisoformat
              (EngineFixture.config true) EngineFixture.api_down EngineFixture.start
              [Scenario.token_route] EngineFixture.local_collection
              (Scenario.result_of Scenario.empty_result merged)
              (Scenario.final_world merged) "HTTP 500: Internal Server Error")
    as (Hstrict & _).
  - reflexivity.
  - discriminate.
  - reflexivity.
  - reflexivity.
  - unfold merged, EngineFixture.merged.
    apply (outcome_eta Scenario.empty_result). vm_compute. reflexivity.
  - reflexivity.
  - reflexivity.
  - reflexivity.
  - apply Hstrict. reflexivity.
Defined.

Lemma run_sync_merge_failure_witness :
  exists r s',
    SyncEngine.run_sync PyDatetime.isoformat PyDatetime.fromisoformat
      (EngineFixture.config false) EngineFixture.broken_file EngineFixture.start
    = SyncEngine.Returns r s'
    /\ errors r = ["Sync failed: Failed to merge collection: 'method'"]
    /\ has_changes r = false.
Proof.
  destruct broken_file_merge as (w' & Hraise).
  destruct (run_sync_merge_failure PyDatetime.isoformat PyDatetime.fromisoformat
              (EngineFixture.config false) EngineFixture.broken_file EngineFixture.start
              [Scenario.token_route] _ _ w' eq_refl ltac:(discriminate) eq_refl eq_refl Hraise)
    as (cause & Hcause & _ & Hret & _).
  injection Hcause as <-. apply Hret. reflexivity.
Defined.
